(** * CausalOps: shared schemas, environment validation, index bootstrap,
      and the diagnosis pipeline

    A shallow embedding of the TypeScript sources of the CausalOps monorepo
    (packages/shared: env.ts, elastic-index.ts, elastic-client.ts;
    packages/eql and apps/agent: index.ts), with the zod combinators they
    are written with, together with a model of the diagnosis pipeline that
    the design documents describe and the sources do not yet hold.  Part I
    holds the definitions, Part II the lemmas and theorems about them. *)

From Stdlib Require Import ZArith QArith List String Ascii Bool Lia DecimalString.
From stdpp Require Import gmap strings list.
Import ListNotations.
Local Open Scope string_scope.
Local Open Scope list_scope.
Set Warnings "-register-all".

(* ===================================================================== *)
(** * Part I: definitions                                                  *)
(* ===================================================================== *)

(** ** JavaScript values

    Runtime values as the schemas see them: what a JSON document or
    [process.env] can hold, and [undefined].  Objects keep their own
    enumerable string-keyed properties in insertion order.  A string holds
    the UTF-8 bytes of its text. *)
Module JS.

(** The UTF-16 code units of the text from [s] on, [pending] continuation
    bytes of the code point at hand still being due. *)
Fixpoint code_units (pending : nat) (s : string) : nat :=
  match s with
  | EmptyString => 0
  | String c rest =>
      let n := nat_of_ascii c in
      if Nat.leb 128 n && Nat.ltb n 192 then
        match pending with
        | S k => code_units k rest
        | O => S (code_units 0 rest)
        end
      else if Nat.ltb n 128 then S (code_units 0 rest)
      else if Nat.ltb n 224 then S (code_units 1 rest)
      else if Nat.ltb n 240 then S (code_units 2 rest)
      else S (S (code_units 3 rest))
  end.

(** [s.length]: the number of UTF-16 code units.  A code point takes one
    unit, and two when it lies outside the Basic Multilingual Plane (four
    bytes in UTF-8); a byte that belongs to no code point stands for one
    replacement character. *)
Definition length (s : string) : nat := code_units 0 s.

Inductive number :=
| NaN
| Infinity (negative : bool)
| Finite (q : Q).

Inductive value :=
| VUndefined
| VNull
| VBool (b : bool)
| VNumber (n : number)
| VString (s : string)
| VArray (items : list value)
| VObject (fields : list (string * value)).

(** [obj[key]]: the first binding of [key], [undefined] when there is none. *)
Fixpoint get (key : string) (fields : list (string * value)) : value :=
  match fields with
  | [] => VUndefined
  | (k, v) :: rest => if String.eqb k key then v else get key rest
  end.

(** [key in obj]. *)
Fixpoint has_key (key : string) (fields : list (string * value)) : bool :=
  match fields with
  | [] => false
  | (k, _) :: rest => String.eqb k key || has_key key rest
  end.

(** Property access on an arbitrary value; anything but an object has no
    properties of interest here. *)
Definition prop (key : string) (v : value) : value :=
  match v with
  | VObject fields => get key fields
  | _ => VUndefined
  end.

Definition is_undefined (v : value) : bool :=
  match v with VUndefined => true | _ => false end.

(** ToBoolean *)
Definition truthy (v : value) : bool :=
  match v with
  | VUndefined | VNull => false
  | VBool b => b
  | VNumber NaN => false
  | VNumber (Infinity _) => true
  | VNumber (Finite q) => negb (Qeq_bool q 0)
  | VString s => negb (String.eqb s "")
  | VArray _ | VObject _ => true
  end.

(** [a && b]: the left operand when it is falsy, the right one otherwise. *)
Definition and_ (a b : value) : value := if truthy a then b else a.

(** [a || b]: the left operand when it is truthy, the right one otherwise. *)
Definition or_ (a b : value) : value := if truthy a then a else b.

(** [{...obj, key: v}] *)
Fixpoint set (key : string) (v : value) (fields : list (string * value))
  : list (string * value) :=
  match fields with
  | [] => [(key, v)]
  | (k, x) :: rest =>
      if String.eqb k key then (k, v) :: rest else (k, x) :: set key v rest
  end.

(** What a routine throws. *)
Inductive Exn (Issue : Type) :=
| Error (message : string)
| ZodError (issues : list Issue).
Arguments Error {Issue} message.
Arguments ZodError {Issue} issues.

(** How a call completes: normally with a value, or abruptly. *)
Inductive Completion (E A : Type) :=
| Return (a : A)
| Throw (e : E).
Arguments Return {E A} a.
Arguments Throw {E A} e.

End JS.

(** ** The zod combinators the schemas are built from (zod 3.x)

    A schema is its parse function: from a path and an input to either the
    parsed output or the list of issues.  Every issue keeps the path of the
    offending value and zod's issue code. *)
Module Zod.
Import JS.

Inductive PathSeg := Key (k : string) | Index (i : nat).

Inductive IssueCode :=
| invalid_type
| invalid_enum_value
| invalid_union
| invalid_string
| too_small
| too_big.

Record ZodIssue := { code : IssueCode; path : list PathSeg }.

Inductive ParseResult :=
| OK (data : value)
| INVALID (issues : list ZodIssue).

Definition ZodType := list PathSeg -> value -> ParseResult.

Definition is_ok (r : ParseResult) : bool :=
  match r with OK _ => true | INVALID _ => false end.

Definition issues_of (r : ParseResult) : list ZodIssue :=
  match r with OK _ => [] | INVALID errs => errs end.

Definition issue (c : IssueCode) (p : list PathSeg) : ZodIssue :=
  {| code := c; path := p |}.

(** A refinement of an already well-typed value: [None] when it passes. *)
Definition Refinement (A : Type) := A -> option IssueCode.

Definition run_checks {A} (checks : list (Refinement A)) (p : list PathSeg) (a : A)
  : list ZodIssue :=
  flat_map (fun c => match c a with Some i => [issue i p] | None => [] end) checks.

Definition finish (v : value) (errs : list ZodIssue) : ParseResult :=
  match errs with [] => OK v | _ => INVALID errs end.

(** [z.string()] followed by its checks. *)
Definition string_ (checks : list (Refinement string)) : ZodType :=
  fun p v =>
    match v with
    | VString s => finish v (run_checks checks p s)
    | _ => INVALID [issue invalid_type p]
    end.

(** [.min(n)] and [.max(n)] on strings compare [input.length]. *)
Definition min (n : nat) : Refinement string :=
  fun s => if Nat.ltb (JS.length s) n then Some too_small else None.

Definition max (n : nat) : Refinement string :=
  fun s => if Nat.ltb n (JS.length s) then Some too_big else None.

(** [.url()] and [.datetime()] defer to a recogniser of the format. *)
Definition format (recognise : string -> bool) : Refinement string :=
  fun s => if recognise s then None else Some invalid_string.

(** [z.number()]: NaN is not a number for zod. *)
Definition number_ (checks : list (Refinement number)) : ZodType :=
  fun p v =>
    match v with
    | VNumber NaN => INVALID [issue invalid_type p]
    | VNumber n => finish v (run_checks checks p n)
    | _ => INVALID [issue invalid_type p]
    end.

(** [.int()]: Number.isInteger; a number that is none is reported as
    [invalid_type] (expected integer, received float). *)
Definition int : Refinement number :=
  fun n =>
    match n with
    | Finite q =>
        if Z.eqb (Z.modulo (Qnum q) (Zpos (Qden q))) 0 then None else Some invalid_type
    | _ => Some invalid_type
    end.

(** [.min(n)] on numbers: [input < n] is the failure. *)
Definition nmin (n : Z) : Refinement number :=
  fun x =>
    match x with
    | Finite q => if Qle_bool (inject_Z n) q then None else Some too_small
    | Infinity negative => if negative then Some too_small else None
    | NaN => None
    end.

(** [.max(n)] on numbers: [input > n] is the failure. *)
Definition nmax (n : Z) : Refinement number :=
  fun x =>
    match x with
    | Finite q => if Qle_bool q (inject_Z n) then None else Some too_big
    | Infinity negative => if negative then None else Some too_big
    | NaN => None
    end.

(** [.positive()] *)
Definition positive : Refinement number :=
  fun x =>
    match x with
    | Finite q => if Qle_bool q 0 then Some too_small else None
    | Infinity negative => if negative then Some too_small else None
    | NaN => None
    end.

Definition boolean : ZodType :=
  fun p v =>
    match v with
    | VBool _ => OK v
    | _ => INVALID [issue invalid_type p]
    end.

Definition any : ZodType := fun _ v => OK v.

Definition mem (s : string) (l : list string) : bool :=
  existsb (String.eqb s) l.

(** [z.enum([...])] *)
Definition enum (values : list string) : ZodType :=
  fun p v =>
    match v with
    | VString s => if mem s values then OK v else INVALID [issue invalid_enum_value p]
    | _ => INVALID [issue invalid_type p]
    end.

(** [z.union([...])]: the first option that accepts the input wins. *)
Fixpoint union (options : list ZodType) : ZodType :=
  fun p v =>
    match options with
    | [] => INVALID [issue invalid_union p]
    | t :: rest =>
        match t p v with
        | OK d => OK d
        | INVALID _ => union rest p v
        end
    end.

(** [.optional()] *)
Definition optional (t : ZodType) : ZodType :=
  fun p v => match v with VUndefined => OK VUndefined | _ => t p v end.

(** [.default(d)] *)
Definition default (t : ZodType) (d : value) : ZodType :=
  fun p v => match v with VUndefined => t p d | _ => t p v end.

(** Merge of the per-key results of an object or a record
    ([mergeObjectSync]): one invalid key makes the whole invalid and all
    issues are collected; a key is set in the output when it is not
    [__proto__] and it was present in the input or its parsed value is
    defined. *)
Fixpoint merge (pairs : list (string * bool * ParseResult))
  : list (string * value) + list ZodIssue :=
  match pairs with
  | [] => inl []
  | (k, always, r) :: rest =>
      match r, merge rest with
      | OK d, inl out =>
          inl (if negb (String.eqb k "__proto__") && (always || negb (is_undefined d))
               then (k, d) :: out else out)
      | OK _, inr errs => inr errs
      | INVALID errs, inl _ => inr errs
      | INVALID errs, inr errs' => inr (errs ++ errs')
      end
  end.

Definition merged (pairs : list (string * bool * ParseResult)) : ParseResult :=
  match merge pairs with
  | inl out => OK (VObject out)
  | inr errs => INVALID errs
  end.

(** [z.object({...})]: unknown keys are stripped. *)
Definition object (shape : list (string * ZodType)) : ZodType :=
  fun p v =>
    match v with
    | VObject fields =>
        merged (List.map (fun '(k, t) =>
                       (k, has_key k fields, t (p ++ [Key k]) (get k fields))) shape)
    | _ => INVALID [issue invalid_type p]
    end.

(** [z.record(z.string(), valueType)] *)
Definition record (valueType : ZodType) : ZodType :=
  fun p v =>
    match v with
    | VObject fields =>
        merged (List.map (fun '(k, x) => (k, true, valueType (p ++ [Key k]) x)) fields)
    | _ => INVALID [issue invalid_type p]
    end.

(** The items of an array, each parsed at its index. *)
Fixpoint items_from (t : ZodType) (p : list PathSeg) (i : nat) (items : list value)
  : list value + list ZodIssue :=
  match items with
  | [] => inl []
  | x :: rest =>
      match t (p ++ [Index i]) x, items_from t p (S i) rest with
      | OK d, inl out => inl (d :: out)
      | OK _, inr errs => inr errs
      | INVALID errs, inl _ => inr errs
      | INVALID errs, inr errs' => inr (errs ++ errs')
      end
  end.

(** [z.array(itemType).min(n)] *)
Definition array (itemType : ZodType) (min_length : nat) : ZodType :=
  fun p v =>
    match v with
    | VArray items =>
        let short := Nat.ltb (List.length items) min_length in
        match items_from itemType p 0 items with
        | inl out => if short then INVALID [issue too_small p] else OK (VArray out)
        | inr errs => INVALID ((if short then [issue too_small p] else []) ++ errs)
        end
    | _ => INVALID [issue invalid_type p]
    end.

Definition result_of (pair : string * bool * ParseResult) : ParseResult := snd pair.
Definition key_of (pair : string * bool * ParseResult) : string := fst (fst pair).

(** [schema.parse(input)] at the root path. *)
Definition parse (t : ZodType) (input : value) : ParseResult := t [] input.

End Zod.

(** ** packages/shared/src/elastic-index.ts *)
Module ElasticIndex.
Import JS Zod.

Section Schemas.

(** The recogniser behind [z.string().datetime()]; it belongs to zod. *)
Variable is_datetime : string -> bool.

(** Core event actions that trigger causal analysis *)
Definition EventActionSchema : ZodType :=
  enum ["config_change"; "db_pool_low"; "latency_spike"].

(** Dynamic labels object for additional metadata *)
Definition LabelsSchema : ZodType :=
  record (union [string_ []; number_ []; boolean]).

(** Dynamic metrics object for measurements *)
Definition MetricsSchema : ZodType :=
  record (union [number_ []; string_ []]).

(** Service information *)
Definition ServiceSchema : ZodType :=
  object [("name", string_ [max 256])].

(** Event information *)
Definition EventSchema : ZodType :=
  object [("action", EventActionSchema)].

(** Complete log document schema *)
Definition LogDocumentSchema : ZodType :=
  object
    [ ("@timestamp", string_ [format is_datetime]);
      ("service", ServiceSchema);
      ("event", EventSchema);
      ("message", string_ [max 1024]);
      ("trace_id", optional (string_ [max 256]));
      ("labels", optional LabelsSchema);
      ("metrics", optional MetricsSchema) ].

(** Bulk indexing request schema *)
Definition BulkIndexRequestSchema : ZodType :=
  object
    [ ("index", default (string_ []) (VString "causalops-logs"));
      ("documents", array LogDocumentSchema 1) ].

End Schemas.

Definition num (z : Z) : value := VNumber (Finite (inject_Z z)).

(** Index creation request schema *)
Definition IndexCreationRequestSchema : ZodType :=
  object
    [ ("index", default (string_ []) (VString "causalops-logs"));
      ("mapping",
       object
         [ ("settings",
            object
              [ ("number_of_shards", default (number_ [int; positive]) (num 1));
                ("number_of_replicas", default (number_ [int; nmin 0]) (num 1)) ]);
           ("mappings", object [ ("properties", record any) ]) ]) ].

(** Sample log document for testing and development *)
Definition sampleLogDocument : value :=
  VObject
    [ ("@timestamp", VString "2025-09-18T10:00:00.000Z");
      ("service", VObject [("name", VString "api")]);
      ("event", VObject [("action", VString "latency_spike")]);
      ("message", VString "Latency spike detected: p95=980ms");
      ("trace_id", VString "t-1001");
      ("labels", VObject [("db_pool_avail", num 3); ("environment", VString "staging")]);
      ("metrics", VObject [("p95_ms", num 980); ("request_count", num 1500)]) ].

(** The default pattern of [.datetime()] in zod 3.22: no offset, any
    precision, i.e. [^\d{4}-\d{2}-\d{2}T\d{2}:\d{2}:\d{2}(\.\d+)?Z$]. *)
Definition is_digit (c : ascii) : bool :=
  let n := nat_of_ascii c in Nat.leb 48 n && Nat.leb n 57.

Fixpoint digits_then_Z (seen : bool) (s : string) : bool :=
  match s with
  | String c EmptyString => seen && Ascii.eqb c "Z"
  | String c rest => is_digit c && digits_then_Z true rest
  | EmptyString => false
  end.

Fixpoint match_template (template : list (option ascii)) (s : string) : option string :=
  match template with
  | [] => Some s
  | t :: template' =>
      match s with
      | EmptyString => None
      | String c rest =>
          let ok := match t with
                    | None => is_digit c
                    | Some lit => Ascii.eqb c lit
                    end in
          if ok then match_template template' rest else None
      end
  end.

Definition datetime_template : list (option ascii) :=
  let d := @None ascii in
  let l (c : ascii) := Some c in
  [d; d; d; d; l "-"; d; d; l "-"; d; d; l "T"; d; d; l ":"; d; d; l ":"; d; d]%char.

Definition datetime_regex (s : string) : bool :=
  match match_template datetime_template s with
  | Some "Z" => true
  | Some (String "." rest) => digits_then_Z false rest
  | _ => false
  end.

(** The event actions of the named patterns. *)
Definition event_actions : list string :=
  ["config_change"; "db_pool_low"; "latency_spike"].

(** [{...doc, key: v}] on a document. *)
Definition with_field (key : string) (v : value) (doc : value) : value :=
  match doc with
  | VObject fields => VObject (set key v fields)
  | _ => doc
  end.

(** Scalars, as opposed to objects and arrays. *)
Definition scalar (v : value) : bool :=
  match v with
  | VNull | VBool _ | VNumber _ | VString _ => true
  | VUndefined | VArray _ | VObject _ => false
  end.

(** The entry values [LabelsSchema] lets through: strings, numbers but NaN,
    booleans. *)
Definition label_value (v : value) : bool :=
  match v with
  | VString _ | VBool _ => true
  | VNumber NaN => false
  | VNumber _ => true
  | _ => false
  end.

(** The entry values [MetricsSchema] lets through: numbers but NaN, strings. *)
Definition metric_value (v : value) : bool :=
  match v with
  | VString _ => true
  | VNumber NaN => false
  | VNumber _ => true
  | _ => false
  end.

End ElasticIndex.


(** ** packages/shared/src/env.ts *)
Module Env.
Import JS Zod.

Definition Exn := JS.Exn ZodIssue.

(** [schema.parse(x)] as the callers use it: the data, or a thrown ZodError. *)
Definition parse_or_throw (t : ZodType) (input : value) : Completion Exn value :=
  match parse t input with
  | OK d => Return d
  | INVALID errs => Throw (ZodError errs)
  end.

(** [process.env] as the object the schema receives. *)
Definition of_env (env : gmap string string) : value :=
  VObject (List.map (fun '(k, v) => (k, VString v)) (map_to_list env)).

Definition num (z : Z) : value := VNumber (Finite (inject_Z z)).

Section Schemas.

(** The recogniser behind [z.string().url()]; it belongs to zod. *)
Variable is_url : string -> bool.

(** Common environment variables *)
Definition baseEnvShape : list (string * ZodType) :=
  [ ("NODE_ENV",
     default (enum ["development"; "production"; "test"]) (VString "development")) ].

Definition baseEnvSchema : ZodType := object baseEnvShape.

(** Elasticsearch configuration schemas *)
Definition elasticCloudSchema : ZodType :=
  object
    [ ("ELASTIC_CLOUD_ID", string_ [min 1]);
      ("ELASTIC_API_KEY", string_ [min 1]);
      ("ELASTIC_INDEX", default (string_ []) (VString "causalops-logs")) ].

Definition elasticLocalSchema : ZodType :=
  object
    [ ("ELASTIC_NODE",
       default (string_ [format is_url]) (VString "http://localhost:9200"));
      ("ELASTIC_USERNAME", default (string_ []) (VString "elastic"));
      ("ELASTIC_PASSWORD", string_ [min 1]);
      ("ELASTIC_INDEX", default (string_ []) (VString "causalops-logs")) ].

(** Vertex AI configuration schema *)
Definition vertexAISchema : ZodType :=
  object
    [ ("GOOGLE_APPLICATION_CREDENTIALS", optional (string_ []));
      ("GCP_PROJECT_ID", string_ [min 1]) ].

(** Agent environment schema (supports multiple ES configurations):
    [baseEnvSchema.extend({...})] *)
Definition agentEnvSchema : ZodType :=
  object
    (baseEnvShape ++
     [ ("AGENT_PORT", default (number_ [int; nmin 1; nmax 65535]) (num 3001));
       ("GCP_PROJECT_ID", string_ [min 1]);
       ("GOOGLE_APPLICATION_CREDENTIALS", optional (string_ []));
       ("ELASTIC_CLOUD_ID", optional (string_ []));
       ("ELASTIC_API_KEY", optional (string_ []));
       ("ELASTIC_NODE", optional (string_ [format is_url]));
       ("ELASTIC_USERNAME", optional (string_ []));
       ("ELASTIC_PASSWORD", optional (string_ []));
       ("ELASTIC_INDEX", default (string_ []) (VString "causalops-logs")) ]).

(** Web environment schema *)
Definition webEnvSchema : ZodType :=
  object
    (baseEnvShape ++
     [ ("WEB_PORT", default (number_ [int; nmin 1; nmax 65535]) (num 3000));
       ("NEXT_PUBLIC_AGENT_URL",
        default (string_ [format is_url]) (VString "http://localhost:3001")) ]).

Definition missing_credentials : string :=
  "Missing Elasticsearch credentials. Provide either:" ++ String "010" "" ++
  "  - ELASTIC_CLOUD_ID + ELASTIC_API_KEY (for Elastic Cloud)" ++ String "010" "" ++
  "  - ELASTIC_NODE + ELASTIC_USERNAME + ELASTIC_PASSWORD (for local ES)".

(** The part of [validateAgentEnvironment] after the schema parse. *)
Definition select_elasticsearch (parsedEnv : value) : Completion Exn value :=
  (* Validate that we have either cloud or local Elasticsearch credentials *)
  let hasCloudCredentials :=
    and_ (prop "ELASTIC_CLOUD_ID" parsedEnv) (prop "ELASTIC_API_KEY" parsedEnv) in
  let hasLocalCredentials :=
    and_ (and_ (prop "ELASTIC_NODE" parsedEnv) (prop "ELASTIC_USERNAME" parsedEnv))
         (prop "ELASTIC_PASSWORD" parsedEnv) in
  if negb (truthy hasCloudCredentials) && negb (truthy hasLocalCredentials)
  then Throw (Error missing_credentials)
  else
    let elasticsearch :=
      if truthy hasCloudCredentials
      then VObject [ ("type", VString "cloud");
                     ("cloudId", prop "ELASTIC_CLOUD_ID" parsedEnv);
                     ("apiKey", prop "ELASTIC_API_KEY" parsedEnv);
                     ("index", prop "ELASTIC_INDEX" parsedEnv) ]
      else VObject [ ("type", VString "local");
                     ("node", prop "ELASTIC_NODE" parsedEnv);
                     ("username", prop "ELASTIC_USERNAME" parsedEnv);
                     ("password", prop "ELASTIC_PASSWORD" parsedEnv);
                     ("index", prop "ELASTIC_INDEX" parsedEnv) ] in
    match parsedEnv with
    | VObject fields => Return (VObject (set "elasticsearch" elasticsearch fields))
    | _ => Return (VObject [("elasticsearch", elasticsearch)])
    end.

(** Validation functions *)
Definition validateAgentEnvironment (env : gmap string string) : Completion Exn value :=
  match parse_or_throw agentEnvSchema (of_env env) with
  | Throw e => Throw e
  | Return parsedEnv => select_elasticsearch parsedEnv
  end.

Definition validateWebEnvironment (env : gmap string string) : Completion Exn value :=
  parse_or_throw webEnvSchema (of_env env).

End Schemas.

(** What [process.env] holds under a name. *)
Definition raw_value (env : gmap string string) (name : string) : value :=
  match env !! name with
  | Some s => VString s
  | None => VUndefined
  end.

(** The two credential tests on [process.env] itself. *)
Definition has_cloud (env : gmap string string) : bool :=
  truthy (raw_value env "ELASTIC_CLOUD_ID") && truthy (raw_value env "ELASTIC_API_KEY").

Definition has_local (env : gmap string string) : bool :=
  truthy (raw_value env "ELASTIC_NODE") && truthy (raw_value env "ELASTIC_USERNAME")
  && truthy (raw_value env "ELASTIC_PASSWORD").

(** A variable that is set, and not to the empty string. *)
Definition set_nonempty (env : gmap string string) (name : string) : Prop :=
  exists s, env !! name = Some s /\ s <> "".

Definition cloud_credentials (env : gmap string string) : Prop :=
  set_nonempty env "ELASTIC_CLOUD_ID" /\ set_nonempty env "ELASTIC_API_KEY".

Definition local_credentials (env : gmap string string) : Prop :=
  set_nonempty env "ELASTIC_NODE" /\ set_nonempty env "ELASTIC_USERNAME"
  /\ set_nonempty env "ELASTIC_PASSWORD".

End Env.


(** ** packages/shared/src/elastic-client.ts

    The methods talk to the Elasticsearch client, the file system, the
    clock and the console.  A method is a tree of such requests: every
    request may complete normally or throw, and the method continues from
    either completion, which is what [try]/[catch] needs. *)
Module ElasticClient.
Import JS Zod.

Definition Exn := Env.Exn.

Record IndexInitOptions := {
  indexName : option string;
  mappingPath : option string;
  recreate : option bool
}.

Record CreateResponse := { acknowledged : bool }.

(** [_shards] may be absent; [successful] is a count. *)
Record IndexResponse := { _id : string; _shards_successful : option Z }.

Inductive Request : Type -> Type :=
| indices_exists (index : string) : Request bool
| indices_delete (index : string) : Request unit
| indices_create (index : string) (body : value) : Request CreateResponse
| index_document (index : string) (body : value) (refresh : bool) : Request IndexResponse
| delete_document (index : string) (id : string) (refresh : bool) : Request unit
| client_close : Request unit
| readFileSync (path : string) : Request string
| Date_toISOString : Request string.

Inductive Level := log | error.

Inductive Prog (A : Type) : Type :=
| Ret (a : A)
| Raise (e : Exn)
| Console (level : Level) (line : string) (detail : option Exn) (k : Prog A)
| Ask {R : Type} (req : Request R) (k : Completion Exn R -> Prog A).
Arguments Ret {A} a.
Arguments Raise {A} e.
Arguments Console {A} level line detail k.
Arguments Ask {A R} req k.

Fixpoint bind {A B} (p : Prog A) (f : A -> Prog B) : Prog B :=
  match p with
  | Ret a => f a
  | Raise e => Raise e
  | Console l s d k => Console l s d (bind k f)
  | Ask req k => Ask req (fun c => bind (k c) f)
  end.

(** [try { p } catch (error) { handler error }] *)
Fixpoint try_catch {A} (p : Prog A) (handler : Exn -> Prog A) : Prog A :=
  match p with
  | Ret a => Ret a
  | Raise e => handler e
  | Console l s d k => Console l s d (try_catch k handler)
  | Ask req k => Ask req (fun c => try_catch (k c) handler)
  end.

(** [await request], also used for the synchronous calls that may throw. *)
Definition await {R} (req : Request R) : Prog R :=
  Ask req (fun c => match c with Return r => Ret r | Throw e => Raise e end).

Definition console_log (line : string) : Prog unit := Console log line None (Ret tt).

Definition console_error (line : string) (e : Exn) : Prog unit :=
  Console error line (Some e) (Ret tt).

Definition lift {A} (c : Completion Exn A) : Prog A :=
  match c with Return a => Ret a | Throw e => Raise e end.

#[export] Instance Prog_bind : MBind Prog := fun A B f p => bind p f.
#[export] Instance Prog_ret : MRet Prog := fun A a => Ret a.

(** [try { p } finally { f }] *)
Fixpoint try_finally {A} (p : Prog A) (f : Prog unit) : Prog A :=
  match p with
  | Ret a => f ;; Ret a
  | Raise e => f ;; Raise e
  | Console l s d k => Console l s d (try_finally k f)
  | Ask req k => Ask req (fun c => try_finally (k c) f)
  end.

(** The configuration handed to [new Client(...)]. *)
Inductive ClientOptions :=
| cloud_client (id : value) (apiKey : value)
| node_client (node : value) (username password : value).

Definition createElasticClient (env : value) : ClientOptions :=
  let es := prop "elasticsearch" env in
  match prop "type" es with
  | VString "cloud" => cloud_client (prop "cloudId" es) (prop "apiKey" es)
  | _ => node_client (prop "node" es) (prop "username" es) (prop "password" es)
  end.

Record ElasticIndexInitializer := { env : value; client : ClientOptions }.

(** [this.env.elasticsearch.index], a string by the schema's default. *)
Definition env_index (this : ElasticIndexInitializer) : string :=
  match prop "index" (prop "elasticsearch" (env this)) with
  | VString s => s
  | _ => ""
  end.

Section Methods.

(** [JSON.parse], [String(error)] inside a template literal, and the
    default mapping path [join(__dirname, '../../../data/mappings/...')]. *)
Variable JSON_parse : string -> Completion Exn value.
Variable render : Exn -> string.
Variable default_mapping_path : string.
Variable is_url : string -> bool.

Definition new_ElasticIndexInitializer (process_env : gmap string string)
  : Completion Exn ElasticIndexInitializer :=
  match Env.validateAgentEnvironment is_url process_env with
  | Throw e => Throw e
  | Return env => Return {| env := env; client := createElasticClient env |}
  end.

Variable this : ElasticIndexInitializer.

Definition loadIndexMapping (mappingPath : string) : Prog value :=
  try_catch
    (mappingContent ← await (readFileSync mappingPath);
     mapping ← lift (JSON_parse mappingContent);
     (* Validate the mapping structure *)
     validatedRequest ← lift (Env.parse_or_throw ElasticIndex.IndexCreationRequestSchema
                                (VObject [ ("index", VString (env_index this));
                                           ("mapping", mapping) ]));
     Ret (prop "mapping" validatedRequest))
    (fun error =>
       Raise (Error ("Failed to load index mapping from " ++ mappingPath ++ ": "
                     ++ render error))).

Definition checkIndexExists (indexName : string) : Prog bool :=
  try_catch
    (response ← await (indices_exists indexName);
     Ret response)
    (fun error =>
       console_error ("Error checking if index " ++ indexName ++ " exists:") error ;;
       Ret false).

Definition deleteIndex (indexName : string) : Prog unit :=
  try_catch
    (await (indices_delete indexName) ;;
     console_log ("Index " ++ indexName ++ " deleted successfully"))
    (fun error =>
       console_error ("Error deleting index " ++ indexName ++ ":") error ;;
       Raise error).

Definition createIndex (indexName : string) (mapping : value) : Prog unit :=
  try_catch
    (response ← await (indices_create indexName mapping);
     if acknowledged response
     then console_log ("Index " ++ indexName ++ " created successfully")
     else Raise (Error ("Index creation not acknowledged for " ++ indexName)))
    (fun error =>
       console_error ("Error creating index " ++ indexName ++ ":") error ;;
       Raise error).

Definition successful_write (response : IndexResponse) : bool :=
  match _shards_successful response with
  | Some n => negb (Z.eqb n 0) && Z.ltb 0 n
  | None => false
  end.

Definition testIndexWrite (indexName : string) : Prog unit :=
  try_catch
    (now ← await Date_toISOString;
     let testDocument :=
       VObject [ ("@timestamp", VString now);
                 ("service", VObject [("name", VString "test")]);
                 ("event", VObject [("action", VString "config_change")]);
                 ("message", VString "Test document for index validation");
                 ("trace_id", VString "test-init-001") ] in
     response ← await (index_document indexName testDocument true);
     if successful_write response
     then
       console_log ("Test write to " ++ indexName ++ " successful") ;;
       (* Clean up the test document *)
       await (delete_document indexName (_id response) true) ;;
       console_log "Test document cleaned up"
     else Raise (Error ("Test write to " ++ indexName ++ " failed")))
    (fun error =>
       console_error ("Error testing index write to " ++ indexName ++ ":") error ;;
       Raise error).

(** [options.indexName || this.env.elasticsearch.index] *)
Definition target_index (options : IndexInitOptions) : string :=
  match indexName options with
  | Some s => if String.eqb s "" then env_index this else s
  | None => env_index this
  end.

Definition initializeIndex (options : IndexInitOptions) : Prog unit :=
  let indexName := target_index options in
  let mappingPath :=
    match mappingPath options with
    | Some s => if String.eqb s "" then default_mapping_path else s
    | None => default_mapping_path
    end in
  let recreate :=
    match recreate options with Some b => b | None => false end in
  console_log ("Initializing Elasticsearch index: " ++ indexName) ;;
  console_log ("Using mapping from: " ++ mappingPath) ;;
  try_catch
    ((* Check if index already exists *)
     exists_ ← checkIndexExists indexName;
     let rest : Prog unit :=
       (* Load and validate mapping *)
       mapping ← loadIndexMapping mappingPath;
       (* Create the index *)
       createIndex indexName mapping ;;
       (* Test that writes work *)
       testIndexWrite indexName ;;
       console_log ("Index initialization completed successfully for " ++ indexName) in
     if exists_ && recreate then
       console_log ("Index " ++ indexName ++ " exists and recreate=true, deleting...") ;;
       deleteIndex indexName ;;
       rest
     else if exists_ then
       console_log ("Index " ++ indexName ++ " already exists, skipping creation")
     else rest)
    (fun error =>
       console_error ("Index initialization failed for " ++ indexName ++ ":") error ;;
       Raise error).

Definition close : Prog unit := await client_close.

End Methods.

(** *** Running a method against a client

    The outside world answers each request and moves on; the run keeps
    the requests issued and the lines printed, in order. *)
Inductive Event :=
| Requested {R : Type} (req : Request R)
| Printed (level : Level) (line : string) (detail : option Exn).

Section Run.

Variable World : Type.
Variable respond : forall R, Request R -> World -> Completion Exn R * World.

Fixpoint run {A} (p : Prog A) (w : World) : Completion Exn A * World * list Event :=
  match p with
  | Ret a => (Return a, w, [])
  | Raise e => (Throw e, w, [])
  | Console l s d k =>
      let '(c, w', t) := run k w in (c, w', Printed l s d :: t)
  | Ask req k =>
      let '(answer, w1) := respond _ req w in
      let '(c, w', t) := run (k answer) w1 in
      (c, w', Requested req :: t)
  end.

End Run.

(** Requests that change what the store holds. *)
Definition mutating (e : Event) : bool :=
  match e with
  | Requested (indices_delete _) => true
  | Requested (indices_create _ _) => true
  | Requested (index_document _ _ _) => true
  | Requested (delete_document _ _ _) => true
  | _ => false
  end.

(** A client for examples: every index exists and every request succeeds;
    the world counts the mutating requests carried out. *)
Definition obliging (R : Type) (req : Request R) (w : nat) : Completion Exn R * nat :=
  match req in Request R return Completion Exn R * nat with
  | indices_exists _ => (Return true, w)
  | indices_delete _ => (Return tt, S w)
  | indices_create _ _ => (Return {| acknowledged := true |}, S w)
  | index_document _ _ _ => (Return {| _id := "doc-1"; _shards_successful := Some 1%Z |}, S w)
  | delete_document _ _ _ => (Return tt, S w)
  | client_close => (Return tt, w)
  | readFileSync _ => (Return "{}", w)
  | Date_toISOString => (Return "2025-09-18T10:00:00.000Z", w)
  end.


(** A client for examples: the store cannot be reached. *)
Definition unreachable (R : Type) (req : Request R) (w : nat) : Completion Exn R * nat :=
  (Throw (Error "connect ECONNREFUSED"), w).

Definition sample_initializer : ElasticIndexInitializer :=
  {| env := VObject [("elasticsearch",
                      VObject [("type", VString "cloud");
                               ("cloudId", VString "deployment:abc");
                               ("apiKey", VString "secret");
                               ("index", VString "causalops-logs")])];
     client := cloud_client (VString "deployment:abc") (VString "secret") |}.

Definition requests (t : list Event) : list Event :=
  List.filter (fun e => match e with Requested _ => true | Printed _ _ _ => false end) t.

(** CLI utility function for use in ingestor scripts:
    [try { await initializer.initializeIndex(options) } finally { await initializer.close() }] *)
Definition initializeElasticIndex
    (JSON_parse : string -> Completion Exn value) (render : Exn -> string)
    (default_mapping_path : string) (is_url : string -> bool)
    (process_env : gmap string string) (options : IndexInitOptions) : Prog unit :=
  match new_ElasticIndexInitializer is_url process_env with
  | Throw e => Raise e
  | Return initializer =>
      try_finally
        (initializeIndex JSON_parse render default_mapping_path initializer options)
        close
  end.

End ElasticClient.

(** ** packages/eql/src/index.ts *)
Module Eql.

Definition EQL_PATTERNS : list (string * string) :=
  [ ("CONFIG_CHANGE", "config_change.eql");
    ("DB_POOL_EXHAUSTION", "db_pool_exhaustion.eql");
    ("LATENCY_HOTSPOT", "latency_hotspot.eql") ].

End Eql.

(** ** apps/agent/src/index.ts

    The module as it runs: what it prints, which handlers it installs and
    what it exports.  A template literal is kept as its chunks. *)
Module Agent.
Import JS.

Inductive Chunk := text (s : string) | subst (v : value).

Inductive Action :=
| console_log (line : list Chunk)
| process_on (signal : string) (handler : list Action)
| process_exit (code : Z).

(** [env] is the validated agent environment imported from [./env.js]. *)
Definition main (env : value) : list Action :=
  [ console_log [text "🚀 CausalOps Agent starting..."];
    console_log [text "📊 Environment: "; subst (prop "NODE_ENV" env)];
    console_log [text "🔌 Port: "; subst (prop "AGENT_PORT" env)];
    console_log [text "📁 Elasticsearch: "; subst (prop "type" (prop "elasticsearch" env));
                 text " (index: "; subst (prop "index" (prop "elasticsearch" env)); text ")"];
    console_log [text "☁️  Vertex AI Project: "; subst (prop "GCP_PROJECT_ID" env)];
    (* COP-2.1 will implement Express server here *)
    console_log [text "✅ Agent environment loaded - Coming in COP-2.1"];
    (* Keep process alive for now *)
    process_on "SIGTERM"
      [ console_log [text "👋 Agent shutting down..."];
        process_exit 0 ] ].

(** The module has no [export]. *)
Definition exports : list string := [].






End Agent.

(** ** What the modules of the program export

    The value exports of every module, by its [export] statements. *)
Module Program.

Definition exports : list (string * list string) :=
  [ ("packages/shared/src/env.ts",
     [ "baseEnvSchema"; "elasticCloudSchema"; "elasticLocalSchema"; "vertexAISchema";
       "agentEnvSchema"; "webEnvSchema"; "validateAgentEnvironment";
       "validateWebEnvironment" ]);
    ("packages/shared/src/startup.ts",
     [ "EnvironmentValidationError"; "createEnvironmentValidator" ]);
    ("packages/shared/src/elastic-index.ts",
     [ "EventActionSchema"; "LabelsSchema"; "MetricsSchema"; "ServiceSchema";
       "EventSchema"; "LogDocumentSchema"; "BulkIndexRequestSchema";
       "IndexCreationRequestSchema"; "sampleLogDocument" ]);
    ("packages/shared/src/elastic-client.ts",
     [ "ElasticIndexInitializer"; "initializeElasticIndex"; "default" ]);
    ("packages/shared/src/index.ts",
     [ "CAUSAL_OPS_VERSION"; "DEFAULT_TIMEOUT"; "validateAgentEnvironment";
       "validateWebEnvironment"; "createEnvironmentValidator";
       "EnvironmentValidationError"; "EventActionSchema"; "LabelsSchema";
       "MetricsSchema"; "ServiceSchema"; "EventSchema"; "LogDocumentSchema";
       "BulkIndexRequestSchema"; "IndexCreationRequestSchema"; "sampleLogDocument";
       "ElasticIndexInitializer"; "initializeElasticIndex" ]);
    ("packages/eql/src/index.ts", [ "EQL_PATTERNS" ]);
    ("apps/agent/src/env.ts", [ "validateEnv"; "env" ]);
    ("apps/agent/src/index.ts", Agent.exports);
    ("apps/web/src/env.ts", [ "validateEnv"; "env" ]);
    ("apps/web/src/app/page.tsx", [ "default" ]);
    ("apps/web/src/app/layout.tsx", [ "default"; "metadata" ]);
    ("apps/ingestor/src/index-init.ts", [ "main"; "default" ]) ].


End Program.

(** ** The diagnosis pipeline of the design documents

    The repository holds the design of the pipeline (evidence assembly,
    schema validation, causal-graph synthesis) but none of its code; the
    definitions of this module are written from the specification. *)
Module Pipeline.
Import JS.

Inductive Result (A E : Type) :=
| Ok (a : A)
| Err (e : E).
Arguments Ok {A E} a.
Arguments Err {A E} e.

(** *** Data model *)

(** Modelled from the spec: the event action, "enum, closed set fixed by the
    named patterns"; no pipeline data type exists in the sources. *)
Inductive EventAction := config_change | db_pool_low | latency_spike.

Definition action_name (a : EventAction) : string :=
  match a with
  | config_change => "config_change"
  | db_pool_low => "db_pool_low"
  | latency_spike => "latency_spike"
  end.

Definition action_eqb (a b : EventAction) : bool :=
  String.eqb (action_name a) (action_name b).

(** Modelled from the spec: the values of the label and metric maps, "open
    key sets, scalar values only". *)
Inductive Scalar := SStr (s : string) | SNum (n : number) | SBool (b : bool).

(** Modelled from the spec: one event as the store holds it, "timestamp,
    service name, event action, free-text message, optional trace
    identifier, optional label/metric maps"; timestamps are instants on one
    time line. *)
Record Document := {
  documentId : string;
  timestamp : Z;
  service_name : string;
  action : EventAction;
  message : string;
  trace_id : option string;
  labels : list (string * Scalar);
  metrics : list (string * Scalar)
}.

(** Modelled from the spec: an EventHit, the event with the deep-link
    identifier the assembler attaches for citation. *)
Record EventHit := { event : Document; deepLinkId : string }.

(** Modelled from the spec: "the resolved time window {from, to}". *)
Record Window := { from : Z; to : Z }.

(** Modelled from the spec: what a bundle holds for one pattern,
    "{patternName, hits: ordered sequence of EventHit}". *)
Record PatternEvidence := { patternName : string; hits : list EventHit }.

(** Modelled from the spec: the EvidenceBundle, "named mapping from pattern
    name to {patternName, hits}, plus the resolved time window"; the
    patterns are kept in their fixed order. *)
Record EvidenceBundle := {
  window : Window;
  evidence : list (string * PatternEvidence)
}.

(** Modelled from the spec: the confidence label, "high|medium|low". *)
Inductive Confidence := high | medium | low.

(** Modelled from the spec: the GraphNode, "{id: string, label: string}". *)
Record GraphNode := { id : string; label : string }.

(** Modelled from the spec: the GraphEdge, "{from: NodeId, to: NodeId,
    evidenceIds: set of string, confidence}". *)
Record GraphEdge := {
  edge_from : string;
  edge_to : string;
  evidenceIds : list string;
  confidence : Confidence
}.

(** Modelled from the spec: the CausalGraph, "{nodes, edges}, optionally
    annotated with a missingSignals note". *)
Record CausalGraph := {
  nodes : list GraphNode;
  edges : list GraphEdge;
  missingSignals : option string
}.

(** Modelled from the spec: the RunbookStep, "{title, command, rationale,
    requiresConfirmation: bool, confidence}". *)
Record RunbookStep := {
  title : string;
  command : string;
  rationale : string;
  requiresConfirmation : bool;
  step_confidence : Confidence
}.

(** Modelled from the spec: the RunbookPlan, "{summary, steps: ordered
    sequence of RunbookStep}". *)
Record RunbookPlan := { summary : string; steps : list RunbookStep }.

(** *** Evidence Store Adapter and Evidence Assembler *)

(** Modelled from the spec: the adapter's failures, "StoreUnavailable on
    connection/auth failure, QueryError on malformed pattern". *)
Inductive StoreError := StoreUnavailable | QueryError.

(** Modelled from the spec: the window as "a hard filter" on the hits. *)
Definition in_window (w : Window) (d : Document) : bool :=
  Z.leb (from w) (timestamp d) && Z.leb (timestamp d) (to w).

(** Modelled from the spec: "derived deterministically from (storeIndex,
    documentId)". *)
Definition deep_link (storeIndex : string) (d : Document) : string :=
  storeIndex ++ "/" ++ documentId d.

(** Modelled from the spec: the identifier is "attached to each hit for
    downstream citation". *)
Definition attach (storeIndex : string) (d : Document) : EventHit :=
  {| event := d; deepLinkId := deep_link storeIndex d |}.

(** Modelled from the spec: "default 10 minutes if unspecified"; instants
    are counted in milliseconds. *)
Definition default_window_minutes : Z := 10.

Definition resolve_window (now : Z) (minutes : option Z) : Window :=
  let m := match minutes with Some m => m | None => default_window_minutes end in
  {| from := now - m * 60000; to := now |}.

Section Assembly.

(** The event store behind the adapter, the fixed set of pattern names and
    the per-pattern cap on hits. *)
Variable store : string -> string -> Window -> Result (list Document) StoreError.
Variable patterns : list string.
Variable max_hits : nat.

(** Modelled from the spec: (section 4.1) "query(patternName, window) -> ordered
    sequence of EventHit, capped at a configurable maximum hit count per
    pattern"; the window is applied as a hard filter; the adapter fails
    with the store's error. *)
Definition query (storeIndex patternName : string) (w : Window)
  : Result (list Document) StoreError :=
  match store storeIndex patternName w with
  | Ok docs => Ok (firstn max_hits (List.filter (in_window w) docs))
  | Err e => Err e
  end.

(** Modelled from the spec: (section 4.2) one query per pattern, merged into a
    bundle; "if one pattern's query fails, the assembler returns the bundle
    with that pattern mapped to an empty hit list".  The queries do not
    depend on each other, so the order in which they complete does not
    show in the bundle. *)
Definition hits_for (storeIndex : string) (w : Window) (patternName : string)
  : list EventHit :=
  match query storeIndex patternName w with
  | Ok docs => List.map (attach storeIndex) docs
  | Err _ => []
  end.

Definition assemble (storeIndex : string) (w : Window) : EvidenceBundle :=
  {| window := w;
     evidence :=
       List.map (fun p => (p, {| patternName := p; hits := hits_for storeIndex w p |}))
                patterns |}.

End Assembly.

(** Modelled from the spec: the bundle read as a mapping, the hit list it
    holds for a pattern name. *)
Fixpoint bundle_hits (patternName : string) (ev : list (string * PatternEvidence))
  : option (list EventHit) :=
  match ev with
  | [] => None
  | (p, pe) :: rest =>
      if String.eqb p patternName then Some (hits pe) else bundle_hits patternName rest
  end.

(** Modelled from the spec: the hits of all patterns, in the order of the
    bundle. *)
Definition all_hits (b : EvidenceBundle) : list EventHit :=
  flat_map (fun '(_, pe) => hits pe) (evidence b).

(** Modelled from the spec: "total evidence across all patterns is empty". *)
Definition evidence_empty (b : EvidenceBundle) : bool :=
  forallb (fun '(_, pe) => match hits pe with [] => true | _ => false end) (evidence b).

(** *** Schema Validator *)

(** Modelled from the spec: the two schema kinds, "graph schema or runbook
    schema". *)
Inductive SchemaKind := GraphSchema | RunbookSchema.

(** Modelled from the spec: (section 4.3, 9) a declared schema tree against which a
    generic JSON value is checked by a tagged-variant traversal. *)
Inductive Schema :=
| SString
| SNumber
| SBoolean
| SEnum (allowed : list string)
| SArray (items : Schema) (cap : option nat)
| SObject (fields : list (string * bool * Schema)).

Inductive Seg := Field (name : string) | Item (index : nat).

(** Modelled from the spec: "A Violation carries a field path and a
    human-readable reason". *)
Record Violation := { path : list Seg; reason : string }.

Definition violation (p : list Seg) (r : string) : Violation :=
  {| path := p; reason := r |}.

Definition over_cap (cap : option nat) (n : nat) : bool :=
  match cap with Some c => Nat.ltb c n | None => false end.

(** Modelled from the spec: the traversal of the validator; it lists the
    violations of a value against a schema, none meaning that it conforms.
    It rejects "missing required fields, wrong primitive types, enum values
    outside the declared set, array-length caps exceeded" and converts
    nothing. *)
Fixpoint violations (s : Schema) (p : list Seg) (v : value) {struct s} : list Violation :=
  match s with
  | SString =>
      match v with
      | VString _ => []
      | _ => [violation p "expected a string"]
      end
  | SNumber =>
      match v with
      | VNumber _ => []
      | _ => [violation p "expected a number"]
      end
  | SBoolean =>
      match v with
      | VBool _ => []
      | _ => [violation p "expected a boolean"]
      end
  | SEnum allowed =>
      match v with
      | VString x =>
          if existsb (String.eqb x) allowed then []
          else [violation p "value outside the declared set"]
      | _ => [violation p "expected a string"]
      end
  | SArray items cap =>
      match v with
      | VArray xs =>
          (if over_cap cap (List.length xs)
           then [violation p "array longer than its cap"] else [])
          ++ List.concat (imap (fun i x => violations items (p ++ [Item i]) x) xs)
      | _ => [violation p "expected an array"]
      end
  | SObject fields =>
      match v with
      | VObject fs =>
          flat_map
            (fun '(name, required, s') =>
               if has_key name fs then violations s' (p ++ [Field name]) (get name fs)
               else if (required : bool) then [violation (p ++ [Field name]) "required field is missing"]
               else [])
            fields
      | _ => [violation p "expected an object"]
      end
  end.

Definition confidence_schema : Schema := SEnum ["high"; "medium"; "low"].

(** Modelled from the spec: the graph schema, with the fields of GraphNode,
    GraphEdge and CausalGraph of the data model (only [missingSignals] is
    optional) and the caps "nodes > 8, edges > 10" as array bounds. *)
Definition node_schema : Schema :=
  SObject [("id", true, SString); ("label", true, SString)].

Definition edge_schema : Schema :=
  SObject [ ("from", true, SString);
            ("to", true, SString);
            ("evidenceIds", true, SArray SString None);
            ("confidence", true, confidence_schema) ].

Definition graph_schema : Schema :=
  SObject
    [ ("nodes", true, SArray node_schema (Some 8));
      ("edges", true, SArray edge_schema (Some 10));
      ("missingSignals", false, SString) ].

(** Modelled from the spec: the runbook schema, with the fields of
    RunbookStep and RunbookPlan of the data model and the cap "runbook
    steps > 6". *)
Definition step_schema : Schema :=
  SObject [ ("title", true, SString);
            ("command", true, SString);
            ("rationale", true, SString);
            ("requiresConfirmation", true, SBoolean);
            ("confidence", true, confidence_schema) ].

Definition runbook_schema : Schema :=
  SObject
    [ ("summary", true, SString);
      ("steps", true, SArray step_schema (Some 6)) ].

Definition schema_of (kind : SchemaKind) : Schema :=
  match kind with
  | GraphSchema => graph_schema
  | RunbookSchema => runbook_schema
  end.

(** Modelled from the spec: the TypedValue side of the validator's result;
    a conforming value is read into the typed structure field by field and
    as it is. *)
Definition as_string (v : value) : option string :=
  match v with VString s => Some s | _ => None end.

Definition as_bool (v : value) : option bool :=
  match v with VBool b => Some b | _ => None end.

Definition as_confidence (v : value) : option Confidence :=
  match v with
  | VString "high" => Some high
  | VString "medium" => Some medium
  | VString "low" => Some low
  | _ => None
  end.

Definition as_list {A} (f : value -> option A) (v : value) : option (list A) :=
  match v with VArray xs => mapM f xs | _ => None end.

Definition as_node (v : value) : option GraphNode :=
  i ← as_string (prop "id" v);
  l ← as_string (prop "label" v);
  Some {| id := i; label := l |}.

Definition as_edge (v : value) : option GraphEdge :=
  f ← as_string (prop "from" v);
  t ← as_string (prop "to" v);
  ids ← as_list as_string (prop "evidenceIds" v);
  c ← as_confidence (prop "confidence" v);
  Some {| edge_from := f; edge_to := t; evidenceIds := ids; confidence := c |}.

Definition as_graph (v : value) : option CausalGraph :=
  ns ← as_list as_node (prop "nodes" v);
  es ← as_list as_edge (prop "edges" v);
  note ← match prop "missingSignals" v with
         | VUndefined => Some None
         | x => Some <$> as_string x
         end;
  Some {| nodes := ns; edges := es; missingSignals := note |}.

Definition as_step (v : value) : option RunbookStep :=
  t ← as_string (prop "title" v);
  c ← as_string (prop "command" v);
  r ← as_string (prop "rationale" v);
  q ← as_bool (prop "requiresConfirmation" v);
  k ← as_confidence (prop "confidence" v);
  Some {| title := t; command := c; rationale := r;
          requiresConfirmation := q; step_confidence := k |}.

Definition as_plan (v : value) : option RunbookPlan :=
  s ← as_string (prop "summary" v);
  ss ← as_list as_step (prop "steps" v);
  Some {| summary := s; steps := ss |}.

Inductive TypedValue :=
| TGraph (g : CausalGraph)
| TRunbook (p : RunbookPlan).

Definition typed (kind : SchemaKind) (v : value) : option TypedValue :=
  match kind with
  | GraphSchema => TGraph <$> as_graph v
  | RunbookSchema => TRunbook <$> as_plan v
  end.

(** Modelled from the spec: (section 4.3) "validate(rawValue, schemaKind) ->
    Result<TypedValue, list of Violation>", one validator for both kinds. *)
Definition validate (rawValue : value) (kind : SchemaKind)
  : Result TypedValue (list Violation) :=
  match violations (schema_of kind) [] rawValue with
  | [] =>
      match typed kind rawValue with
      | Some t => Ok t
      | None => Err [violation [] "value does not read as the declared type"]
      end
  | vs => Err vs
  end.

(** *** The structural invariant of a causal graph *)

(** Modelled from the spec: "all edge endpoints resolve to declared
    nodes". *)
Definition node_ids (g : CausalGraph) : list string := List.map id (nodes g).

Definition mem (x : string) (l : list string) : bool := existsb (String.eqb x) l.

Definition endpoints_declared (g : CausalGraph) : bool :=
  forallb (fun e => mem (edge_from e) (node_ids g) && mem (edge_to e) (node_ids g))
          (edges g).

(** Modelled from the spec: one round of the topological sort; the nodes
    without a predecessor among the remaining ones are taken out. *)
Definition has_predecessor (es : list GraphEdge) (remaining : list string) (v : string)
  : bool :=
  existsb (fun e => String.eqb (edge_to e) v && mem (edge_from e) remaining) es.

Definition peel (es : list GraphEdge) (remaining : list string) : list string :=
  List.filter (has_predecessor es remaining) remaining.

Fixpoint peel_rounds (n : nat) (es : list GraphEdge) (remaining : list string)
  : list string :=
  match n with
  | O => remaining
  | S n' => peel_rounds n' es (peel es remaining)
  end.

(** Modelled from the spec: (section 9) "a small topological-sort/visited-set
    algorithm"; the graph passes when every node is sorted out within as
    many rounds as there are nodes. *)
Definition acyclic_check (g : CausalGraph) : bool :=
  match peel_rounds (List.length (nodes g)) (edges g) (node_ids g) with
  | [] => true
  | _ => false
  end.

(** Modelled from the spec: an InvariantViolation is "treated identically
    to SchemaViolation", so the invariant reports violations too. *)
Definition invariant_violations (g : CausalGraph) : list Violation :=
  (if endpoints_declared g then []
   else [violation [Field "edges"] "edge endpoint is not a declared node"])
  ++ (if acyclic_check g then []
      else [violation [Field "edges"] "edges form a cycle"]).

(** Modelled from the spec: (section 4.4, Validating) the Schema Validator, then
    "the DAG invariant (no cycles, all edge endpoints resolve to declared
    nodes)"; an invariant violation is treated as a schema violation. *)
Definition check_graph (rawValue : value) : Result CausalGraph (list Violation) :=
  match validate rawValue GraphSchema with
  | Ok (TGraph g) =>
      match invariant_violations g with
      | [] => Ok g
      | vs => Err vs
      end
  | Ok (TRunbook _) => Err [violation [] "not a graph"]
  | Err vs => Err vs
  end.

(** *** Causal Graph Synthesizer *)

(** Modelled from the spec: the "distinct event actions present in
    evidence", in order of first appearance. *)
Fixpoint distinct_actions (seen : list EventAction) (hs : list EventHit)
  : list EventAction :=
  match hs with
  | [] => []
  | h :: rest =>
      let a := action (event h) in
      if existsb (action_eqb a) seen then distinct_actions seen rest
      else a :: distinct_actions (a :: seen) rest
  end.

Definition missing_signals_note : string :=
  "evidence too sparse to derive causal edges".

(** Modelled from the spec: (section 4.4, Fallback) "at most the top 1-3 nodes
    derived directly from distinct event actions present in evidence (no
    synthesized edges), annotated with a missingSignals note". *)
Definition minimal_graph (b : EvidenceBundle) : CausalGraph :=
  {| nodes :=
       List.map (fun a => {| id := action_name a; label := action_name a |})
                (firstn 3 (distinct_actions [] (all_hits b)));
     edges := [];
     missingSignals := Some missing_signals_note |}.

(** Modelled from the spec: the generation request, "the evidence bundle,
    the time window, and a fixed instruction set", the violation list "as
    corrective context" on a retry, the schema and the temperature. *)
Record GenerationRequest := {
  request_evidence : EvidenceBundle;
  request_window : Window;
  instructions : list string;
  corrective_context : list Violation;
  response_schema : Schema;
  temperature : Q
}.

(** Modelled from the spec: what the generative model interface answers,
    raw JSON whose conformance "is not guaranteed", or nothing when the
    model cannot be reached. *)
Inductive GenerationResponse :=
| RawJSON (v : value)
| Unavailable.

Inductive GenError := GenerationUnavailable.

(** Modelled from the spec: the states of the synthesizer's machine. *)
Inductive State := Idle | Requesting | Validating | Repairing | Accepted | Fallback.

(** Modelled from the spec: the machine with what each state holds. *)
Inductive Config :=
| AtIdle
| AtRequesting
| AtValidating (raw : value) (retried : bool)
| AtRepairing (found : list Violation)
| AtAccepted (g : CausalGraph)
| AtFallback.

Definition state_of (c : Config) : State :=
  match c with
  | AtIdle => Idle
  | AtRequesting => Requesting
  | AtValidating _ _ => Validating
  | AtRepairing _ => Repairing
  | AtAccepted _ => Accepted
  | AtFallback => Fallback
  end.

Inductive Next :=
| Goto (c : Config)
| Done (r : Result CausalGraph GenError).

Record Synthesis := {
  trace : list State;
  generator_calls : nat;
  outcome : option (Result CausalGraph GenError)
}.

(** Modelled from the spec: the "fixed instruction set" of a request. *)
Definition fixed_instructions : list string :=
  [ "build a DAG";
    "cite evidenceIds on every edge";
    "assign confidence per edge";
    "never invent nodes absent from evidence";
    "preserve chronological order";
    "deduplicate equivalent events" ].

Section Synthesizer.

(** The generative model: what it answers to its n-th request.  Two equal
    requests need not get equal answers. *)
Variable generator : nat -> GenerationRequest -> GenerationResponse.
Variable fixed_temperature : Q.

Definition request (b : EvidenceBundle) (found : list Violation) : GenerationRequest :=
  {| request_evidence := b;
     request_window := window b;
     instructions := fixed_instructions;
     corrective_context := found;
     response_schema := graph_schema;
     temperature := fixed_temperature |}.

(** Modelled from the spec: (section 4.4) "Idle -> Requesting -> Validating ->
    {Accepted | Repairing -> Validating | Fallback}", with one retry, the
    Fallback for empty evidence or a second invalid answer, and an
    unreachable generator surfaced as GenerationUnavailable.  [calls]
    counts the requests sent to the generator so far. *)
Definition step (b : EvidenceBundle) (calls : nat) (c : Config) : Next * nat :=
  match c with
  | AtIdle =>
      (Goto (if evidence_empty b then AtFallback else AtRequesting), calls)
  | AtRequesting =>
      match generator calls (request b []) with
      | RawJSON raw => (Goto (AtValidating raw false), S calls)
      | Unavailable => (Done (Err GenerationUnavailable), S calls)
      end
  | AtValidating raw retried =>
      match check_graph raw with
      | Ok g => (Goto (AtAccepted g), calls)
      | Err found => (Goto (if retried then AtFallback else AtRepairing found), calls)
      end
  | AtRepairing found =>
      match generator calls (request b found) with
      | RawJSON raw => (Goto (AtValidating raw true), S calls)
      | Unavailable => (Done (Err GenerationUnavailable), S calls)
      end
  | AtAccepted g => (Done (Ok g), calls)
  | AtFallback => (Done (Ok (minimal_graph b)), calls)
  end.

(** Modelled from the spec: the machine run from a state to its end; the
    run records the states it passes and the requests it sends. *)
Fixpoint drive (fuel : nat) (b : EvidenceBundle) (calls : nat) (c : Config)
  : Synthesis :=
  match fuel with
  | O => {| trace := []; generator_calls := calls; outcome := None |}
  | S fuel' =>
      match step b calls c with
      | (Done r, calls') =>
          {| trace := [state_of c]; generator_calls := calls'; outcome := Some r |}
      | (Goto c', calls') =>
          let s := drive fuel' b calls' c' in
          {| trace := state_of c :: trace s;
             generator_calls := generator_calls s;
             outcome := outcome s |}
      end
  end.

(** Modelled from the spec: graph synthesis, the machine started in Idle.
    Its longest run is Idle, Requesting, Validating, Repairing, Validating,
    Fallback. *)
Definition synthesize (b : EvidenceBundle) : Synthesis := drive 6 b 0 AtIdle.

(** *** Diagnosis entry point *)

Variable store : string -> string -> Window -> Result (list Document) StoreError.
Variable patterns : list string.
Variable max_hits : nat.
Variable now : Z.
Variable default_index : string.

Record Diagnosis := {
  timeframe : Window;
  diagnosis_evidence : EvidenceBundle;
  graph : CausalGraph
}.

(** Modelled from the spec: (section 6) "diagnose(window?, indexOverride?) ->
    {timeframe, evidence, graph}": the assembler, then the synthesizer. *)
Definition diagnose (window_minutes : option Z) (indexOverride : option string)
  : option (Result Diagnosis GenError) :=
  let w := resolve_window now window_minutes in
  let storeIndex := match indexOverride with Some i => i | None => default_index end in
  let b := assemble store patterns max_hits storeIndex w in
  match outcome (synthesize b) with
  | Some (Ok g) => Some (Ok {| timeframe := w; diagnosis_evidence := b; graph := g |})
  | Some (Err e) => Some (Err e)
  | None => None
  end.

End Synthesizer.

(** *** What the invariants and the validator's duties say *)

(** A directed path of one or more edges. *)
Inductive reaches (es : list GraphEdge) : string -> string -> Prop :=
| reach_edge e : In e es -> reaches es (edge_from e) (edge_to e)
| reach_step e v : In e es -> reaches es (edge_to e) v -> reaches es (edge_from e) v.

(** "the edge set contains no directed cycle" *)
Definition acyclic (es : list GraphEdge) : Prop := forall v, ~ reaches es v v.

Definition well_formed (g : CausalGraph) : Prop :=
  List.length (nodes g) <= 8
  /\ List.length (edges g) <= 10
  /\ (forall e, In e (edges g) ->
        In (edge_from e) (node_ids g) /\ In (edge_to e) (node_ids g))
  /\ acyclic (edges g).

(** The defects the validator must reject, wherever they sit in the value:
    a required field that is missing, a value of another primitive type
    than the declared one, an enum value outside the declared set, an
    array longer than its cap. *)
Inductive Defect : Schema -> value -> Prop :=
| missing_required fields fs name s :
    In (name, true, s) fields -> has_key name fs = false ->
    Defect (SObject fields) (VObject fs)
| not_a_string v : (forall s, v <> VString s) -> Defect SString v
| not_a_number v : (forall n, v <> VNumber n) -> Defect SNumber v
| not_a_boolean v : (forall b, v <> VBool b) -> Defect SBoolean v
| not_an_array items cap v : (forall xs, v <> VArray xs) -> Defect (SArray items cap) v
| not_an_object fields v : (forall fs, v <> VObject fs) -> Defect (SObject fields) v
| enum_not_a_string allowed v : (forall s, v <> VString s) -> Defect (SEnum allowed) v
| outside_enum allowed x : ~ In x allowed -> Defect (SEnum allowed) (VString x)
| over_the_cap items cap xs :
    cap < List.length xs -> Defect (SArray items (Some cap)) (VArray xs)
| in_field fields fs name required s :
    In (name, required, s) fields -> has_key name fs = true ->
    Defect s (get name fs) -> Defect (SObject fields) (VObject fs)
| in_item items cap xs x :
    In x xs -> Defect items x -> Defect (SArray items cap) (VArray xs).

(** Generator answers for examples: an edge without [confidence], and nine
    nodes. *)
Definition node_value (i : string) : value :=
  VObject [("id", VString i); ("label", VString i)].

Definition edge_missing_confidence : value :=
  VObject [ ("nodes", VArray [node_value "n1"; node_value "n2"]);
            ("edges", VArray [VObject [ ("from", VString "n1"); ("to", VString "n2");
                                        ("evidenceIds", VArray [VString "logs/1"]) ]]) ].

Definition nine_nodes : value :=
  VObject [ ("nodes", VArray (List.map node_value
                                ["n1"; "n2"; "n3"; "n4"; "n5"; "n6"; "n7"; "n8"; "n9"]));
            ("edges", VArray []) ].

(** The seeded scenario for examples: one hit per pattern, in the order
    config change, pool low, latency spike, and a generator answer that
    links them. *)
Definition seeded (patternName : string) : list Document :=
  let doc i t a m :=
    {| documentId := i; timestamp := t; service_name := "api"; action := a;
       message := m; trace_id := None; labels := []; metrics := [] |} in
  if String.eqb patternName "config_change.eql"
  then [doc "c-1" 1000%Z config_change "Config hash changed"]
  else if String.eqb patternName "db_pool_exhaustion.eql"
  then [doc "d-1" 2000%Z db_pool_low "DB pool low"]
  else if String.eqb patternName "latency_hotspot.eql"
  then [doc "l-1" 3000%Z latency_spike "Latency spike p95=980ms"]
  else [].

Definition seeded_store (storeIndex patternName : string) (w : Window)
  : Result (list Document) StoreError := Ok (seeded patternName).

(** The same store with the pool pattern's query failing. *)
Definition degraded_store (storeIndex patternName : string) (w : Window)
  : Result (list Document) StoreError :=
  if String.eqb patternName "db_pool_exhaustion.eql" then Err StoreUnavailable
  else Ok (seeded patternName).

Definition down_store (storeIndex patternName : string) (w : Window)
  : Result (list Document) StoreError := Err StoreUnavailable.

Definition edge_value (f t i : string) : value :=
  VObject [ ("from", VString f); ("to", VString t);
            ("evidenceIds", VArray [VString i]); ("confidence", VString "high") ].

Definition chain_answer : value :=
  VObject [ ("nodes", VArray [node_value "n1"; node_value "n2"; node_value "n3"]);
            ("edges", VArray [ edge_value "n1" "n2" "causalops-logs/c-1";
                               edge_value "n2" "n3" "causalops-logs/d-1" ]) ].

Definition chain_graph : CausalGraph :=
  {| nodes := [ {| id := "n1"; label := "n1" |}; {| id := "n2"; label := "n2" |};
                {| id := "n3"; label := "n3" |} ];
     edges := [ {| edge_from := "n1"; edge_to := "n2";
                   evidenceIds := ["causalops-logs/c-1"]; confidence := high |};
                {| edge_from := "n2"; edge_to := "n3";
                   evidenceIds := ["causalops-logs/d-1"]; confidence := high |} ];
     missingSignals := None |}.

(** A generator that answers with the chain, and one whose first answer
    lacks an edge's confidence. *)
Definition steady_generator (n : nat) (r : GenerationRequest) : GenerationResponse :=
  RawJSON chain_answer.

Definition stumbling_generator (n : nat) (r : GenerationRequest) : GenerationResponse :=
  match n with
  | O => RawJSON edge_missing_confidence
  | _ => RawJSON chain_answer
  end.

Definition pattern_files : list string := List.map snd Eql.EQL_PATTERNS.

(** The validator reports a violation rather than a typed value. *)
Definition rejected (r : Result TypedValue (list Violation)) : Prop :=
  exists vs, r = Err vs /\ vs <> [].

End Pipeline.

(** ** packages/shared/src/startup.ts *)
Module Startup.
Import JS Zod.
Local Open Scope string_scope.

Definition Exn := Env.Exn.

(** How a start-up routine ends: it returns, it throws, or the process
    exits with a status. *)
Inductive Outcome (A : Type) :=
| Returns (a : A)
| Throws (e : Exn)
| Exits (code : Z).
Arguments Returns {A} a.
Arguments Throws {A} e.
Arguments Exits {A} code.

(** A console line with its level. *)
Definition Line : Type := ElasticClient.Level * string.

Definition newline : string := String "010" "".

(** [String(segment)] of a path segment. *)
Definition segment (s : PathSeg) : string :=
  match s with
  | Key k => k
  | Index i => NilZero.string_of_uint (Nat.to_uint i)
  end.

(** [issue.path.join('.')] *)
Definition join (p : list PathSeg) : string :=
  String.concat "." (List.map segment p).

Section Validator.

(** [issue.message], the text zod gives an issue. *)
Variable message : ZodIssue -> string.

(** [createEnvironmentValidator(validatorFn, appName)()]: the lines printed
    and the way the call ends.  The validator functions passed in the
    sources print nothing themselves. *)
Definition createEnvironmentValidator {T : Type}
    (validatorFn : unit -> Completion Exn T) (appName : string) (_ : unit)
  : list Line * Outcome T :=
  let validating := (ElasticClient.log, "🔧 Validating " ++ appName ++ " environment...") in
  match validatorFn tt with
  | Return env =>
      ([validating;
        (ElasticClient.log, "✅ " ++ appName ++ " environment validation passed")],
       Returns env)
  | Throw (ZodError issues) =>
      let failed : Line :=
        (ElasticClient.error, "❌ " ++ appName ++ " environment validation failed:") in
      let per_issue (issue : ZodIssue) : Line :=
        (ElasticClient.error, "  " ++ join (path issue) ++ ": " ++ message issue) in
      let hint : Line :=
        (ElasticClient.error,
         newline ++ "💡 Check your .env file or environment variables") in
      (List.app [validating; failed] (List.app (List.map per_issue issues) [hint]),
       Exits 1)
  | Throw error => ([validating], Throws error)
  end.

End Validator.

End Startup.

(** ** apps/agent/src/env.ts and apps/web/src/env.ts

    [process.env] is taken as it is after [dotenv/config] has loaded the
    .env file. *)
Module AppEnv.
Import JS Zod Startup.

Section Apps.

Variable message : ZodIssue -> string.
Variable is_url : string -> bool.
Variable process_env : gmap string string.

(** apps/agent/src/env.ts *)
Definition agent_validateEnv : unit -> list Line * Outcome value :=
  createEnvironmentValidator message
    (fun _ => Env.validateAgentEnvironment is_url process_env) "Agent".

Definition agent_env : list Line * Outcome value := agent_validateEnv tt.

(** apps/web/src/env.ts *)
Definition web_validateEnv : unit -> list Line * Outcome value :=
  createEnvironmentValidator message
    (fun _ => Env.validateWebEnvironment is_url process_env) "Web".

Definition web_env : list Line * Outcome value := web_validateEnv tt.

End Apps.

End AppEnv.

(** ** apps/ingestor/src/index-init.ts *)
Module Ingestor.
Import JS Zod Startup.
Local Open Scope string_scope.

Record CliArgs := {
  recreate : option bool;
  index : option string;
  mapping : option string;
  help : option bool
}.

Definition no_args : CliArgs :=
  {| recreate := None; index := None; mapping := None; help := None |}.

(** The loop of [parseCliArgs] from position [i] on, [args] being what is
    left from there; an option's value is [args[++i]], that is the next
    argument whatever it looks like, or [undefined] at the end. *)
Fixpoint parse_from (args : list string) (parsed : CliArgs) : list Line * Outcome CliArgs :=
  match args with
  | [] => ([], Returns parsed)
  | arg :: rest =>
      if String.eqb arg "--recreate" then
        parse_from rest {| recreate := Some true; index := index parsed;
                           mapping := mapping parsed; help := help parsed |}
      else if String.eqb arg "--index" then
        match rest with
        | [] => ([], Returns {| recreate := recreate parsed; index := None;
                                mapping := mapping parsed; help := help parsed |})
        | v :: rest' =>
            parse_from rest' {| recreate := recreate parsed; index := Some v;
                                mapping := mapping parsed; help := help parsed |}
        end
      else if String.eqb arg "--mapping" then
        match rest with
        | [] => ([], Returns {| recreate := recreate parsed; index := index parsed;
                                mapping := None; help := help parsed |})
        | v :: rest' =>
            parse_from rest' {| recreate := recreate parsed; index := index parsed;
                                mapping := Some v; help := help parsed |}
        end
      else if String.eqb arg "--help" || String.eqb arg "-h" then
        parse_from rest {| recreate := recreate parsed; index := index parsed;
                           mapping := mapping parsed; help := Some true |}
      else
        ([(ElasticClient.error, "Unknown argument: " ++ arg)], Exits 1)
  end.

(** [parseCliArgs()], with [args = process.argv.slice(2)]. *)
Definition parseCliArgs (args : list string) : list Line * Outcome CliArgs :=
  parse_from args no_args.

Definition help_text : string :=
"
CausalOps Index Initializer

Usage: index-init [options]

Options:
  --recreate          Delete and recreate the index if it exists
  --index <name>      Specify the index name (defaults to ELASTIC_INDEX env var)
  --mapping <path>    Path to the mapping JSON file (defaults to data/mappings/elastic_index_mapping.json)
  --help, -h          Show this help message

Environment Variables:
  Either provide Elastic Cloud credentials:
    ELASTIC_CLOUD_ID      Your Elastic Cloud deployment ID
    ELASTIC_API_KEY       Your Elastic Cloud API key
    ELASTIC_INDEX         Index name (default: causalops-logs)

  Or provide local Elasticsearch credentials:
    ELASTIC_NODE          Elasticsearch node URL (default: http://localhost:9200)
    ELASTIC_USERNAME      Elasticsearch username (default: elastic)
    ELASTIC_PASSWORD      Elasticsearch password
    ELASTIC_INDEX         Index name (default: causalops-logs)

Examples:
  # Initialize index with default settings
  index-init

  # Recreate index if it exists
  index-init --recreate

  # Use custom index name
  index-init --index my-custom-logs

  # Use custom mapping file
  index-init --mapping ./custom-mapping.json
".

Definition printHelp : ElasticClient.Prog unit := ElasticClient.console_log help_text.

(** [haystack.includes(needle)] *)
Fixpoint includes (needle haystack : string) : bool :=
  String.prefix needle haystack
  || match haystack with
     | EmptyString => false
     | String _ rest => includes needle rest
     end.

(** [p; q] *)
Definition and_then {A} (p : ElasticClient.Prog unit) (q : ElasticClient.Prog A)
  : ElasticClient.Prog A :=
  ElasticClient.bind p (fun _ => q).

(** The lines a start-up step printed, put on the console. *)
Fixpoint replay {A} (lines : list Line) (k : ElasticClient.Prog A) : ElasticClient.Prog A :=
  match lines with
  | [] => k
  | (level, line) :: rest => ElasticClient.Console level line None (replay rest k)
  end.

Section Main.

(** [error.message] of a ZodError, zod's rendering of its issues, and the
    parameters of the shared package. *)
Variable zod_message : list ZodIssue -> string.
Variable message : ZodIssue -> string.
Variable JSON_parse : string -> Completion Exn value.
Variable render : Exn -> string.
Variable default_mapping_path : string.
Variable is_url : string -> bool.

Definition error_message (e : Exn) : string :=
  match e with
  | Error m => m
  | ZodError issues => zod_message issues
  end.

(** The [catch] block of [main]; everything thrown in the sources is an
    [Error]. *)
Definition report (error : Exn) : ElasticClient.Prog Z :=
  let say line k := ElasticClient.Console ElasticClient.error line None k in
  say "❌ Index initialization failed:"
    (say ("   " ++ error_message error)
       ((* Provide helpful hints for common errors *)
        if includes "ECONNREFUSED" (error_message error) then
          say (newline ++ "💡 Hint: Make sure Elasticsearch is running and accessible")
              (ElasticClient.Ret 1%Z)
        else if includes "authentication" (error_message error) then
          say (newline ++ "💡 Hint: Check your Elasticsearch credentials")
              (ElasticClient.Ret 1%Z)
        else if includes "environment" (error_message error) then
          say (newline ++ "💡 Hint: Check your environment variables (.env file)")
              (ElasticClient.Ret 1%Z)
        else ElasticClient.Ret 1%Z)).

(** [main()]: what the program returns is the status [process.exit] is
    called with. *)
Definition main (args : list string) (process_env : gmap string string)
  : ElasticClient.Prog Z :=
  ElasticClient.try_catch
    (match parseCliArgs args with
     | (lines, Exits code) => replay lines (ElasticClient.Ret code)
     | (lines, Throws e) => replay lines (ElasticClient.Raise e)
     | (lines, Returns args) =>
         replay lines
           (match help args with
            | Some true => and_then printHelp (ElasticClient.Ret 0%Z)
            | _ =>
                (* Validate environment *)
                match createEnvironmentValidator message
                        (fun _ => Env.validateAgentEnvironment is_url process_env)
                        "Ingestor" tt with
                | (lines, Exits code) => replay lines (ElasticClient.Ret code)
                | (lines, Throws e) => replay lines (ElasticClient.Raise e)
                | (lines, Returns _) =>
                    let options :=
                      {| ElasticClient.recreate := recreate args;
                         ElasticClient.indexName := index args;
                         ElasticClient.mappingPath := mapping args |} in
                    replay lines
                      (and_then
                         (ElasticClient.console_log
                            ("🔧 Initializing Elasticsearch index..." ++ newline))
                         (and_then
                            (ElasticClient.initializeElasticIndex JSON_parse render
                               default_mapping_path is_url process_env options)
                            (and_then
                               (ElasticClient.console_log
                                  "✅ Index initialization completed successfully!")
                               (ElasticClient.Ret 0%Z))))
                end
            end)
     end)
    report.

End Main.

(** A command line for given options: each option that is set, once. *)
Definition command_line (a : CliArgs) : list string :=
  ((match recreate a with Some true => ["--recreate"] | _ => [] end)
   ++ (match index a with Some v => ["--index"; v] | None => [] end)
   ++ (match mapping a with Some v => ["--mapping"; v] | None => [] end)
   ++ (match help a with Some true => ["--help"] | _ => [] end))%list.

(** Options as [parseCliArgs] builds them: a flag is [true] or absent. *)
Definition flags_only (a : CliArgs) : Prop :=
  recreate a <> Some false /\ help a <> Some false.

Definition known_flag (arg : string) : bool :=
  String.eqb arg "--recreate" || String.eqb arg "--index" || String.eqb arg "--mapping"
  || String.eqb arg "--help" || String.eqb arg "-h".

End Ingestor.

(** ** What the environment schemas ask of [process.env] *)
Module EnvRules.
Import JS.

(** A variable that is unset, or set to a string with the property. *)
Definition unset_or (P : string -> Prop) (env : gmap string string) (name : string) : Prop :=
  match env !! name with
  | Some s => P s
  | None => True
  end.

(** A variable's string, or the default when it is unset. *)
Definition or_default (env : gmap string string) (name d : string) : string :=
  match env !! name with
  | Some s => s
  | None => d
  end.

Definition node_envs : list string := ["development"; "production"; "test"].

Definition agent_schema_ok (is_url : string -> bool) (env : gmap string string) : Prop :=
  unset_or (fun s => In s node_envs) env "NODE_ENV"
  /\ env !! "AGENT_PORT" = None
  /\ Env.set_nonempty env "GCP_PROJECT_ID"
  /\ unset_or (fun u => is_url u = true) env "ELASTIC_NODE".

Definition web_schema_ok (is_url : string -> bool) (env : gmap string string) : Prop :=
  unset_or (fun s => In s node_envs) env "NODE_ENV"
  /\ env !! "WEB_PORT" = None
  /\ unset_or (fun u => is_url u = true) env "NEXT_PUBLIC_AGENT_URL".

(** The names of the agent schema. *)
Definition agent_names : list string :=
  ["NODE_ENV"; "AGENT_PORT"; "GCP_PROJECT_ID"; "GOOGLE_APPLICATION_CREDENTIALS";
   "ELASTIC_CLOUD_ID"; "ELASTIC_API_KEY"; "ELASTIC_NODE"; "ELASTIC_USERNAME";
   "ELASTIC_PASSWORD"; "ELASTIC_INDEX"].

(** The optional string variables, which the schema hands through. *)
Definition optional_names : list string :=
  ["GOOGLE_APPLICATION_CREDENTIALS"; "ELASTIC_CLOUD_ID"; "ELASTIC_API_KEY";
   "ELASTIC_NODE"; "ELASTIC_USERNAME"; "ELASTIC_PASSWORD"].

End EnvRules.

(** ** What the schemas of elastic-index.ts accept *)
Module ElasticIndexRules.
Import JS.

(** Re-validation: what a schema accepted and handed out, it accepts again
    and hands out unchanged, wherever the value sits. *)
Definition stable (t : Zod.ZodType) : Prop :=
  forall p v d, t p v = Zod.OK d -> forall p', t p' d = Zod.OK d.

(** A schema that hands out what it accepts as it is, and accepts it
    wherever the value sits. *)
Definition transparent (t : Zod.ZodType) : Prop :=
  forall p v d, t p v = Zod.OK d -> d = v /\ forall p', t p' v = Zod.OK v.

Definition data_of (r : Zod.ParseResult) : value :=
  match r with
  | Zod.OK d => d
  | Zod.INVALID _ => VUndefined
  end.

(** A string whose [length] is at most [n]. *)
Definition short_string (n : nat) (v : value) : bool :=
  match v with
  | VString s => Nat.leb (JS.length s) n
  | _ => false
  end.

(** Absent, or with the property. *)
Definition absent_or (f : value -> bool) (v : value) : bool :=
  match v with
  | VUndefined => true
  | _ => f v
  end.

(** An object all of whose entries hold a value with the property. *)
Definition entries_all (f : value -> bool) (v : value) : bool :=
  match v with
  | VObject entries => forallb (fun kx => f (snd kx)) entries
  | _ => false
  end.

(** The documents [LogDocumentSchema] accepts. *)
Definition document_ok (is_datetime : string -> bool) (raw : value) : bool :=
  match raw with
  | VObject _ =>
      match prop "@timestamp" raw with VString t => is_datetime t | _ => false end
      && short_string 256 (prop "name" (prop "service" raw))
      && match prop "action" (prop "event" raw) with
         | VString a => Zod.mem a ElasticIndex.event_actions
         | _ => false
         end
      && short_string 1024 (prop "message" raw)
      && absent_or (short_string 256) (prop "trace_id" raw)
      && absent_or (entries_all ElasticIndex.label_value) (prop "labels" raw)
      && absent_or (entries_all ElasticIndex.metric_value) (prop "metrics" raw)
  | _ => false
  end.

(** The requests [BulkIndexRequestSchema] accepts. *)
Definition bulk_request_ok (is_datetime : string -> bool) (raw : value) : bool :=
  match raw with
  | VObject _ =>
      absent_or (fun v => match v with VString _ => true | _ => false end) (prop "index" raw)
      && match prop "documents" raw with
         | VArray docs =>
             negb (Nat.eqb (List.length docs) 0) && forallb (document_ok is_datetime) docs
         | _ => false
         end
  | _ => false
  end.

Definition document_keys : list string :=
  ["@timestamp"; "service"; "event"; "message"; "trace_id"; "labels"; "metrics"].

(** The top-level fields a document hands through as they are. *)
Definition plain_keys : list string := ["@timestamp"; "message"; "trace_id"].

(** The top-level fields that are maps. *)
Definition map_keys : list string := ["labels"; "metrics"].

(** The entries of an object that validation hands on: all but the one
    under [__proto__]. *)
Definition own_entries (entries : list (string * value)) : list (string * value) :=
  List.filter (fun kx => negb (String.eqb (fst kx) "__proto__")) entries.

Definition without_proto (v : value) : value :=
  match v with
  | VObject entries => VObject (own_entries entries)
  | _ => v
  end.

(** A setting, or its default when it is absent. *)
Definition setting_or (d : Z) (v : value) : value :=
  match v with
  | VUndefined => ElasticIndex.num d
  | _ => v
  end.

(** What is left of a mapping once validated. *)
Definition stripped_mapping (m : value) : value :=
  VObject
    [ ("settings",
       VObject
         [ ("number_of_shards", setting_or 1 (prop "number_of_shards" (prop "settings" m)));
           ("number_of_replicas",
            setting_or 1 (prop "number_of_replicas" (prop "settings" m))) ]);
      ("mappings",
       VObject [ ("properties", without_proto (prop "properties" (prop "mappings" m))) ]) ].

End ElasticIndexRules.

(** ** What the index initializer asks of its client *)
Module ElasticClientRules.
Import JS ElasticClient.

(** [Q] holds of the completion and of the trace of every run of [p],
    whatever the client answers. *)
Fixpoint every_run {A} (p : Prog A) (Q : Completion Exn A -> list Event -> Prop) : Prop :=
  match p with
  | Ret a => Q (Return a) []
  | Raise e => Q (Throw e) []
  | Console l s d k => every_run k (fun c t => Q c (Printed l s d :: t))
  | Ask req k =>
      forall answer, every_run (k answer) (fun c t => Q c (Requested req :: t))
  end.

(** The completion and the trace of a run. *)
Definition completion_of {A W} (r : Completion Exn A * W * list Event) : Completion Exn A :=
  fst (fst r).

Definition world_of {A W} (r : Completion Exn A * W * list Event) : W := snd (fst r).

Definition trace_of {A W} (r : Completion Exn A * W * list Event) : list Event := snd r.

Definition is_index_delete (e : Event) : bool :=
  match e with
  | Requested (indices_delete _) => true
  | _ => false
  end.


(** A request on the index [index] or a read of the file [path]; reading
    the clock and printing concern no index. *)
Definition concerns (index path : string) (e : Event) : bool :=
  match e with
  | Requested (indices_exists i) => String.eqb i index
  | Requested (indices_delete i) => String.eqb i index
  | Requested (indices_create i _) => String.eqb i index
  | Requested (index_document i _ _) => String.eqb i index
  | Requested (delete_document i _ _) => String.eqb i index
  | Requested client_close => false
  | Requested (readFileSync f) => String.eqb f path
  | Requested Date_toISOString => true
  | Printed _ _ _ => true
  end.

(** [options.mappingPath || join(__dirname, ...)] *)
Definition target_mapping (default_mapping_path : string) (options : IndexInitOptions)
  : string :=
  match mappingPath options with
  | Some s => if String.eqb s "" then default_mapping_path else s
  | None => default_mapping_path
  end.


(** A request with the answer the client gave to it. *)
Inductive Exchange :=
| Answered {R : Type} (req : Request R) (answer : Completion Exn R).


Section Exchanges.

Variable World : Type.
Variable respond : forall R, Request R -> World -> Completion Exn R * World.


End Exchanges.

(** [Q] holds of the completion and of the exchanges of every run of [p],
    whatever the client answers. *)
Fixpoint every_exchange {A} (p : Prog A)
    (Q : Completion Exn A -> list Exchange -> Prop) : Prop :=
  match p with
  | Ret a => Q (Return a) []
  | Raise e => Q (Throw e) []
  | Console _ _ _ k => every_exchange k Q
  | Ask req k =>
      forall answer, every_exchange (k answer) (fun c xs => Q c (Answered req answer :: xs))
  end.


End ElasticClientRules.

(** ** What the index-init command line gives *)
Module IngestorRules.
Import JS Ingestor.

(** The console events of the lines a start-up step printed. *)
Definition printed (lines : list Startup.Line) : list ElasticClient.Event :=
  List.map (fun l => ElasticClient.Printed (fst l) (snd l) None) lines.

(** The options [b] given after the options [a]: what [b] sets wins. *)
Definition override (a b : CliArgs) : CliArgs :=
  {| recreate := match recreate b with Some true => Some true | _ => recreate a end;
     index := match index b with Some v => Some v | None => index a end;
     mapping := match mapping b with Some v => Some v | None => mapping a end;
     help := match help b with Some true => Some true | _ => help a end |}.

(** The options handed to [initializeElasticIndex]. *)
Definition options_of (a : CliArgs) : ElasticClient.IndexInitOptions :=
  {| ElasticClient.recreate := recreate a;
     ElasticClient.indexName := index a;
     ElasticClient.mappingPath := mapping a |}.

End IngestorRules.

(* ===================================================================== *)
(** * Part II: lemmas and theorems                                         *)
(* ===================================================================== *)

(** ** Objects and the zod combinators *)
Section ZodFacts.
Import JS Zod.

Lemma get_set_eq key v fields : get key (set key v fields) = v.
Proof.
  induction fields as [|[k x] rest IH]; simpl.
  - now rewrite String.eqb_refl.
  - destruct (String.eqb k key) eqn:E; simpl; rewrite E; auto.
Qed.

Lemma get_set_ne key key' v fields :
  key <> key' -> get key' (set key v fields) = get key' fields.
Proof.
  intros Hne. induction fields as [|[k x] rest IH]; simpl.
  - destruct (String.eqb key key') eqn:E; [apply String.eqb_eq in E; congruence | reflexivity].
  - destruct (String.eqb k key) eqn:E; simpl.
    + apply String.eqb_eq in E; subst k.
      destruct (String.eqb key key') eqn:E'; [apply String.eqb_eq in E'; congruence | reflexivity].
    + destruct (String.eqb k key'); auto.
Qed.

Lemma has_key_set_eq key v fields : has_key key (set key v fields) = true.
Proof.
  induction fields as [|[k x] rest IH]; simpl.
  - now rewrite String.eqb_refl.
  - destruct (String.eqb k key) eqn:E; simpl; rewrite E; auto.
Qed.

Lemma get_absent key fields :
  ~ In key (List.map fst fields) -> get key fields = VUndefined.
Proof.
  induction fields as [|[k x] rest IH]; simpl; intros H; [reflexivity|].
  destruct (String.eqb k key) eqn:E.
  - apply String.eqb_eq in E. tauto.
  - apply IH. tauto.
Qed.

Lemma merge_keys pairs out :
  merge pairs = inl out -> incl (List.map fst out) (List.map key_of pairs).
Proof.
  revert out. induction pairs as [|[[k a] r] rest IH]; simpl; intros out H.
  - inversion H. apply incl_nil_l.
  - destruct r as [d|errs]; destruct (merge rest) as [out'|errs'] eqn:E; try discriminate.
    inversion H; subst out. specialize (IH _ eq_refl).
    destruct (negb (String.eqb k "__proto__") && (a || negb (is_undefined d))); simpl.
    + apply incl_cons; [now left | now apply incl_tl].
    + now apply incl_tl.
Qed.

Lemma distinct_of_proto (keys : list string) :
  List.NoDup ("__proto__" :: keys) -> ~ In "__proto__" keys /\ List.NoDup keys.
Proof. intros H. now inversion H. Qed.

Lemma not_proto k : k <> "__proto__" -> negb (String.eqb k "__proto__") = true.
Proof.
  intros Hk. destruct (String.eqb k "__proto__") eqn:E; [|reflexivity].
  apply String.eqb_eq in E. contradiction.
Qed.

(** When the merge succeeds, every key parsed, and the output holds the
    parsed value under that key; no key of the sources is [__proto__]. *)
Lemma merge_get pairs out k a r :
  merge pairs = inl out ->
  List.NoDup ("__proto__" :: List.map key_of pairs) ->
  In (k, a, r) pairs ->
  r = OK (get k out).
Proof.
  intros H Hd. apply distinct_of_proto in Hd as [Hp Hnd]. revert out H Hp Hnd.
  induction pairs as [|[[k0 a0] r0] rest IH]; simpl; intros out H Hp Hnd Hin.
  - contradiction.
  - inversion Hnd as [|? ? Hnotin Hnd']; subst.
    destruct r0 as [d|errs]; destruct (merge rest) as [out'|errs'] eqn:E; try discriminate.
    inversion H; subst out; clear H.
    rewrite not_proto by (unfold key_of in Hp; simpl in Hp; intuition congruence).
    rewrite andb_true_l.
    assert (Hk0 : ~ In k0 (List.map fst out')).
    { intros Hc. apply Hnotin. eapply merge_keys; eauto. }
    destruct Hin as [Heq|Hin].
    + inversion Heq; subst.
      destruct (a || negb (is_undefined d)) eqn:Hd; simpl.
      * now rewrite String.eqb_refl.
      * rewrite (get_absent _ _ Hk0).
        apply orb_false_iff in Hd as [_ Hd]. destruct d; simpl in Hd; try discriminate.
        reflexivity.
    + assert (Hne : k0 <> k).
      { intros Hk; subst k0. apply Hnotin. exact (List.in_map key_of _ _ Hin). }
      rewrite (IH _ eq_refl (fun Hc => Hp (or_intror Hc)) Hnd' Hin).
      destruct (a0 || negb (is_undefined d)); simpl; [|reflexivity].
      destruct (String.eqb k0 k) eqn:E'; [apply String.eqb_eq in E'; contradiction | reflexivity].
Qed.

Lemma merge_ok_iff pairs :
  (exists out, merge pairs = inl out) <-> Forall (fun pr => is_ok (result_of pr) = true) pairs.
Proof.
  induction pairs as [|[[k a] r] rest IH]; simpl.
  - split; [constructor | eauto].
  - split.
    + intros [out H]. destruct r as [d|errs]; destruct (merge rest) eqn:E; try discriminate.
      constructor; [reflexivity | apply IH; eauto].
    + intros H. inversion H as [|? ? Hr Hrest]; subst.
      apply IH in Hrest as [out' E]. rewrite E.
      destruct r; [eauto | discriminate].
Qed.

Lemma merged_is_ok pairs :
  is_ok (merged pairs) = forallb (fun pr => is_ok (result_of pr)) pairs.
Proof.
  unfold merged. induction pairs as [|[[k a] r] rest IH]; simpl; [reflexivity|].
  destruct r as [d|errs]; destruct (merge rest); simpl in *; auto.
Qed.

Lemma forallb_pointwise {A} (f g : A -> bool) (l : list A) :
  (forall x, f x = g x) -> forallb f l = forallb g l.
Proof. intros H. induction l as [|x l IH]; simpl; [reflexivity | now rewrite H, IH]. Qed.

Lemma forallb_over_map {A B} (f : B -> bool) (g : A -> B) (l : list A) :
  forallb f (List.map g l) = forallb (fun x => f (g x)) l.
Proof. induction l as [|x l IH]; simpl; [reflexivity | now rewrite IH]. Qed.

(** An object schema accepts an object exactly when every key of the shape
    accepts what the object holds under it. *)
Lemma object_is_ok shape p fields :
  is_ok (object shape p (VObject fields))
  = forallb (fun kt => is_ok (snd kt (p ++ [Key (fst kt)]) (get (fst kt) fields))) shape.
Proof.
  unfold object. rewrite merged_is_ok, forallb_over_map.
  apply forallb_pointwise. now intros [k t].
Qed.

Lemma object_get shape p input output k t :
  object shape p input = OK output ->
  List.NoDup ("__proto__" :: List.map fst shape) ->
  In (k, t) shape ->
  exists fields, input = VObject fields
    /\ t (p ++ [Key k]) (get k fields) = OK (prop k output).
Proof.
  unfold object. destruct input as [| | | | | |fields]; try discriminate.
  unfold merged. intros H Hnd Hin. exists fields. split; [reflexivity|].
  destruct (merge _) as [out|errs] eqn:E; [|discriminate].
  inversion H; subst output; simpl.
  eapply merge_get with (a := has_key k fields) in E.
  - exact E.
  - rewrite List.map_map. erewrite List.map_ext; [exact Hnd|]. now intros [k' t'].
  - apply in_map_iff. exists (k, t). split; [reflexivity | assumption].
Qed.

(** A record schema accepts an object exactly when the value schema accepts
    every entry. *)
Lemma record_is_ok valueType p fields :
  is_ok (record valueType p (VObject fields))
  = forallb (fun kx => is_ok (valueType (p ++ [Key (fst kx)]) (snd kx))) fields.
Proof.
  unfold record. rewrite merged_is_ok, forallb_over_map.
  apply forallb_pointwise. now intros [k x].
Qed.

Lemma enum_ok values p v d :
  enum values p v = OK d -> exists s, v = VString s /\ d = v /\ In s values.
Proof.
  unfold enum. destruct v; try discriminate.
  destruct (mem s values) eqn:E; [|discriminate].
  intros H; inversion H; subst. exists s. repeat split.
  unfold mem in E. apply existsb_exists in E as [x [Hin Hx]].
  apply String.eqb_eq in Hx. now subst.
Qed.

End ZodFacts.

(** ** Log documents (elastic-index.ts) *)
Section LogDocumentFacts.
Import JS Zod ElasticIndex.

Ltac distinct_keys :=
  repeat (constructor; [simpl; intuition discriminate|]); constructor.

Lemma LogDocument_keys :
  List.NoDup ["__proto__"; "@timestamp"; "service"; "event"; "message"; "trace_id"; "labels";
              "metrics"].
Proof. distinct_keys. Qed.

Lemma label_union_is_ok p v :
  is_ok (union [string_ []; number_ []; boolean] p v) = label_value v.
Proof. destruct v as [| | | [| |] | | |]; reflexivity. Qed.

Lemma metric_union_is_ok p v :
  is_ok (union [number_ []; string_ []] p v) = metric_value v.
Proof. destruct v as [| | | [| |] | | |]; reflexivity. Qed.

Lemma LabelsSchema_is_ok p fields :
  is_ok (optional LabelsSchema p (VObject fields))
  = forallb (fun kx => label_value (snd kx)) fields.
Proof.
  unfold optional, LabelsSchema. rewrite record_is_ok.
  apply forallb_pointwise. intros kx. apply label_union_is_ok.
Qed.

Lemma MetricsSchema_is_ok p fields :
  is_ok (optional MetricsSchema p (VObject fields))
  = forallb (fun kx => metric_value (snd kx)) fields.
Proof.
  unfold optional, MetricsSchema. rewrite record_is_ok.
  apply forallb_pointwise. intros kx. apply metric_union_is_ok.
Qed.

(** Acceptance of a document, key by key. *)
Lemma LogDocument_is_ok is_datetime fields :
  is_ok (parse (LogDocumentSchema is_datetime) (VObject fields))
  = is_ok (string_ [format is_datetime] [Key "@timestamp"] (get "@timestamp" fields))
    && (is_ok (ServiceSchema [Key "service"] (get "service" fields))
    && (is_ok (EventSchema [Key "event"] (get "event" fields))
    && (is_ok (string_ [max 1024] [Key "message"] (get "message" fields))
    && (is_ok (optional (string_ [max 256]) [Key "trace_id"] (get "trace_id" fields))
    && (is_ok (optional LabelsSchema [Key "labels"] (get "labels" fields))
    && (is_ok (optional MetricsSchema [Key "metrics"] (get "metrics" fields))
    && true)))))).
Proof. unfold parse, LogDocumentSchema. now rewrite object_is_ok. Qed.

Lemma not_object_rejected is_datetime raw :
  is_ok (parse (LogDocumentSchema is_datetime) raw) = true ->
  exists fields, raw = VObject fields.
Proof. destruct raw; try discriminate. eauto. Qed.

Lemma labels_entry_rejected is_datetime raw entries k v :
  prop "labels" raw = VObject entries ->
  In (k, v) entries ->
  label_value v = false ->
  is_ok (parse (LogDocumentSchema is_datetime) raw) = false.
Proof.
  intros Hl Hin Hv.
  destruct (is_ok (parse (LogDocumentSchema is_datetime) raw)) eqn:E; [|reflexivity].
  destruct (not_object_rejected _ _ E) as [fields ->]. simpl in Hl.
  rewrite LogDocument_is_ok, Hl, LabelsSchema_is_ok in E.
  repeat (apply andb_true_iff in E as [? E]).
  match goal with
  | H : forallb _ entries = true |- _ =>
      rewrite forallb_forall in H; specialize (H _ Hin); simpl in H; congruence
  end.
Qed.

Lemma metrics_entry_rejected is_datetime raw entries k v :
  prop "metrics" raw = VObject entries ->
  In (k, v) entries ->
  metric_value v = false ->
  is_ok (parse (LogDocumentSchema is_datetime) raw) = false.
Proof.
  intros Hl Hin Hv.
  destruct (is_ok (parse (LogDocumentSchema is_datetime) raw)) eqn:E; [|reflexivity].
  destruct (not_object_rejected _ _ E) as [fields ->]. simpl in Hl.
  rewrite LogDocument_is_ok, Hl, MetricsSchema_is_ok in E.
  repeat (apply andb_true_iff in E as [? E]).
  match goal with
  | H : forallb _ entries = true |- _ =>
      rewrite forallb_forall in H; specialize (H _ Hin); simpl in H; congruence
  end.
Qed.

End LogDocumentFacts.

(** C6.  Log-document validation succeeds only on documents whose
    [event.action] is one of [config_change], [db_pool_low],
    [latency_spike], and the accepted document carries that same action. *)
Theorem log_document_action_closed
    (is_datetime : string -> bool) (raw doc : JS.value) :
  Zod.parse (ElasticIndex.LogDocumentSchema is_datetime) raw = Zod.OK doc ->
  exists a,
    JS.prop "action" (JS.prop "event" raw) = JS.VString a
    /\ In a ElasticIndex.event_actions
    /\ JS.prop "action" (JS.prop "event" doc) = JS.VString a.
Proof.
  intros H. unfold Zod.parse, ElasticIndex.LogDocumentSchema in H.
  destruct (object_get _ _ _ _ "event" ElasticIndex.EventSchema H LogDocument_keys)
    as [fields [-> Hevent]]; [simpl; tauto|].
  unfold ElasticIndex.EventSchema in Hevent.
  destruct (object_get _ _ _ _ "action" ElasticIndex.EventActionSchema Hevent)
    as [efields [Hraw Haction]];
    [repeat constructor; simpl; intuition discriminate | simpl; tauto|].
  apply enum_ok in Haction as [a [Ha [Hd Hin]]].
  exists a. split; [simpl; rewrite Hraw; exact Ha|].
  split; [exact Hin|]. now rewrite Hd.
Qed.

Lemma log_document_action_closed_witness :
  exists a,
    JS.prop "action" (JS.prop "event" ElasticIndex.sampleLogDocument) = JS.VString a
    /\ In a ElasticIndex.event_actions
    /\ JS.prop "action" (JS.prop "event" ElasticIndex.sampleLogDocument) = JS.VString a.
Proof.
  apply (log_document_action_closed ElasticIndex.datetime_regex
           ElasticIndex.sampleLogDocument ElasticIndex.sampleLogDocument).
  reflexivity.
Defined.

(** The second half of C7 as the specification words it fails: a boolean is
    a scalar, yet a [metrics] entry holding one makes an otherwise accepted
    document invalid. *)
Lemma metrics_boolean_entry_rejected :
  ElasticIndex.scalar (JS.VBool true) = true
  /\ Zod.is_ok (Zod.parse (ElasticIndex.LogDocumentSchema ElasticIndex.datetime_regex)
                  ElasticIndex.sampleLogDocument) = true
  /\ Zod.parse (ElasticIndex.LogDocumentSchema ElasticIndex.datetime_regex)
       (ElasticIndex.with_field "metrics" (JS.VObject [("cache_hit", JS.VBool true)])
          ElasticIndex.sampleLogDocument)
     = Zod.INVALID [Zod.issue Zod.invalid_union [Zod.Key "metrics"; Zod.Key "cache_hit"]].
Proof. repeat split; reflexivity. Qed.

(** C7, amended.  The keys of [labels] and [metrics] are open, the values
    are not every scalar: [labels] takes strings, numbers other than NaN
    and booleans, [metrics] takes numbers other than NaN and strings.  A
    document with any other entry value (an object, an array, null, and for
    [metrics] a boolean) is rejected; on a document that is accepted,
    replacing [labels] and [metrics] by any maps keeps it accepted exactly
    when all their entries hold such values. *)
Theorem labels_metrics_entry_values (is_datetime : string -> bool) :
  (forall raw entries k v,
      JS.prop "labels" raw = JS.VObject entries ->
      In (k, v) entries ->
      ElasticIndex.label_value v = false ->
      Zod.is_ok (Zod.parse (ElasticIndex.LogDocumentSchema is_datetime) raw) = false)
  /\ (forall raw entries k v,
      JS.prop "metrics" raw = JS.VObject entries ->
      In (k, v) entries ->
      ElasticIndex.metric_value v = false ->
      Zod.is_ok (Zod.parse (ElasticIndex.LogDocumentSchema is_datetime) raw) = false)
  /\ (forall raw ls ms,
      Zod.is_ok (Zod.parse (ElasticIndex.LogDocumentSchema is_datetime) raw) = true ->
      Zod.is_ok (Zod.parse (ElasticIndex.LogDocumentSchema is_datetime)
                   (ElasticIndex.with_field "metrics" (JS.VObject ms)
                      (ElasticIndex.with_field "labels" (JS.VObject ls) raw)))
      = forallb (fun kx => ElasticIndex.label_value (snd kx)) ls
        && forallb (fun kx => ElasticIndex.metric_value (snd kx)) ms).
Proof.
  split; [|split].
  - apply labels_entry_rejected.
  - apply metrics_entry_rejected.
  - intros raw ls ms Hok.
    destruct (not_object_rejected _ _ Hok) as [fields ->].
    rewrite LogDocument_is_ok in Hok.
    repeat (apply andb_true_iff in Hok as [? Hok]).
    simpl ElasticIndex.with_field. rewrite LogDocument_is_ok.
    rewrite get_set_eq.
    rewrite !(get_set_ne "metrics") by discriminate.
    rewrite get_set_eq.
    rewrite !(get_set_ne "labels") by discriminate.
    rewrite LabelsSchema_is_ok, MetricsSchema_is_ok.
    repeat match goal with H : Zod.is_ok _ = true |- _ => rewrite H; clear H end.
    simpl. now rewrite andb_true_r.
Qed.

Lemma labels_metrics_entry_values_witness :
  Zod.is_ok (Zod.parse (ElasticIndex.LogDocumentSchema ElasticIndex.datetime_regex)
               (ElasticIndex.with_field "metrics"
                  (JS.VObject [("p95_ms", ElasticIndex.num 980); ("unit", JS.VString "ms")])
                  (ElasticIndex.with_field "labels"
                     (JS.VObject [("environment", JS.VString "staging");
                                  ("canary", JS.VBool true)])
                     ElasticIndex.sampleLogDocument)))
  = true
  /\ Zod.is_ok (Zod.parse (ElasticIndex.LogDocumentSchema ElasticIndex.datetime_regex)
                  (ElasticIndex.with_field "labels"
                     (JS.VObject [("tags", JS.VArray [])]) ElasticIndex.sampleLogDocument))
     = false.
Proof.
  destruct (labels_metrics_entry_values ElasticIndex.datetime_regex) as [Hl [_ Hboth]].
  split.
  - rewrite Hboth; reflexivity.
  - apply (Hl _ [("tags", JS.VArray [])] "tags" (JS.VArray [])).
    + reflexivity.
    + simpl; auto.
    + reflexivity.
Defined.

(** ** Agent environment (env.ts) *)
Section EnvFacts.
Import JS Zod Env.

Lemma get_assoc (l : list (string * string)) name :
  get name (List.map (fun '(k, v) => (k, VString v)) l)
  = match (list_to_map l : gmap string string) !! name with
    | Some s => VString s
    | None => VUndefined
    end.
Proof.
  induction l as [|[k v] l IH]; simpl.
  - now rewrite lookup_empty.
  - destruct (String.eqb k name) eqn:E.
    + apply String.eqb_eq in E; subst. now rewrite lookup_insert_eq.
    + apply String.eqb_neq in E. now rewrite lookup_insert_ne.
Qed.

Lemma prop_of_env env name : prop name (of_env env) = raw_value env name.
Proof.
  unfold of_env, raw_value; simpl. rewrite get_assoc.
  now rewrite list_to_map_to_list.
Qed.

Lemma truthy_raw_value env name :
  truthy (raw_value env name) = true <-> set_nonempty env name.
Proof.
  unfold raw_value, set_nonempty. destruct (env !! name) as [s|]; simpl.
  - destruct (String.eqb s "") eqn:E; simpl.
    + apply String.eqb_eq in E. split; [discriminate|].
      intros [s' [Hs Hne]]. congruence.
    + apply String.eqb_neq in E. split; [eauto|reflexivity].
  - split; [discriminate|]. intros [s [Hs _]]. discriminate.
Qed.

Lemma truthy_and a b : truthy (and_ a b) = truthy a && truthy b.
Proof. unfold and_. destruct (truthy a) eqn:E; simpl; [reflexivity | exact E]. Qed.

Lemma optional_string_ok checks p v d :
  optional (string_ checks) p v = OK d -> d = v.
Proof.
  unfold optional, string_, finish. destruct v; try discriminate.
  - now intros [= <-].
  - destruct (run_checks checks p s); [now intros [= <-] | discriminate].
Qed.

Lemma agentEnv_keys :
  List.NoDup
    ["__proto__";
     "NODE_ENV"; "AGENT_PORT"; "GCP_PROJECT_ID"; "GOOGLE_APPLICATION_CREDENTIALS";
     "ELASTIC_CLOUD_ID"; "ELASTIC_API_KEY"; "ELASTIC_NODE"; "ELASTIC_USERNAME";
     "ELASTIC_PASSWORD"; "ELASTIC_INDEX"].
Proof. repeat (constructor; [simpl; intuition discriminate|]); constructor. Qed.

(** The parse hands the optional string variables through as they are. *)
Lemma parsed_optional is_url env parsedEnv name checks :
  parse_or_throw (agentEnvSchema is_url) (of_env env) = Return parsedEnv ->
  In (name, optional (string_ checks))
     (baseEnvShape ++
      [ ("AGENT_PORT", default (number_ [int; nmin 1; nmax 65535]) (num 3001));
        ("GCP_PROJECT_ID", string_ [min 1]);
        ("GOOGLE_APPLICATION_CREDENTIALS", optional (string_ []));
        ("ELASTIC_CLOUD_ID", optional (string_ []));
        ("ELASTIC_API_KEY", optional (string_ []));
        ("ELASTIC_NODE", optional (string_ [format is_url]));
        ("ELASTIC_USERNAME", optional (string_ []));
        ("ELASTIC_PASSWORD", optional (string_ []));
        ("ELASTIC_INDEX", default (string_ []) (VString "causalops-logs")) ]) ->
  prop name parsedEnv = raw_value env name.
Proof.
  unfold parse_or_throw, parse, agentEnvSchema. intros H Hin.
  destruct (object _ _ _) as [d|errs] eqn:E; [|discriminate].
  inversion H; subst d; clear H.
  destruct (object_get _ _ _ _ _ _ E agentEnv_keys Hin) as [fields [Hf Hp]].
  apply optional_string_ok in Hp. rewrite Hp.
  rewrite <- prop_of_env, Hf. reflexivity.
Qed.

Lemma parsed_is_object is_url env parsedEnv :
  parse_or_throw (agentEnvSchema is_url) (of_env env) = Return parsedEnv ->
  exists fields, parsedEnv = VObject fields.
Proof.
  unfold parse_or_throw, parse, agentEnvSchema, object, of_env, merged.
  destruct (merge _); [|discriminate]. intros [= <-]. eauto.
Qed.

Lemma has_cloud_iff env : has_cloud env = true <-> cloud_credentials env.
Proof.
  unfold has_cloud, cloud_credentials.
  rewrite andb_true_iff, !truthy_raw_value. tauto.
Qed.

Lemma has_local_iff env : has_local env = true <-> local_credentials env.
Proof.
  unfold has_local, local_credentials.
  rewrite !andb_true_iff, !truthy_raw_value. tauto.
Qed.

(** The validation after a successful parse, by the two credential tests. *)
Lemma validate_after_parse is_url env parsedEnv :
  parse_or_throw (agentEnvSchema is_url) (of_env env) = Return parsedEnv ->
  exists fields elasticsearch,
    parsedEnv = VObject fields
    /\ prop "type" elasticsearch = VString (if has_cloud env then "cloud" else "local")
    /\ validateAgentEnvironment is_url env
       = if negb (has_cloud env) && negb (has_local env)
         then Throw (Error missing_credentials)
         else Return (VObject (set "elasticsearch" elasticsearch fields)).
Proof.
  intros H.
  destruct (parsed_is_object _ _ _ H) as [fields Hfields].
  assert (Hc : prop "ELASTIC_CLOUD_ID" parsedEnv = raw_value env "ELASTIC_CLOUD_ID")
    by (eapply (parsed_optional is_url env parsedEnv _ []); [exact H | simpl; tauto]).
  assert (Ha : prop "ELASTIC_API_KEY" parsedEnv = raw_value env "ELASTIC_API_KEY")
    by (eapply (parsed_optional is_url env parsedEnv _ []); [exact H | simpl; tauto]).
  assert (Hn : prop "ELASTIC_NODE" parsedEnv = raw_value env "ELASTIC_NODE")
    by (eapply (parsed_optional is_url env parsedEnv _ [format is_url]);
        [exact H | simpl; tauto]).
  assert (Hu : prop "ELASTIC_USERNAME" parsedEnv = raw_value env "ELASTIC_USERNAME")
    by (eapply (parsed_optional is_url env parsedEnv _ []); [exact H | simpl; tauto]).
  assert (Hp : prop "ELASTIC_PASSWORD" parsedEnv = raw_value env "ELASTIC_PASSWORD")
    by (eapply (parsed_optional is_url env parsedEnv _ []); [exact H | simpl; tauto]).
  unfold validateAgentEnvironment. rewrite H. unfold select_elasticsearch.
  rewrite Hc, Ha, Hn, Hu, Hp, !truthy_and.
  fold (has_cloud env). fold (has_local env).
  subst parsedEnv.
  destruct (has_cloud env); simpl.
  - eexists _, _. split; [reflexivity|]. split; [|reflexivity]. reflexivity.
  - eexists _, _. split; [reflexivity|]. split; [|reflexivity]. reflexivity.
Qed.

End EnvFacts.

(** C8.  Once the agent schema parse has passed, [validateAgentEnvironment]
    throws exactly when neither the cloud credentials (ELASTIC_CLOUD_ID and
    ELASTIC_API_KEY) nor the local ones (ELASTIC_NODE, ELASTIC_USERNAME and
    ELASTIC_PASSWORD) are all set and non-empty; when it returns,
    [elasticsearch.type] is 'cloud' exactly when both cloud credentials
    are set and non-empty, and 'local' otherwise. *)
Theorem validateAgentEnvironment_credentials
    (is_url : string -> bool) (env : gmap string string) (parsedEnv : JS.value) :
  Env.parse_or_throw (Env.agentEnvSchema is_url) (Env.of_env env) = JS.Return parsedEnv ->
  ((exists e, Env.validateAgentEnvironment is_url env = JS.Throw e)
   <-> ~ (Env.cloud_credentials env \/ Env.local_credentials env))
  /\ (forall r,
       Env.validateAgentEnvironment is_url env = JS.Return r ->
       (JS.prop "type" (JS.prop "elasticsearch" r) = JS.VString "cloud"
        <-> Env.cloud_credentials env)
       /\ (JS.prop "type" (JS.prop "elasticsearch" r) = JS.VString "local"
           <-> ~ Env.cloud_credentials env)).
Proof.
  intros H.
  destruct (validate_after_parse _ _ _ H) as [fields [es [_ [Htype Hv]]]].
  rewrite Hv. clear Hv.
  pose proof (has_cloud_iff env) as Hc. pose proof (has_local_iff env) as Hl.
  split.
  - destruct (Env.has_cloud env), (Env.has_local env); simpl; split.
    all: try (intros [e He]; discriminate).
    all: try (intros Hn; exfalso; apply Hn; intuition; fail).
    + intros _ [Hx|Hx]; [apply Hc in Hx | apply Hl in Hx]; discriminate.
    + eauto.
  - intros r Hr.
    destruct (negb (Env.has_cloud env) && negb (Env.has_local env)); [discriminate|].
    inversion Hr; subst r; clear Hr. simpl JS.prop at 2 4.
    rewrite get_set_eq, Htype.
    destruct (Env.has_cloud env); split; split; intros Hx;
      try reflexivity; try discriminate; try (now apply Hc).
    + exfalso. apply Hx. now apply Hc.
    + apply Hc in Hx. discriminate.
    + intros Hy. apply Hc in Hy. discriminate.
Qed.

Lemma validateAgentEnvironment_credentials_witness :
  let env : gmap string string :=
    {[ "GCP_PROJECT_ID" := "demo-project";
       "ELASTIC_CLOUD_ID" := "deployment:abc";
       "ELASTIC_API_KEY" := "secret" ]} in
  ((exists e, Env.validateAgentEnvironment (fun _ => false) env = JS.Throw e)
   <-> ~ (Env.cloud_credentials env \/ Env.local_credentials env))
  /\ (forall r,
       Env.validateAgentEnvironment (fun _ => false) env = JS.Return r ->
       (JS.prop "type" (JS.prop "elasticsearch" r) = JS.VString "cloud"
        <-> Env.cloud_credentials env)
       /\ (JS.prop "type" (JS.prop "elasticsearch" r) = JS.VString "local"
           <-> ~ Env.cloud_credentials env)).
Proof.
  intros env.
  eapply (validateAgentEnvironment_credentials (fun _ => false) env).
  vm_compute. reflexivity.
Defined.

(** ** Index bootstrap (elastic-client.ts) *)

(** C10.  [checkIndexExists] never throws, whatever the client does: it
    returns what the client answers, and [false] (after printing the
    error) when the client call fails, so that a failed call reads to the
    caller like an index that does not exist. *)
Theorem checkIndexExists_never_throws
    (World : Type)
    (respond : forall R, ElasticClient.Request R -> World -> JS.Completion ElasticClient.Exn R * World)
    (indexName : string) (w : World) :
  ElasticClient.run World respond (ElasticClient.checkIndexExists indexName) w
  = match respond bool (ElasticClient.indices_exists indexName) w with
    | (JS.Return b, w1) =>
        (JS.Return b, w1, [ElasticClient.Requested (ElasticClient.indices_exists indexName)])
    | (JS.Throw e, w1) =>
        (JS.Return false, w1,
         [ElasticClient.Requested (ElasticClient.indices_exists indexName);
          ElasticClient.Printed ElasticClient.error
            ("Error checking if index " ++ indexName ++ " exists:") (Some e)])
    end
  /\ exists b w' t,
      ElasticClient.run World respond (ElasticClient.checkIndexExists indexName) w
      = (JS.Return b, w', t).
Proof.
  unfold ElasticClient.checkIndexExists. simpl.
  destruct (respond bool (ElasticClient.indices_exists indexName) w) as [[b|e] w1];
    simpl; split; eauto.
Qed.




(** With [recreate] set the same call deletes the index, creates it again
    and writes the test document. *)
Example initializeIndex_recreate_mutates :
  forallb (fun e => negb (ElasticClient.mutating e))
    (snd (ElasticClient.run nat ElasticClient.obliging
            (ElasticClient.initializeIndex
               (fun _ => JS.Return (JS.VObject [("settings", JS.VObject []);
                                                 ("mappings",
                                                  JS.VObject [("properties", JS.VObject [])])]))
               (fun _ => "") "elastic_index_mapping.json" ElasticClient.sample_initializer
               {| ElasticClient.indexName := None;
                  ElasticClient.mappingPath := None;
                  ElasticClient.recreate := Some true |}) 0))
  = false.
Proof. reflexivity. Qed.

Example checkIndexExists_unreachable :
  fst (fst (ElasticClient.run nat ElasticClient.unreachable
              (ElasticClient.checkIndexExists "causalops-logs") 0))
  = JS.Return false.
Proof. reflexivity. Qed.

(** ** Agent entry point (apps/agent/src/index.ts) *)




(** ** Schema Validator (pipeline model) *)
Section ValidatorFacts.
Import JS Pipeline.

Lemma flat_map_nonempty {A B} (f : A -> list B) (l : list A) (x : A) :
  In x l -> f x <> [] -> flat_map f l <> [].
Proof.
  induction l as [|y l IH]; simpl; [tauto|].
  intros [->|Hin] Hx H; apply app_eq_nil in H as [H1 H2]; [tauto | now apply IH].
Qed.

Lemma concat_imap_nonempty {A B} (g : nat -> A -> list B) (l : list A) (x : A) :
  In x l -> (forall i, g i x <> []) -> List.concat (imap g l) <> [].
Proof.
  revert g. induction l as [|y l IH]; simpl; [tauto|].
  intros g [->|Hin] Hx H; apply app_eq_nil in H as [H1 H2].
  - now apply (Hx 0).
  - apply (IH (fun i => g (S i))) in H2; auto.
Qed.

Lemma not_mem_existsb x (allowed : list string) :
  ~ In x allowed -> existsb (String.eqb x) allowed = false.
Proof.
  intros Hn. destruct (existsb (String.eqb x) allowed) eqn:E; [|reflexivity].
  apply existsb_exists in E as [y [Hin Hy]]. apply String.eqb_eq in Hy. now subst.
Qed.

(** Every defect shows as a violation, at whatever path the value sits. *)
Lemma defect_violations s v :
  Defect s v -> forall p, violations s p v <> [].
Proof.
  induction 1 as [fields fs name s Hin Hk | v Hv | v Hv | v Hv | items cap v Hv
                  | fields v Hv | allowed v Hv | allowed x Hx | items cap xs Hlen
                  | fields fs name required s Hin Hk Hd IH | items cap xs x Hin Hd IH];
    intros p.
  - simpl. apply (flat_map_nonempty _ _ _ Hin). rewrite Hk. discriminate.
  - destruct v; simpl; try discriminate. now specialize (Hv s).
  - destruct v; simpl; try discriminate. now specialize (Hv n).
  - destruct v; simpl; try discriminate. now specialize (Hv b).
  - destruct v; simpl; try discriminate. now specialize (Hv items0).
  - destruct v; simpl; try discriminate. now specialize (Hv fields0).
  - destruct v; simpl; try discriminate. now specialize (Hv s).
  - simpl. rewrite (not_mem_existsb _ _ Hx). discriminate.
  - simpl. apply Nat.ltb_lt in Hlen. rewrite Hlen. discriminate.
  - simpl. apply (flat_map_nonempty _ _ _ Hin). rewrite Hk. apply IH.
  - simpl. intros H. apply app_eq_nil in H as [_ H]. revert H.
    apply (concat_imap_nonempty _ _ _ Hin). intros i. apply IH.
Qed.

Lemma violations_rejected raw kind :
  violations (schema_of kind) [] raw <> [] -> rejected (validate raw kind).
Proof.
  intros H. unfold rejected, validate.
  destruct (violations (schema_of kind) [] raw) as [|v vs]; [contradiction|].
  eexists. split; [reflexivity | discriminate].
Qed.

Lemma has_key_of_get name fs :
  get name fs <> VUndefined -> has_key name fs = true.
Proof.
  induction fs as [|[k x] fs IH]; simpl; [tauto|].
  destruct (String.eqb k name); simpl; auto.
Qed.

(** An array sitting in a top-level field and longer than the field's cap. *)
Lemma long_array_rejected kind fields name required items cap raw xs :
  schema_of kind = SObject fields ->
  In (name, required, SArray items (Some cap)) fields ->
  prop name raw = VArray xs ->
  cap < List.length xs ->
  rejected (validate raw kind).
Proof.
  intros Hs Hin Hp Hlen. apply violations_rejected, defect_violations. rewrite Hs.
  destruct raw; simpl in Hp; try discriminate.
  eapply in_field; [exact Hin | | rewrite Hp; now apply over_the_cap].
  apply has_key_of_get. rewrite Hp. discriminate.
Qed.

End ValidatorFacts.

(** C3.  The validator returns a violation, never a typed value, for a
    value with a defect anywhere in it: a required field missing, a value
    of another primitive type than the declared one (nothing is converted),
    an enum value outside the declared set, an array over its cap; in
    particular for more than 8 nodes, more than 10 edges and more than 6
    runbook steps. *)
Theorem validate_rejects_defects :
  (forall raw kind,
      Pipeline.Defect (Pipeline.schema_of kind) raw ->
      Pipeline.rejected (Pipeline.validate raw kind))
  /\ (forall raw xs,
        JS.prop "nodes" raw = JS.VArray xs -> 8 < List.length xs ->
        Pipeline.rejected (Pipeline.validate raw Pipeline.GraphSchema))
  /\ (forall raw xs,
        JS.prop "edges" raw = JS.VArray xs -> 10 < List.length xs ->
        Pipeline.rejected (Pipeline.validate raw Pipeline.GraphSchema))
  /\ (forall raw xs,
        JS.prop "steps" raw = JS.VArray xs -> 6 < List.length xs ->
        Pipeline.rejected (Pipeline.validate raw Pipeline.RunbookSchema)).
Proof.
  split; [|split; [|split]].
  - intros raw kind Hd. apply violations_rejected. now apply defect_violations.
  - intros raw xs Hp Hlen.
    eapply (long_array_rejected Pipeline.GraphSchema _ "nodes"); eauto; simpl; eauto.
  - intros raw xs Hp Hlen.
    eapply (long_array_rejected Pipeline.GraphSchema _ "edges"); eauto; simpl; eauto.
  - intros raw xs Hp Hlen.
    eapply (long_array_rejected Pipeline.RunbookSchema _ "steps"); eauto; simpl; eauto.
Qed.

Lemma validate_rejects_defects_witness :
  Pipeline.rejected (Pipeline.validate Pipeline.edge_missing_confidence Pipeline.GraphSchema)
  /\ Pipeline.rejected (Pipeline.validate Pipeline.nine_nodes Pipeline.GraphSchema).
Proof.
  destruct validate_rejects_defects as [Hdefect [Hnodes _]].
  split.
  - apply Hdefect. simpl.
    eapply (Pipeline.in_field _ _ "edges"); [simpl; eauto | reflexivity |].
    eapply Pipeline.in_item; [simpl; eauto |].
    eapply (Pipeline.missing_required _ _ "confidence"); [simpl; eauto 6 | reflexivity].
  - eapply Hnodes; [reflexivity | simpl; lia].
Defined.

(** ** Causal graphs (pipeline model) *)
Section GraphFacts.
Import JS Pipeline.

Lemma mem_In x l : mem x l = true <-> In x l.
Proof.
  unfold mem. rewrite existsb_exists. split.
  - intros [y [Hin Hy]]. apply String.eqb_eq in Hy. now subst.
  - intros Hin. exists x. split; [assumption | apply String.eqb_refl].
Qed.

Lemma mem_filter x (P : string -> bool) l :
  mem x l = true -> P x = true -> mem x (List.filter P l) = true.
Proof.
  rewrite !mem_In. intros Hin HP. apply filter_In. auto.
Qed.

Lemma reaches_trans es a b c : reaches es a b -> reaches es b c -> reaches es a c.
Proof.
  induction 1 as [e Hin | e v Hin Hp IH]; intros Hbc.
  - now apply reach_step.
  - apply reach_step; auto.
Qed.

(** The last edge of a path. *)
Lemma reaches_last es u v :
  reaches es u v ->
  exists e, In e es /\ edge_to e = v /\ (edge_from e = u \/ reaches es u (edge_from e)).
Proof.
  induction 1 as [e Hin | e v Hin Hp [e' [Hin' [Hto Hfrom]]]].
  - exists e. auto.
  - exists e'. repeat split; auto. right.
    destruct Hfrom as [Heq|Hfrom].
    + rewrite Heq. now apply reach_edge.
    + now apply reach_step.
Qed.

(** A node on a cycle has a predecessor on a cycle. *)
Lemma cycle_predecessor es v :
  reaches es v v ->
  exists e, In e es /\ edge_to e = v /\ reaches es (edge_from e) (edge_from e).
Proof.
  intros Hc. destruct (reaches_last _ _ _ Hc) as [e [Hin [Hto Hfrom]]].
  exists e. repeat split; auto.
  destruct Hfrom as [Hf|Hf].
  - now rewrite Hf.
  - apply reaches_trans with v; [|assumption].
    rewrite <- Hto. now apply reach_edge.
Qed.

(** A round of the sort never takes out a node that lies on a cycle. *)
Lemma peel_keeps_cycles es remaining :
  (forall v, reaches es v v -> mem v remaining = true) ->
  forall v, reaches es v v -> mem v (peel es remaining) = true.
Proof.
  intros Hall v Hc. unfold peel. apply mem_filter; [now apply Hall|].
  destruct (cycle_predecessor _ _ Hc) as [e [Hin [Hto Hfrom]]].
  unfold has_predecessor. apply existsb_exists. exists e. split; [assumption|].
  rewrite Hto, String.eqb_refl. simpl. now apply Hall.
Qed.

Lemma peel_rounds_keep_cycles n es remaining :
  (forall v, reaches es v v -> mem v remaining = true) ->
  forall v, reaches es v v -> mem v (peel_rounds n es remaining) = true.
Proof.
  revert remaining. induction n as [|n IH]; simpl; intros remaining Hall; [assumption|].
  apply IH. now apply peel_keeps_cycles.
Qed.

Lemma endpoints_declared_In g :
  endpoints_declared g = true ->
  forall e, In e (edges g) ->
    In (edge_from e) (node_ids g) /\ In (edge_to e) (node_ids g).
Proof.
  unfold endpoints_declared. rewrite forallb_forall. intros H e Hin.
  specialize (H e Hin). apply andb_true_iff in H as [H1 H2].
  fold (mem (edge_from e) (node_ids g)) in H1. fold (mem (edge_to e) (node_ids g)) in H2.
  now rewrite <- !mem_In.
Qed.

(** The check is sound: a graph that passes has no directed cycle. *)
Lemma acyclic_check_sound g :
  endpoints_declared g = true -> acyclic_check g = true -> acyclic (edges g).
Proof.
  intros Hdecl Hcheck v Hc. unfold acyclic_check in Hcheck.
  assert (Hin : mem v (peel_rounds (List.length (nodes g)) (edges g) (node_ids g)) = true).
  { apply peel_rounds_keep_cycles; [|assumption].
    intros u Hu. destruct (cycle_predecessor _ _ Hu) as [e [Hin [Hto _]]].
    apply mem_In. rewrite <- Hto. now apply (endpoints_declared_In g Hdecl). }
  destruct (peel_rounds _ _ _); [discriminate Hin | discriminate Hcheck].
Qed.

Lemma invariant_holds g :
  invariant_violations g = [] -> endpoints_declared g = true /\ acyclic_check g = true.
Proof.
  unfold invariant_violations.
  destruct (endpoints_declared g), (acyclic_check g); simpl; intros H;
    try discriminate; auto.
Qed.

Lemma array_within_cap items cap p v :
  violations (SArray items cap) p v = [] ->
  exists xs, v = VArray xs /\ over_cap cap (List.length xs) = false.
Proof.
  destruct v as [| | | | |xs|]; simpl; try discriminate.
  destruct (over_cap cap (List.length xs)) eqn:E; [discriminate|]. eauto.
Qed.

Lemma object_conforms fields p fs name s :
  violations (SObject fields) p (VObject fs) = [] ->
  In (name, true, s) fields ->
  violations s (p ++ [Field name]) (get name fs) = [].
Proof.
  simpl. intros H Hin.
  destruct (violations s (p ++ [Field name]) (get name fs)) eqn:E; [reflexivity|].
  exfalso. revert H. apply (flat_map_nonempty _ _ _ Hin).
  destruct (has_key name fs); [rewrite E|]; discriminate.
Qed.

Lemma as_list_length {A} (f : value -> option A) xs l :
  as_list f (VArray xs) = Some l -> List.length l = List.length xs.
Proof. simpl. intros H. symmetry. now apply length_mapM in H. Qed.

(** A value that conforms to the graph schema reads as a graph within the
    caps. *)
Lemma validated_graph_within_caps raw g :
  validate raw GraphSchema = Ok (TGraph g) ->
  List.length (nodes g) <= 8 /\ List.length (edges g) <= 10.
Proof.
  unfold validate.
  destruct (violations (schema_of GraphSchema) [] raw) eqn:Hv; [|discriminate].
  destruct (typed GraphSchema raw) as [t|] eqn:Ht; [|discriminate].
  intros [= ->]. simpl in Ht.
  destruct (as_graph raw) as [g'|] eqn:Hg; [|discriminate].
  injection Ht as ->.
  destruct raw as [| | | | | |fs]; try discriminate.
  unfold schema_of, graph_schema in Hv.
  pose proof (object_conforms _ _ _ "nodes" _ Hv ltac:(simpl; eauto)) as Hn.
  pose proof (object_conforms _ _ _ "edges" _ Hv ltac:(simpl; eauto)) as He.
  apply array_within_cap in Hn as [ns [Hns Hcn]].
  apply array_within_cap in He as [es [Hes Hce]].
  unfold as_graph in Hg. simpl prop in Hg. rewrite Hns, Hes in Hg.
  destruct (as_list as_node (VArray ns)) as [ns'|] eqn:En; [|discriminate].
  destruct (as_list as_edge (VArray es)) as [es'|] eqn:Ee; [|discriminate].
  simpl in Hg.
  assert (Hshape : nodes g = ns' /\ edges g = es').
  { destruct (get "missingSignals" fs); simpl in Hg; try discriminate;
      injection Hg as <-; auto. }
  destruct Hshape as [-> ->].
  apply as_list_length in En, Ee. rewrite En, Ee.
  simpl in Hcn, Hce. apply Nat.ltb_ge in Hcn, Hce. auto.
Qed.

Lemma checked_graph_well_formed raw g : check_graph raw = Ok g -> well_formed g.
Proof.
  unfold check_graph.
  destruct (validate raw GraphSchema) as [[g'|pl]|vs] eqn:Hv; try discriminate.
  destruct (invariant_violations g') eqn:Hi; [|discriminate].
  intros [= ->].
  destruct (validated_graph_within_caps _ _ Hv) as [Hn He].
  destruct (invariant_holds _ Hi) as [Hd Ha].
  repeat split; auto.
  - now apply (endpoints_declared_In g Hd).
  - now apply (endpoints_declared_In g Hd).
  - now apply acyclic_check_sound.
Qed.

Lemma minimal_graph_shape b :
  List.length (nodes (minimal_graph b)) <= 3
  /\ edges (minimal_graph b) = []
  /\ missingSignals (minimal_graph b) = Some missing_signals_note.
Proof.
  repeat split. simpl. rewrite length_map. apply firstn_le_length.
Qed.

Lemma minimal_graph_well_formed b : well_formed (minimal_graph b).
Proof.
  destruct (minimal_graph_shape b) as [Hn [He _]].
  unfold well_formed. rewrite He.
  split; [lia|]. split; [simpl; lia|]. split; [intros e []|].
  intros v Hc. destruct (reaches_last _ _ _ Hc) as [e [[] _]].
Qed.

End GraphFacts.

(** ** Causal Graph Synthesizer and diagnosis (pipeline model) *)
Section SynthesizerFacts.
Import JS Pipeline.

Variable generator : nat -> GenerationRequest -> GenerationResponse.
Variable fixed_temperature : Q.

(** The runs of the machine, spelled out. *)
Lemma synthesize_runs b :
  synthesize generator fixed_temperature b
  = if evidence_empty b
    then {| trace := [Idle; Fallback]; generator_calls := 0;
            outcome := Some (Ok (minimal_graph b)) |}
    else
      match generator 0 (request fixed_temperature b []) with
      | Unavailable =>
          {| trace := [Idle; Requesting]; generator_calls := 1;
             outcome := Some (Err GenerationUnavailable) |}
      | RawJSON raw1 =>
          match check_graph raw1 with
          | Ok g =>
              {| trace := [Idle; Requesting; Validating; Accepted];
                 generator_calls := 1; outcome := Some (Ok g) |}
          | Err found =>
              match generator 1 (request fixed_temperature b found) with
              | Unavailable =>
                  {| trace := [Idle; Requesting; Validating; Repairing];
                     generator_calls := 2;
                     outcome := Some (Err GenerationUnavailable) |}
              | RawJSON raw2 =>
                  match check_graph raw2 with
                  | Ok g =>
                      {| trace := [Idle; Requesting; Validating; Repairing;
                                   Validating; Accepted];
                         generator_calls := 2; outcome := Some (Ok g) |}
                  | Err _ =>
                      {| trace := [Idle; Requesting; Validating; Repairing;
                                   Validating; Fallback];
                         generator_calls := 2;
                         outcome := Some (Ok (minimal_graph b)) |}
                  end
              end
          end
      end.
Proof.
  unfold synthesize.
  cbn [drive step trace generator_calls outcome state_of].
  destruct (evidence_empty b); [reflexivity|].
  cbn [drive step trace generator_calls outcome state_of].
  destruct (generator 0 _) as [raw1|]; [|reflexivity].
  cbn [drive step trace generator_calls outcome state_of].
  destruct (check_graph raw1) as [g|found]; [reflexivity|].
  cbn [drive step trace generator_calls outcome state_of].
  destruct (generator 1 _) as [raw2|]; [|reflexivity].
  cbn [drive step trace generator_calls outcome state_of].
  destruct (check_graph raw2) as [g|found2]; reflexivity.
Qed.

(** The machine always comes to an end. *)
Lemma synthesize_finishes b :
  exists r, outcome (synthesize generator fixed_temperature b) = Some r.
Proof.
  rewrite synthesize_runs.
  destruct (evidence_empty b); [eauto|].
  destruct (generator 0 _) as [raw1|]; [|eauto].
  destruct (check_graph raw1); [eauto|].
  destruct (generator 1 _) as [raw2|]; [|eauto].
  destruct (check_graph raw2); eauto.
Qed.

(** A returned graph was accepted by the check or is the minimal graph. *)
Lemma synthesize_origin b g :
  outcome (synthesize generator fixed_temperature b) = Some (Ok g) ->
  (exists raw, check_graph raw = Ok g) \/ g = minimal_graph b.
Proof.
  rewrite synthesize_runs.
  destruct (evidence_empty b); [intros [= <-]; auto|].
  destruct (generator 0 _) as [raw1|]; [|discriminate].
  destruct (check_graph raw1) as [g1|found] eqn:E1; [intros [= <-]; eauto|].
  destruct (generator 1 _) as [raw2|]; [|discriminate].
  destruct (check_graph raw2) as [g2|found2] eqn:E2; intros [= <-]; eauto.
Qed.

(** With a generator that answers, synthesis returns a graph. *)
Lemma synthesize_returns b :
  (forall n r, generator n r <> Unavailable) ->
  exists g, outcome (synthesize generator fixed_temperature b) = Some (Ok g).
Proof.
  intros Hup. rewrite synthesize_runs.
  destruct (evidence_empty b); [eauto|].
  destruct (generator 0 _) as [raw1|] eqn:G1; [|now apply Hup in G1].
  destruct (check_graph raw1); [eauto|].
  destruct (generator 1 _) as [raw2|] eqn:G2; [|now apply Hup in G2].
  destruct (check_graph raw2); eauto.
Qed.

Lemma no_hits_evidence_empty b :
  (forall p pe, In (p, pe) (evidence b) -> hits pe = []) ->
  evidence_empty b = true /\ all_hits b = [].
Proof.
  unfold evidence_empty, all_hits. intros H.
  induction (evidence b) as [|[p pe] rest IH]; [auto|].
  simpl. rewrite (H p pe) by now left.
  destruct IH as [IH1 IH2]; [intros; eapply H; right; eauto|].
  now rewrite IH1, IH2.
Qed.

End SynthesizerFacts.

Lemma bundle_hits_assemble store patterns max_hits storeIndex w p :
  In p patterns ->
  Pipeline.bundle_hits p
    (Pipeline.evidence (Pipeline.assemble store patterns max_hits storeIndex w))
  = Some (Pipeline.hits_for store max_hits storeIndex w p).
Proof.
  simpl. induction patterns as [|q rest IH]; simpl; [tauto|].
  intros Hin. destruct (String.eqb q p) eqn:E.
  - apply String.eqb_eq in E. now subst.
  - apply IH. destruct Hin as [->|Hin]; [|assumption].
    rewrite String.eqb_refl in E. discriminate.
Qed.

(** C2.  Every causal graph that synthesis returns, whether accepted from
    the generator or produced by the fallback, has at most 8 nodes and at
    most 10 edges, every edge runs between declared node ids, and the edges
    contain no directed cycle; so has every graph in a diagnosis. *)
Theorem returned_graph_well_formed
    (generator : nat -> Pipeline.GenerationRequest -> Pipeline.GenerationResponse)
    (fixed_temperature : Q) :
  (forall b g,
      Pipeline.outcome (Pipeline.synthesize generator fixed_temperature b)
      = Some (Pipeline.Ok g) ->
      Pipeline.well_formed g)
  /\ (forall store patterns max_hits now default_index minutes indexOverride d,
      Pipeline.diagnose generator fixed_temperature store patterns max_hits now
        default_index minutes indexOverride = Some (Pipeline.Ok d) ->
      Pipeline.well_formed (Pipeline.graph d)).
Proof.
  assert (Hsyn : forall b g,
      Pipeline.outcome (Pipeline.synthesize generator fixed_temperature b)
      = Some (Pipeline.Ok g) -> Pipeline.well_formed g).
  { intros b g H. apply synthesize_origin in H as [[raw Hraw]| ->].
    - now apply checked_graph_well_formed in Hraw.
    - apply minimal_graph_well_formed. }
  split; [exact Hsyn|].
  intros store patterns max_hits now default_index minutes indexOverride d.
  unfold Pipeline.diagnose.
  destruct (Pipeline.outcome _) as [[g|e]|] eqn:E; try discriminate.
  intros [= <-]. simpl. now apply Hsyn in E.
Qed.

Lemma returned_graph_well_formed_witness :
  Pipeline.well_formed Pipeline.chain_graph.
Proof.
  destruct (returned_graph_well_formed Pipeline.stumbling_generator (2 # 5)) as [Hsyn _].
  apply (Hsyn (Pipeline.assemble Pipeline.seeded_store Pipeline.pattern_files 100
                 "causalops-logs" (Pipeline.resolve_window 600000 None))).
  reflexivity.
Defined.

(** C4.  When every pattern's hit list is empty, synthesis goes from Idle
    straight to Fallback: it enters neither Requesting nor Repairing, sends
    no request to the generator, and returns a graph with at most 3 nodes,
    no edges and a [missingSignals] note. *)
Theorem empty_evidence_takes_fallback
    (generator : nat -> Pipeline.GenerationRequest -> Pipeline.GenerationResponse)
    (fixed_temperature : Q) (b : Pipeline.EvidenceBundle) :
  (forall p pe, In (p, pe) (Pipeline.evidence b) -> Pipeline.hits pe = []) ->
  Pipeline.trace (Pipeline.synthesize generator fixed_temperature b)
  = [Pipeline.Idle; Pipeline.Fallback]
  /\ Pipeline.generator_calls (Pipeline.synthesize generator fixed_temperature b) = 0
  /\ exists g note,
      Pipeline.outcome (Pipeline.synthesize generator fixed_temperature b)
      = Some (Pipeline.Ok g)
      /\ List.length (Pipeline.nodes g) <= 3
      /\ Pipeline.edges g = []
      /\ Pipeline.missingSignals g = Some note.
Proof.
  intros Hempty. apply no_hits_evidence_empty in Hempty as [He _].
  rewrite synthesize_runs, He. simpl Pipeline.trace. simpl Pipeline.generator_calls.
  simpl Pipeline.outcome.
  split; [reflexivity|]. split; [reflexivity|].
  destruct (minimal_graph_shape b) as [Hn [Hedges Hnote]].
  exists (Pipeline.minimal_graph b), Pipeline.missing_signals_note. auto.
Qed.

Lemma empty_evidence_takes_fallback_witness :
  let b := Pipeline.assemble Pipeline.down_store Pipeline.pattern_files 100
             "causalops-logs" (Pipeline.resolve_window 600000 None) in
  Pipeline.trace (Pipeline.synthesize Pipeline.steady_generator (2 # 5) b)
  = [Pipeline.Idle; Pipeline.Fallback]
  /\ Pipeline.generator_calls (Pipeline.synthesize Pipeline.steady_generator (2 # 5) b) = 0
  /\ exists g note,
      Pipeline.outcome (Pipeline.synthesize Pipeline.steady_generator (2 # 5) b)
      = Some (Pipeline.Ok g)
      /\ List.length (Pipeline.nodes g) <= 3
      /\ Pipeline.edges g = []
      /\ Pipeline.missingSignals g = Some note.
Proof.
  intros b. apply (empty_evidence_takes_fallback Pipeline.steady_generator (2 # 5) b).
  intros p pe Hin. simpl in Hin.
  repeat (destruct Hin as [Hin|Hin]; [inversion Hin; reflexivity|]).
  contradiction.
Defined.

(** C5.  The assembler always returns a bundle: a pattern whose store query
    fails, with StoreUnavailable or otherwise, is mapped to an empty hit
    list, a pattern whose query succeeds to its hits; and the diagnosis
    request does not fail on that account: with a generator that answers,
    it returns a diagnosis built on that bundle. *)
Theorem assembler_degrades_gracefully
    (store : string -> string -> Pipeline.Window
             -> Pipeline.Result (list Pipeline.Document) Pipeline.StoreError)
    (patterns : list string) (max_hits : nat) :
  (forall storeIndex w p,
      In p patterns ->
      Pipeline.bundle_hits p
        (Pipeline.evidence (Pipeline.assemble store patterns max_hits storeIndex w))
      = match store storeIndex p w with
        | Pipeline.Err _ => Some []
        | Pipeline.Ok docs =>
            Some (List.map (Pipeline.attach storeIndex)
                    (firstn max_hits (List.filter (Pipeline.in_window w) docs)))
        end)
  /\ (forall generator fixed_temperature now default_index minutes indexOverride,
      (forall n r, generator n r <> Pipeline.Unavailable) ->
      exists d,
        Pipeline.diagnose generator fixed_temperature store patterns max_hits now
          default_index minutes indexOverride = Some (Pipeline.Ok d)
        /\ Pipeline.diagnosis_evidence d
           = Pipeline.assemble store patterns max_hits
               (match indexOverride with Some i => i | None => default_index end)
               (Pipeline.resolve_window now minutes)).
Proof.
  split.
  - intros storeIndex w p Hin. rewrite bundle_hits_assemble by assumption.
    unfold Pipeline.hits_for, Pipeline.query.
    destruct (store storeIndex p w); reflexivity.
  - intros generator fixed_temperature now default_index minutes indexOverride Hup.
    unfold Pipeline.diagnose.
    destruct (synthesize_returns generator fixed_temperature
                (Pipeline.assemble store patterns max_hits
                   (match indexOverride with Some i => i | None => default_index end)
                   (Pipeline.resolve_window now minutes)) Hup) as [g Hg].
    rewrite Hg. eexists. split; reflexivity.
Qed.

Lemma assembler_degrades_gracefully_witness :
  Pipeline.bundle_hits "db_pool_exhaustion.eql"
    (Pipeline.evidence
       (Pipeline.assemble Pipeline.degraded_store Pipeline.pattern_files 100
          "causalops-logs" (Pipeline.resolve_window 600000 None)))
  = Some []
  /\ exists d,
      Pipeline.diagnose Pipeline.steady_generator (2 # 5) Pipeline.degraded_store
        Pipeline.pattern_files 100 600000 "causalops-logs" None None
      = Some (Pipeline.Ok d)
      /\ Pipeline.diagnosis_evidence d
         = Pipeline.assemble Pipeline.degraded_store Pipeline.pattern_files 100
             "causalops-logs" (Pipeline.resolve_window 600000 None).
Proof.
  destruct (assembler_degrades_gracefully Pipeline.degraded_store
              Pipeline.pattern_files 100) as [Hbundle Hdiagnose].
  split.
  - rewrite Hbundle; [reflexivity | simpl; auto].
  - apply (Hdiagnose Pipeline.steady_generator (2 # 5) 600000%Z "causalops-logs" None None).
    intros n r. discriminate.
Defined.

(** ** The validator accepts what conforms (pipeline model) *)
Section ValidatorAccepts.
Import JS Pipeline.

Lemma string_conforms p v : violations SString p v = [] -> exists s, v = VString s.
Proof. destruct v; simpl; try discriminate. eauto. Qed.

Lemma boolean_conforms p v : violations SBoolean p v = [] -> exists b, v = VBool b.
Proof. destruct v; simpl; try discriminate. eauto. Qed.

Lemma confidence_conforms p v :
  violations confidence_schema p v = [] -> exists c, as_confidence v = Some c.
Proof.
  unfold confidence_schema. destruct v as [| | | |x| |]; simpl violations; try discriminate.
  cbn [existsb].
  destruct (String.eqb x "high") eqn:E1; [apply String.eqb_eq in E1; subst; eauto|].
  destruct (String.eqb x "medium") eqn:E2; [apply String.eqb_eq in E2; subst; eauto|].
  destruct (String.eqb x "low") eqn:E3; [apply String.eqb_eq in E3; subst; eauto|].
  discriminate.
Qed.

Lemma concat_imap_nil {A B} (g : nat -> A -> list B) (l : list A) :
  List.concat (imap g l) = [] -> forall x, In x l -> exists i, g i x = [].
Proof.
  revert g. induction l as [|y l IH]; simpl; [tauto|].
  intros g H x [->|Hin]; apply app_eq_nil in H as [H1 H2].
  - eauto.
  - destruct (IH (fun i => g (S i)) H2 x Hin) as [i Hi]. eauto.
Qed.

Lemma items_conform items cap p xs :
  violations (SArray items cap) p (VArray xs) = [] ->
  forall x, In x xs -> exists q, violations items q x = [].
Proof.
  simpl. intros H x Hin. apply app_eq_nil in H as [_ H].
  destruct (concat_imap_nil _ _ H x Hin) as [i Hi]. eauto.
Qed.

Lemma get_without_key name fs : has_key name fs = false -> get name fs = VUndefined.
Proof.
  induction fs as [|[k x] fs IH]; simpl; [reflexivity|].
  destruct (String.eqb k name); simpl; [discriminate | exact IH].
Qed.

Lemma optional_conforms fields p fs name s :
  violations (SObject fields) p (VObject fs) = [] ->
  In (name, false, s) fields ->
  get name fs = VUndefined \/ violations s (p ++ [Field name]) (get name fs) = [].
Proof.
  simpl. intros H Hin.
  destruct (has_key name fs) eqn:Hk; [|left; now apply get_without_key].
  right. destruct (violations s (p ++ [Field name]) (get name fs)) eqn:E; [reflexivity|].
  exfalso. revert H. apply (flat_map_nonempty _ _ _ Hin). rewrite Hk, E. discriminate.
Qed.

Lemma object_conforms_is_object fields p v :
  violations (SObject fields) p v = [] -> exists fs, v = VObject fs.
Proof. destruct v; simpl; try discriminate. eauto. Qed.

Lemma mapM_all {A} (f : value -> option A) xs :
  (forall x, In x xs -> exists a, f x = Some a) -> exists l, mapM f xs = Some l.
Proof.
  induction xs as [|x xs IH]; intros H; [now exists []|].
  destruct (H x) as [a Ha]; [now left|].
  destruct IH as [l Hl]; [intros; apply H; now right|].
  exists (a :: l). simpl. now rewrite Ha, Hl.
Qed.

Lemma array_reads {A} (f : value -> option A) items cap p v :
  violations (SArray items cap) p v = [] ->
  (forall q x, violations items q x = [] -> exists a, f x = Some a) ->
  exists l, as_list f v = Some l.
Proof.
  intros H Hitem. destruct (array_within_cap _ _ _ _ H) as [xs [-> _]].
  simpl. apply mapM_all. intros x Hin.
  destruct (items_conform _ _ _ _ H x Hin) as [q Hq]. eauto.
Qed.

Ltac string_field H name :=
  let Hf := fresh "Hf" in
  pose proof (object_conforms _ _ _ name _ H ltac:(simpl; eauto 8)) as Hf;
  apply string_conforms in Hf as [? Hf]; rewrite Hf.

Lemma node_reads q x : violations node_schema q x = [] -> exists n, as_node x = Some n.
Proof.
  intros H. destruct (object_conforms_is_object _ _ _ H) as [fs ->].
  unfold node_schema in H. unfold as_node. simpl prop.
  string_field H "id". string_field H "label". simpl. eauto.
Qed.

Lemma edge_reads q x : violations edge_schema q x = [] -> exists e, as_edge x = Some e.
Proof.
  intros H. destruct (object_conforms_is_object _ _ _ H) as [fs ->].
  unfold edge_schema in H. unfold as_edge. simpl prop.
  string_field H "from". string_field H "to".
  pose proof (object_conforms _ _ _ "evidenceIds" _ H ltac:(simpl; eauto 8)) as Hids.
  destruct (array_reads as_string _ _ _ _ Hids) as [ids Hi].
  { intros q' x' Hx. apply string_conforms in Hx as [s' ->]. simpl. eauto. }
  pose proof (object_conforms _ _ _ "confidence" _ H ltac:(simpl; eauto 8)) as Hc.
  apply confidence_conforms in Hc as [c Hc].
  simpl. rewrite Hi. simpl. rewrite Hc. simpl. eauto.
Qed.

Lemma step_reads q x : violations step_schema q x = [] -> exists st, as_step x = Some st.
Proof.
  intros H. destruct (object_conforms_is_object _ _ _ H) as [fs ->].
  unfold step_schema in H. unfold as_step. simpl prop.
  string_field H "title". string_field H "command". string_field H "rationale".
  pose proof (object_conforms _ _ _ "requiresConfirmation" _ H ltac:(simpl; eauto 8)) as Hb.
  apply boolean_conforms in Hb as [b Hb].
  pose proof (object_conforms _ _ _ "confidence" _ H ltac:(simpl; eauto 8)) as Hc.
  apply confidence_conforms in Hc as [c Hc].
  simpl. rewrite Hb. simpl. rewrite Hc. simpl. eauto.
Qed.

(** A value without violations reads as the declared type: the validator
    returns a typed value exactly for the conforming values. *)
Lemma validate_accepts_conforming raw kind :
  violations (schema_of kind) [] raw = [] -> exists t, validate raw kind = Ok t.
Proof.
  intros H. unfold validate. rewrite H.
  destruct (object_conforms_is_object (match kind with
                                       | GraphSchema => _ | RunbookSchema => _ end)
              [] raw ltac:(destruct kind; exact H)) as [fs ->].
  destruct kind; simpl typed; unfold schema_of, graph_schema, runbook_schema in H.
  - pose proof (object_conforms _ _ _ "nodes" _ H ltac:(simpl; eauto)) as Hn.
    pose proof (object_conforms _ _ _ "edges" _ H ltac:(simpl; eauto)) as He.
    destruct (array_reads as_node _ _ _ _ Hn node_reads) as [ns Hns].
    destruct (array_reads as_edge _ _ _ _ He edge_reads) as [es Hes].
    unfold as_graph. simpl prop. rewrite Hns, Hes. simpl.
    destruct (optional_conforms _ _ _ "missingSignals" _ H ltac:(simpl; eauto))
      as [Hm|Hm].
    + rewrite Hm. simpl. eauto.
    + apply string_conforms in Hm as [note Hm]. rewrite Hm. simpl. eauto.
  - pose proof (object_conforms _ _ _ "steps" _ H ltac:(simpl; eauto)) as Hs.
    destruct (array_reads as_step _ _ _ _ Hs step_reads) as [ss Hss].
    unfold as_plan. simpl prop. string_field H "summary".
    rewrite Hss. simpl. eauto.
Qed.

End ValidatorAccepts.

(** The generator's chain answer validates and reads as the chain graph;
    an answer that lacks an edge's confidence is repaired on the retry. *)
Example validate_chain_answer :
  Pipeline.validate Pipeline.chain_answer Pipeline.GraphSchema
  = Pipeline.Ok (Pipeline.TGraph Pipeline.chain_graph).
Proof. reflexivity. Qed.

Example schema_violation_recovery :
  Pipeline.synthesize Pipeline.stumbling_generator (2 # 5)
    (Pipeline.assemble Pipeline.seeded_store Pipeline.pattern_files 100
       "causalops-logs" (Pipeline.resolve_window 600000 None))
  = {| Pipeline.trace :=
         [ Pipeline.Idle; Pipeline.Requesting; Pipeline.Validating;
           Pipeline.Repairing; Pipeline.Validating; Pipeline.Accepted ];
       Pipeline.generator_calls := 2;
       Pipeline.outcome := Some (Pipeline.Ok Pipeline.chain_graph) |}.
Proof. reflexivity. Qed.

(* ===================================================================== *)
(** * Part II, continued: the rest of the sources                          *)
(* ===================================================================== *)

(** ** Environment schemas (env.ts) *)
Section EnvSchemaFacts.
Import JS Zod Env EnvRules.

Lemma get_env_fields env name :
  get name (List.map (fun '(k, v) => (k, VString v)) (map_to_list env)) = raw_value env name.
Proof. exact (prop_of_env env name). Qed.

Lemma optional_string_raw_ok p env name :
  is_ok (optional (string_ []) p (raw_value env name)) = true.
Proof. unfold raw_value. destruct (env !! name); reflexivity. Qed.

Lemma optional_url_raw_ok is_url p env name :
  is_ok (optional (string_ [format is_url]) p (raw_value env name))
  = match env !! name with Some u => is_url u | None => true end.
Proof.
  unfold raw_value. destruct (env !! name) as [u|]; [|reflexivity].
  simpl. unfold format. destruct (is_url u); reflexivity.
Qed.

Lemma default_string_raw_ok p env name d :
  is_ok (default (string_ []) (VString d) p (raw_value env name)) = true.
Proof. unfold raw_value. destruct (env !! name); reflexivity. Qed.

Lemma default_url_raw_ok is_url p env name d :
  is_url d = true ->
  is_ok (default (string_ [format is_url]) (VString d) p (raw_value env name))
  = match env !! name with Some u => is_url u | None => true end.
Proof.
  intros Hd. unfold raw_value. destruct (env !! name) as [u|]; simpl; unfold format.
  - destruct (is_url u); reflexivity.
  - now rewrite Hd.
Qed.

Lemma node_env_raw_ok p env :
  is_ok (default (enum ["development"; "production"; "test"]) (VString "development") p
           (raw_value env "NODE_ENV"))
  = match env !! "NODE_ENV" with Some s => mem s node_envs | None => true end.
Proof.
  unfold raw_value. destruct (env !! "NODE_ENV") as [s|]; [|reflexivity].
  unfold default, enum. fold node_envs. destruct (mem s node_envs); reflexivity.
Qed.

Lemma port_raw_ok p env name d :
  is_ok (number_ [int; nmin 1; nmax 65535] p (VNumber (Finite (inject_Z d)))) = true ->
  is_ok (default (number_ [int; nmin 1; nmax 65535]) (VNumber (Finite (inject_Z d))) p
           (raw_value env name))
  = match env !! name with Some _ => false | None => true end.
Proof.
  intros Hd. unfold raw_value. destruct (env !! name); [reflexivity | exact Hd].
Qed.

(** A string that is not empty has at least one code unit. *)
Lemma length_nonempty a s : exists n, JS.length (String a s) = S n.
Proof.
  unfold JS.length. cbn [code_units].
  destruct (Nat.leb 128 (nat_of_ascii a) && Nat.ltb (nat_of_ascii a) 192); [eauto|].
  destruct (Nat.ltb (nat_of_ascii a) 128); [eauto|].
  destruct (Nat.ltb (nat_of_ascii a) 224); [eauto|].
  destruct (Nat.ltb (nat_of_ascii a) 240); eauto.
Qed.

Lemma required_string_raw_ok p env name :
  is_ok (string_ [min 1] p (raw_value env name)) = truthy (raw_value env name).
Proof.
  unfold raw_value. destruct (env !! name) as [s|]; [|reflexivity].
  destruct s as [|a s]; [reflexivity|].
  destruct (length_nonempty a s) as [n Hn].
  unfold string_, run_checks, min. cbn [flat_map]. now rewrite Hn.
Qed.

Lemma mem_node_envs s : mem s node_envs = true <-> In s node_envs.
Proof.
  unfold mem. rewrite existsb_exists. split.
  - intros [x [Hin Hx]]. apply String.eqb_eq in Hx. now subst.
  - intros Hin. exists s. split; [assumption | apply String.eqb_refl].
Qed.

(** Acceptance by the agent schema, variable by variable. *)
Lemma agent_schema_is_ok is_url env :
  is_ok (parse (agentEnvSchema is_url) (of_env env)) = true
  <-> agent_schema_ok is_url env.
Proof.
  unfold parse, agentEnvSchema, of_env. rewrite object_is_ok.
  cbn [forallb List.app baseEnvShape fst snd].
  rewrite !get_env_fields.
  rewrite node_env_raw_ok, (port_raw_ok _ _ "AGENT_PORT" 3001) by reflexivity.
  rewrite required_string_raw_ok, !optional_string_raw_ok, optional_url_raw_ok,
    default_string_raw_ok.
  rewrite !andb_true_r. rewrite !andb_true_iff, truthy_raw_value.
  unfold agent_schema_ok, unset_or.
  destruct (env !! "NODE_ENV") as [s|]; destruct (env !! "AGENT_PORT");
    destruct (env !! "ELASTIC_NODE"); rewrite ?mem_node_envs;
    intuition (try discriminate; auto).
Qed.

(** Acceptance by the web schema, variable by variable. *)
Lemma web_schema_is_ok is_url env :
  is_url "http://localhost:3001" = true ->
  is_ok (parse (webEnvSchema is_url) (of_env env)) = true
  <-> web_schema_ok is_url env.
Proof.
  intros Hd. unfold parse, webEnvSchema, of_env. rewrite object_is_ok.
  cbn [forallb List.app baseEnvShape fst snd].
  rewrite !get_env_fields.
  rewrite node_env_raw_ok, (port_raw_ok _ _ "WEB_PORT" 3000) by reflexivity.
  rewrite (default_url_raw_ok _ _ _ _ _ Hd).
  rewrite !andb_true_r. rewrite !andb_true_iff.
  unfold web_schema_ok, unset_or.
  destruct (env !! "NODE_ENV") as [s|]; destruct (env !! "WEB_PORT");
    destruct (env !! "NEXT_PUBLIC_AGENT_URL"); rewrite ?mem_node_envs;
    intuition (try discriminate; auto).
Qed.

Lemma parse_or_throw_cases t input :
  match parse_or_throw t input with
  | Return d => parse t input = OK d
  | Throw e => exists issues, e = ZodError issues /\ parse t input = INVALID issues
  end.
Proof. unfold parse_or_throw. destruct (parse t input); eauto. Qed.

Lemma select_elasticsearch_throws parsedEnv e :
  select_elasticsearch parsedEnv = Throw e -> e = Error missing_credentials.
Proof.
  unfold select_elasticsearch.
  destruct (negb _ && negb _); [now intros [= <-]|].
  destruct parsedEnv; discriminate.
Qed.

End EnvSchemaFacts.

(** X1.  [validateAgentEnvironment] throws a ZodError exactly when the
    environment breaks the agent schema: NODE_ENV set outside its three
    values, AGENT_PORT set at all (the schema wants a number and the
    environment holds strings), GCP_PROJECT_ID unset or empty, or
    ELASTIC_NODE set to something that is no URL. *)
Theorem validateAgentEnvironment_schema_errors
    (is_url : string -> bool) (env : gmap string string) :
  (exists issues, Env.validateAgentEnvironment is_url env = JS.Throw (JS.ZodError issues))
  <-> ~ EnvRules.agent_schema_ok is_url env.
Proof.
  rewrite <- agent_schema_is_ok. unfold Env.validateAgentEnvironment.
  pose proof (parse_or_throw_cases (Env.agentEnvSchema is_url) (Env.of_env env)) as Hc.
  destruct (Env.parse_or_throw _ _) as [parsedEnv|e].
  - rewrite Hc. simpl. split; [|intros H; now elim H].
    intros [issues H]. apply select_elasticsearch_throws in H. discriminate.
  - destruct Hc as [issues [-> Hp]]. rewrite Hp. simpl.
    split; [intros _; discriminate | eauto].
Qed.

Section EnvResultFacts.
Import JS Zod Env EnvRules.

Lemma default_string_ok d p v x :
  default (string_ []) (VString d) p v = OK x ->
  x = match v with VUndefined => VString d | _ => v end.
Proof.
  destruct v; simpl; try discriminate; now intros [= <-].
Qed.

Lemma agent_shape_In is_url name t :
  In (name, t)
     (baseEnvShape ++
      [ ("AGENT_PORT", default (number_ [int; nmin 1; nmax 65535]) (num 3001));
        ("GCP_PROJECT_ID", string_ [min 1]);
        ("GOOGLE_APPLICATION_CREDENTIALS", optional (string_ []));
        ("ELASTIC_CLOUD_ID", optional (string_ []));
        ("ELASTIC_API_KEY", optional (string_ []));
        ("ELASTIC_NODE", optional (string_ [format is_url]));
        ("ELASTIC_USERNAME", optional (string_ []));
        ("ELASTIC_PASSWORD", optional (string_ []));
        ("ELASTIC_INDEX", default (string_ []) (VString "causalops-logs")) ]) ->
  forall env parsedEnv,
    parse_or_throw (agentEnvSchema is_url) (of_env env) = Return parsedEnv ->
    t [Key name] (raw_value env name) = OK (prop name parsedEnv).
Proof.
  intros Hin env parsedEnv H.
  unfold parse_or_throw, parse, agentEnvSchema in H.
  destruct (object _ _ _) as [d|errs] eqn:E; [|discriminate].
  inversion H; subst d; clear H.
  destruct (object_get _ _ _ _ _ _ E agentEnv_keys Hin) as [fields [Hf Hp]].
  rewrite <- prop_of_env, Hf. exact Hp.
Qed.

Lemma parsed_index is_url env parsedEnv :
  parse_or_throw (agentEnvSchema is_url) (of_env env) = Return parsedEnv ->
  prop "ELASTIC_INDEX" parsedEnv = VString (or_default env "ELASTIC_INDEX" "causalops-logs").
Proof.
  intros H.
  pose proof (agent_shape_In is_url "ELASTIC_INDEX" _ ltac:(simpl; tauto) env parsedEnv H) as Hp.
  apply default_string_ok in Hp. rewrite Hp.
  unfold raw_value, or_default. destruct (env !! "ELASTIC_INDEX"); reflexivity.
Qed.

Lemma parsed_node_env is_url env parsedEnv :
  parse_or_throw (agentEnvSchema is_url) (of_env env) = Return parsedEnv ->
  prop "NODE_ENV" parsedEnv = VString (or_default env "NODE_ENV" "development").
Proof.
  intros H.
  pose proof (agent_shape_In is_url "NODE_ENV" _ ltac:(simpl; tauto) env parsedEnv H) as Hp.
  unfold raw_value, or_default in *. destruct (env !! "NODE_ENV") as [s|].
  - unfold default in Hp. apply enum_ok in Hp as [s' [_ [Hd _]]]. now rewrite Hd.
  - simpl in Hp. now injection Hp as <-.
Qed.

Lemma parsed_port is_url env parsedEnv :
  parse_or_throw (agentEnvSchema is_url) (of_env env) = Return parsedEnv ->
  prop "AGENT_PORT" parsedEnv = num 3001.
Proof.
  intros H.
  pose proof (agent_shape_In is_url "AGENT_PORT" _ ltac:(simpl; tauto) env parsedEnv H) as Hp.
  unfold raw_value in Hp. destruct (env !! "AGENT_PORT"); [discriminate|].
  simpl in Hp. now injection Hp as <-.
Qed.

Lemma parsed_project is_url env parsedEnv :
  parse_or_throw (agentEnvSchema is_url) (of_env env) = Return parsedEnv ->
  prop "GCP_PROJECT_ID" parsedEnv = raw_value env "GCP_PROJECT_ID".
Proof.
  intros H.
  pose proof (agent_shape_In is_url "GCP_PROJECT_ID" _ ltac:(simpl; tauto) env parsedEnv H) as Hp.
  unfold string_, finish in Hp. destruct (raw_value env "GCP_PROJECT_ID"); try discriminate.
  destruct (run_checks _ _ _); [now injection Hp as <- | discriminate].
Qed.

Lemma parsed_optional_name is_url env parsedEnv name :
  parse_or_throw (agentEnvSchema is_url) (of_env env) = Return parsedEnv ->
  In name optional_names ->
  prop name parsedEnv = raw_value env name.
Proof.
  intros H Hin. simpl in Hin.
  destruct Hin as [<-|[<-|[<-|[<-|[<-|[<-|[]]]]]]].
  all: try (eapply (parsed_optional is_url env parsedEnv _ []); [exact H | simpl; tauto]).
  eapply (parsed_optional is_url env parsedEnv _ [format is_url]); [exact H | simpl; tauto].
Qed.

Lemma parsed_keys is_url env fields :
  parse_or_throw (agentEnvSchema is_url) (of_env env) = Return (VObject fields) ->
  incl (List.map fst fields) agent_names.
Proof.
  unfold parse_or_throw, parse, agentEnvSchema, object, of_env, merged.
  destruct (merge _) as [out|] eqn:E; [|discriminate]. intros [= <-].
  apply merge_keys in E. rewrite List.map_map in E.
  intros k Hk. apply E in Hk. exact Hk.
Qed.

(** What [validateAgentEnvironment] returns, with the Elasticsearch
    configuration spelled out. *)
Lemma validate_returns is_url env r :
  validateAgentEnvironment is_url env = Return r ->
  exists fields,
    parse_or_throw (agentEnvSchema is_url) (of_env env) = Return (VObject fields)
    /\ r = VObject
             (set "elasticsearch"
                (if has_cloud env
                 then VObject
                        [ ("type", VString "cloud");
                          ("cloudId", raw_value env "ELASTIC_CLOUD_ID");
                          ("apiKey", raw_value env "ELASTIC_API_KEY");
                          ("index", VString (or_default env "ELASTIC_INDEX" "causalops-logs")) ]
                 else VObject
                        [ ("type", VString "local");
                          ("node", raw_value env "ELASTIC_NODE");
                          ("username", raw_value env "ELASTIC_USERNAME");
                          ("password", raw_value env "ELASTIC_PASSWORD");
                          ("index", VString (or_default env "ELASTIC_INDEX" "causalops-logs")) ])
                fields).
Proof.
  unfold validateAgentEnvironment.
  destruct (parse_or_throw _ _) as [parsedEnv|e] eqn:H; [|discriminate].
  destruct (parsed_is_object _ _ _ H) as [fields ->].
  intros Hr. exists fields. split; [reflexivity|].
  unfold select_elasticsearch in Hr.
  rewrite !(parsed_optional_name is_url env _ _ H) in Hr by (simpl; tauto).
  rewrite (parsed_index _ _ _ H), !truthy_and in Hr.
  fold (has_cloud env) in Hr. fold (has_local env) in Hr.
  destruct (negb (has_cloud env) && negb (has_local env)); [discriminate|].
  now injection Hr as <-.
Qed.

End EnvResultFacts.



(** X3.  The result of [validateAgentEnvironment] holds the variables of the
    agent schema and the [elasticsearch] configuration, nothing else of the
    environment: the optional variables as they are set, NODE_ENV with its
    default 'development', and AGENT_PORT always 3001. *)
Theorem validateAgentEnvironment_result_fields
    (is_url : string -> bool) (env : gmap string string) (r : JS.value) :
  Env.validateAgentEnvironment is_url env = JS.Return r ->
  (forall name,
      ~ In name (EnvRules.agent_names ++ ["elasticsearch"]) ->
      JS.prop name r = JS.VUndefined)
  /\ (forall name,
      In name EnvRules.optional_names -> JS.prop name r = Env.raw_value env name)
  /\ JS.prop "NODE_ENV" r = JS.VString (EnvRules.or_default env "NODE_ENV" "development")
  /\ JS.prop "AGENT_PORT" r = Env.num 3001
  /\ JS.prop "GCP_PROJECT_ID" r = Env.raw_value env "GCP_PROJECT_ID".
Proof.
  intros H. apply validate_returns in H as [fields [Hp ->]].
  assert (Hother : forall es name, name <> "elasticsearch" ->
            JS.prop name (JS.VObject (JS.set "elasticsearch" es fields))
            = JS.prop name (JS.VObject fields)).
  { intros es name Hne. simpl. apply get_set_ne. congruence. }
  split; [|split; [|split; [|split]]].
  - intros name Hn. rewrite Hother by (intros ->; apply Hn; apply in_or_app; simpl; auto).
    simpl. apply get_absent. intros Hk. apply Hn. apply in_or_app. left.
    eapply parsed_keys; eauto.
  - intros name Hin. rewrite Hother.
    + now apply (parsed_optional_name is_url env).
    + intros ->. simpl in Hin. intuition discriminate.
  - rewrite Hother by discriminate. now apply (parsed_node_env is_url).
  - rewrite Hother by discriminate. now apply (parsed_port is_url env).
  - rewrite Hother by discriminate. now apply (parsed_project is_url).
Qed.

Lemma validateAgentEnvironment_result_fields_witness :
  let env : gmap string string :=
    {[ "GCP_PROJECT_ID" := "demo-project";
       "ELASTIC_CLOUD_ID" := "deployment:abc";
       "ELASTIC_API_KEY" := "secret";
       "PATH" := "/usr/bin" ]} in
  exists r,
    Env.validateAgentEnvironment (fun _ => false) env = JS.Return r
    /\ JS.prop "PATH" r = JS.VUndefined /\ JS.prop "AGENT_PORT" r = Env.num 3001.
Proof.
  intros env.
  destruct (Env.validateAgentEnvironment (fun _ => false) env) as [r|e] eqn:Hr;
    [|vm_compute in Hr; discriminate].
  exists r. split; [reflexivity|].
  destruct (validateAgentEnvironment_result_fields (fun _ => false) env r Hr)
    as [Hother [_ [_ [Hport _]]]].
  split; [|exact Hport].
  apply Hother. simpl. intuition discriminate.
Defined.

Section StartupFacts.
Import JS Zod Env EnvRules.

Lemma merge_defined pairs out :
  Forall2 (fun (pr : string * bool * ParseResult) (kd : string * value) =>
             key_of pr = fst kd /\ String.eqb (fst kd) "__proto__" = false
             /\ result_of pr = OK (snd kd)
             /\ is_undefined (snd kd) = false) pairs out ->
  merge pairs = inl out.
Proof.
  induction 1 as [|[[k a] r] [k' d] pairs out [Hk [Hp [Hr Hd]]] _ IH]; [reflexivity|].
  unfold key_of, result_of in *. simpl in *. subst. rewrite IH, Hp, Hd, orb_true_r. reflexivity.
Qed.

(** The three ways [validateAgentEnvironment] ends. *)
Lemma validateAgentEnvironment_cases is_url env :
  match validateAgentEnvironment is_url env with
  | Return r => agent_schema_ok is_url env /\ (cloud_credentials env \/ local_credentials env)
  | Throw (ZodError _) => ~ agent_schema_ok is_url env
  | Throw (Error m) =>
      m = missing_credentials /\ agent_schema_ok is_url env
      /\ ~ (cloud_credentials env \/ local_credentials env)
  end.
Proof.
  pose proof (agent_schema_is_ok is_url env) as Hok.
  pose proof (parse_or_throw_cases (agentEnvSchema is_url) (of_env env)) as Hc.
  destruct (parse_or_throw (agentEnvSchema is_url) (of_env env)) as [parsedEnv|e] eqn:Hp.
  - rewrite Hc in Hok. simpl in Hok.
    destruct (validate_after_parse _ _ _ Hp) as [fields [es [_ [_ Hv]]]].
    rewrite Hv.
    pose proof (has_cloud_iff env) as Hcl. pose proof (has_local_iff env) as Hlo.
    destruct (has_cloud env), (has_local env); simpl; intuition discriminate.
  - unfold validateAgentEnvironment. rewrite Hp.
    destruct Hc as [issues [-> Hi]]. rewrite Hi in Hok. simpl in Hok.
    intros H. apply Hok in H. discriminate.
Qed.

Lemma web_field_values is_url env :
  is_url "http://localhost:3001" = true ->
  web_schema_ok is_url env ->
  default (enum ["development"; "production"; "test"]) (VString "development")
    [Key "NODE_ENV"] (raw_value env "NODE_ENV")
  = OK (VString (or_default env "NODE_ENV" "development"))
  /\ default (number_ [int; nmin 1; nmax 65535]) (num 3000)
       [Key "WEB_PORT"] (raw_value env "WEB_PORT")
     = OK (num 3000)
  /\ default (string_ [format is_url]) (VString "http://localhost:3001")
       [Key "NEXT_PUBLIC_AGENT_URL"] (raw_value env "NEXT_PUBLIC_AGENT_URL")
     = OK (VString (or_default env "NEXT_PUBLIC_AGENT_URL" "http://localhost:3001")).
Proof.
  intros Hd [Hn [Hp Hu]]. unfold raw_value, or_default, unset_or in *.
  rewrite Hp. split; [|split; [reflexivity|]].
  - destruct (env !! "NODE_ENV") as [s|]; [|reflexivity].
    apply mem_node_envs in Hn. unfold default, enum. fold node_envs. now rewrite Hn.
  - destruct (env !! "NEXT_PUBLIC_AGENT_URL") as [u|]; simpl; unfold format.
    + now rewrite Hu.
    + now rewrite Hd.
Qed.

(** The ways [validateWebEnvironment] ends. *)
Lemma validateWebEnvironment_cases is_url env :
  is_url "http://localhost:3001" = true ->
  match validateWebEnvironment is_url env with
  | Return r =>
      web_schema_ok is_url env
      /\ r = VObject
               [ ("NODE_ENV", VString (or_default env "NODE_ENV" "development"));
                 ("WEB_PORT", num 3000);
                 ("NEXT_PUBLIC_AGENT_URL",
                  VString (or_default env "NEXT_PUBLIC_AGENT_URL" "http://localhost:3001")) ]
  | Throw (ZodError _) => ~ web_schema_ok is_url env
  | Throw (Error _) => False
  end.
Proof.
  intros Hd.
  pose proof (web_schema_is_ok is_url env Hd) as Hok.
  unfold validateWebEnvironment, parse_or_throw.
  destruct (parse (webEnvSchema is_url) (of_env env)) as [d|errs] eqn:Hp.
  - simpl in Hok. assert (Hw : web_schema_ok is_url env) by now apply Hok.
    split; [exact Hw|].
    destruct (web_field_values is_url env Hd Hw) as [H1 [H2 H3]].
    unfold parse, webEnvSchema, object, of_env, merged in Hp.
    cbn [List.map List.app baseEnvShape] in Hp.
    rewrite !get_env_fields in Hp. simpl List.app in Hp.
    rewrite H1, H2, H3 in Hp.
    erewrite merge_defined in Hp; [now injection Hp as <-|].
    repeat constructor.
  - simpl in Hok. intros H. apply Hok in H. discriminate.
Qed.

End StartupFacts.

(** X4.  [validateWebEnvironment] returns exactly when NODE_ENV is unset or
    one of its three values, WEB_PORT is unset (the schema wants a number
    and the environment holds strings) and NEXT_PUBLIC_AGENT_URL is unset
    or a URL; it then returns those three variables with their defaults
    and nothing else.  Otherwise it throws a ZodError. *)
Theorem validateWebEnvironment_result
    (is_url : string -> bool) (env : gmap string string) :
  is_url "http://localhost:3001" = true ->
  (EnvRules.web_schema_ok is_url env ->
   Env.validateWebEnvironment is_url env
   = JS.Return
       (JS.VObject
          [ ("NODE_ENV", JS.VString (EnvRules.or_default env "NODE_ENV" "development"));
            ("WEB_PORT", Env.num 3000);
            ("NEXT_PUBLIC_AGENT_URL",
             JS.VString (EnvRules.or_default env "NEXT_PUBLIC_AGENT_URL"
                           "http://localhost:3001")) ]))
  /\ (~ EnvRules.web_schema_ok is_url env ->
      exists issues, Env.validateWebEnvironment is_url env = JS.Throw (JS.ZodError issues)).
Proof.
  intros Hd. pose proof (validateWebEnvironment_cases is_url env Hd) as Hc.
  destruct (Env.validateWebEnvironment is_url env) as [r|[m|issues]].
  - destruct Hc as [Hw ->]. split; [reflexivity | tauto].
  - contradiction.
  - split; [tauto | eauto].
Qed.

Lemma validateWebEnvironment_result_witness :
  Env.validateWebEnvironment (String.prefix "http")
    {[ "NODE_ENV" := "production"; "HOME" := "/root" ]}
  = JS.Return
      (JS.VObject
         [ ("NODE_ENV", JS.VString "production");
           ("WEB_PORT", Env.num 3000);
           ("NEXT_PUBLIC_AGENT_URL", JS.VString "http://localhost:3001") ])
  /\ exists issues,
      Env.validateWebEnvironment (String.prefix "http") {[ "WEB_PORT" := "3000" ]}
      = JS.Throw (JS.ZodError issues).
Proof.
  split.
  - destruct (validateWebEnvironment_result (String.prefix "http")
                {[ "NODE_ENV" := "production"; "HOME" := "/root" ]} eq_refl) as [Hok _].
    rewrite Hok; [reflexivity|].
    repeat split; try reflexivity. vm_compute. auto.
  - destruct (validateWebEnvironment_result (String.prefix "http")
                {[ "WEB_PORT" := "3000" ]} eq_refl) as [_ Hbad].
    apply Hbad. intros [_ [Hport _]]. vm_compute in Hport. discriminate.
Defined.

(** X5.  Agent start-up ([createEnvironmentValidator] around
    [validateAgentEnvironment]) ends in one of three ways: it returns the
    validated environment; it reports the issues and exits with status 1,
    exactly when the environment breaks the agent schema; or, when the
    schema is met but neither credential set is complete, it throws the
    missing-credentials Error to its caller instead of exiting. *)
Theorem agent_startup_outcomes
    (message : Zod.ZodIssue -> string) (is_url : string -> bool)
    (env : gmap string string) :
  match snd (AppEnv.agent_env message is_url env) with
  | Startup.Returns r => Env.validateAgentEnvironment is_url env = JS.Return r
  | Startup.Exits code => code = 1%Z /\ ~ EnvRules.agent_schema_ok is_url env
  | Startup.Throws e =>
      e = JS.Error Env.missing_credentials
      /\ EnvRules.agent_schema_ok is_url env
      /\ ~ (Env.cloud_credentials env \/ Env.local_credentials env)
  end.
Proof.
  unfold AppEnv.agent_env, AppEnv.agent_validateEnv, Startup.createEnvironmentValidator.
  pose proof (validateAgentEnvironment_cases is_url env) as Hc.
  destruct (Env.validateAgentEnvironment is_url env) as [r|[m|issues]]; simpl.
  - reflexivity.
  - destruct Hc as [-> Hc]. auto.
  - auto.
Qed.

(** X6.  Web start-up never throws: it returns the three web variables with
    their defaults, or, exactly when the environment breaks the web schema,
    reports the issues and exits with status 1. *)
Theorem web_startup_outcomes
    (message : Zod.ZodIssue -> string) (is_url : string -> bool)
    (env : gmap string string) :
  is_url "http://localhost:3001" = true ->
  match snd (AppEnv.web_env message is_url env) with
  | Startup.Returns r =>
      EnvRules.web_schema_ok is_url env
      /\ Env.validateWebEnvironment is_url env = JS.Return r
  | Startup.Exits code => code = 1%Z /\ ~ EnvRules.web_schema_ok is_url env
  | Startup.Throws _ => False
  end.
Proof.
  intros Hd.
  unfold AppEnv.web_env, AppEnv.web_validateEnv, Startup.createEnvironmentValidator.
  pose proof (validateWebEnvironment_cases is_url env Hd) as Hc.
  destruct (Env.validateWebEnvironment is_url env) as [r|[m|issues]]; simpl.
  - destruct Hc as [Hw _]. auto.
  - contradiction.
  - auto.
Qed.

Lemma web_startup_outcomes_witness :
  match snd (AppEnv.web_env (fun _ => "Expected number, received string")
               (String.prefix "http") {[ "WEB_PORT" := "3000" ]}) with
  | Startup.Returns r =>
      EnvRules.web_schema_ok (String.prefix "http") {[ "WEB_PORT" := "3000" ]}
      /\ Env.validateWebEnvironment (String.prefix "http") {[ "WEB_PORT" := "3000" ]}
         = JS.Return r
  | Startup.Exits code =>
      code = 1%Z
      /\ ~ EnvRules.web_schema_ok (String.prefix "http") {[ "WEB_PORT" := "3000" ]}
  | Startup.Throws _ => False
  end.
Proof.
  apply (web_startup_outcomes (fun _ => "Expected number, received string")
           (String.prefix "http") {[ "WEB_PORT" := "3000" ]}).
  reflexivity.
Defined.

(** ** Log documents, bulk requests and index requests (elastic-index.ts) *)
Section DocumentFacts.
Import JS Zod ElasticIndex ElasticIndexRules.

Lemma run_checks_nil_anywhere {A} (checks : list (Refinement A)) p p' (a : A) :
  run_checks checks p a = [] -> run_checks checks p' a = [].
Proof.
  unfold run_checks. induction checks as [|c checks IH]; simpl; [reflexivity|].
  destruct (c a); simpl; [discriminate | exact IH].
Qed.

Lemma string_transparent checks : transparent (string_ checks).
Proof.
  intros p v d. unfold string_, finish. destruct v; try discriminate.
  destruct (run_checks checks p s) eqn:E; [|discriminate].
  intros [= <-]. split; [reflexivity|]. intros p'.
  now rewrite (run_checks_nil_anywhere _ _ p' _ E).
Qed.

Lemma number_transparent checks : transparent (number_ checks).
Proof.
  intros p v d. unfold number_, finish. destruct v as [| | |n| | |]; try discriminate.
  destruct n; try discriminate.
  all: destruct (run_checks checks p _) eqn:E; [|discriminate].
  all: intros [= <-]; split; [reflexivity|]; intros p'.
  all: now rewrite (run_checks_nil_anywhere _ _ p' _ E).
Qed.

Lemma boolean_transparent : transparent boolean.
Proof.
  intros p v d. destruct v; simpl; try discriminate. intros [= <-]. auto.
Qed.

Lemma any_transparent : transparent any.
Proof. intros p v d [= <-]. auto. Qed.

Lemma enum_transparent values : transparent (enum values).
Proof.
  intros p v d. unfold enum. destruct v; try discriminate.
  destruct (mem s values) eqn:E; [|discriminate].
  intros [= <-]. split; reflexivity.
Qed.

Lemma union_transparent options :
  Forall transparent options -> transparent (union options).
Proof.
  induction 1 as [|t options Ht _ IH]; intros p v d; simpl; [discriminate|].
  destruct (t p v) as [d'|errs] eqn:E.
  - intros [= <-]. destruct (Ht _ _ _ E) as [-> Hany].
    split; [reflexivity|]. intros p'. now rewrite Hany.
  - intros H. destruct (IH _ _ _ H) as [-> Hany]. split; [reflexivity|].
    intros p'. destruct (t p' v) as [d'|errs'] eqn:E'.
    + destruct (Ht _ _ _ E') as [-> _]. reflexivity.
    + apply Hany.
Qed.

Lemma optional_transparent t : transparent t -> transparent (optional t).
Proof.
  intros Ht p v d. unfold optional. destruct v; try apply Ht.
  intros [= <-]. auto.
Qed.

Lemma record_merge_own (t : ZodType) (f : string -> list PathSeg) entries :
  (forall kx, In kx entries -> t (f (fst kx)) (snd kx) = OK (snd kx)) ->
  merge (List.map (fun '(k, x) => (k, true, t (f k) x)) entries) = inl (own_entries entries).
Proof.
  induction entries as [|[k x] entries IH]; intros H; [reflexivity|].
  pose proof (H (k, x) (or_introl eq_refl)) as Hx. simpl in Hx.
  simpl. rewrite Hx. rewrite IH by (intros kx Hin; apply H; now right).
  rewrite andb_true_r. reflexivity.
Qed.

Lemma record_entries_ok (t : ZodType) (f : string -> list PathSeg) entries out :
  merge (List.map (fun '(k, x) => (k, true, t (f k) x)) entries) = inl out ->
  forall kx, In kx entries -> exists d, t (f (fst kx)) (snd kx) = OK d.
Proof.
  revert out. induction entries as [|[k x] entries IH]; simpl; intros out H kx Hin;
    [contradiction|].
  destruct (t (f k) x) as [d|errs] eqn:E;
    destruct (merge _) as [out'|errs'] eqn:E'; try discriminate.
  destruct Hin as [<-|Hin]; [simpl; eauto | eapply IH; eauto].
Qed.

Lemma own_entries_idem entries : own_entries (own_entries entries) = own_entries entries.
Proof.
  unfold own_entries. induction entries as [|[k x] entries IH]; [reflexivity|]. simpl.
  destruct (negb (String.eqb k "__proto__")) eqn:E; simpl; [rewrite E, IH|]; auto.
Qed.

(** A record of values handed out as they are hands out its entries as
    they are, except the one under [__proto__], wherever it sits. *)
Lemma record_output t :
  transparent t ->
  forall p v d, record t p v = OK d ->
    d = without_proto v /\ forall p', record t p' v = OK (without_proto v).
Proof.
  intros Ht p v d. unfold record, merged. destruct v as [| | | | | |entries]; try discriminate.
  destruct (merge _) as [out|errs] eqn:E; [|discriminate]. intros [= <-].
  assert (Hentries : forall p' kx, In kx entries ->
            t (p' ++ [Key (fst kx)]) (snd kx) = OK (snd kx)).
  { intros p' kx Hin.
    destruct (record_entries_ok t (fun k => p ++ [Key k]) _ _ E kx Hin) as [d Hd].
    now apply Ht in Hd as [_ Hany]. }
  rewrite (record_merge_own t (fun k => p ++ [Key k])) in E by (intros; now apply Hentries).
  injection E as <-. split; [reflexivity|]. intros p'.
  now rewrite (record_merge_own t (fun k => p' ++ [Key k]))
    by (intros; now apply Hentries).
Qed.

Lemma record_stable t : transparent t -> stable (record t).
Proof.
  intros Ht p v d H p'. destruct (record_output t Ht _ _ _ H) as [-> _].
  unfold record, merged in *. destruct v as [| | | | | |entries]; try discriminate.
  destruct (merge _) as [out|errs] eqn:E; [|discriminate]. simpl.
  rewrite (record_merge_own t (fun k => p' ++ [Key k])).
  - now rewrite own_entries_idem.
  - intros kx Hin. apply List.filter_In in Hin as [Hin _].
    destruct (record_entries_ok t (fun k => p ++ [Key k]) _ _ E kx Hin) as [d Hd].
    now apply Ht in Hd as [_ Hany].
Qed.

Lemma optional_stable t : stable t -> stable (optional t).
Proof.
  intros Ht p v d H p'.
  assert (Hd : d = VUndefined \/ t p' d = OK d).
  { unfold optional in H. destruct v; try (right; exact (Ht _ _ _ H p')).
    left. now injection H as <-. }
  unfold optional. destruct Hd as [->|Hd]; [reflexivity|]. now destruct d.
Qed.

Lemma transparent_stable t : transparent t -> stable t.
Proof. intros Ht p v d H p'. destruct (Ht _ _ _ H) as [-> Hany]. apply Hany. Qed.

Lemma merge_has_key pairs out k a d :
  merge pairs = inl out ->
  List.NoDup ("__proto__" :: List.map key_of pairs) ->
  In (k, a, OK d) pairs ->
  has_key k out = a || negb (is_undefined d).
Proof.
  intros H Hd. apply distinct_of_proto in Hd as [Hp Hnd]. revert out H Hp Hnd.
  induction pairs as [|[[k0 a0] r0] rest IH]; simpl; intros out H Hp Hnd Hin.
  - contradiction.
  - inversion Hnd as [|? ? Hnotin Hnd']; subst.
    destruct r0 as [d0|errs]; destruct (merge rest) as [out'|errs'] eqn:E; try discriminate.
    inversion H; subst out; clear H.
    rewrite not_proto by (unfold key_of in Hp; simpl in Hp; intuition congruence).
    rewrite andb_true_l.
    assert (Hk0 : has_key k0 out' = false).
    { destruct (has_key k0 out') eqn:Hk; [|reflexivity]. exfalso. apply Hnotin.
      eapply merge_keys; eauto. clear -Hk.
      induction out' as [|[k' x] out' IH]; simpl in *; [discriminate|].
      destruct (String.eqb k' k0) eqn:E'; [left; now apply String.eqb_eq | right; auto]. }
    destruct Hin as [Heq|Hin].
    + inversion Heq; subst.
      destruct (a || negb (is_undefined d)); simpl; [now rewrite String.eqb_refl | exact Hk0].
    + assert (Hne : (k0 =? k)%string = false).
      { apply String.eqb_neq. intros Hk; subst k0. apply Hnotin.
        exact (List.in_map key_of _ _ Hin). }
      rewrite <- (IH _ eq_refl (fun Hc => Hp (or_intror Hc)) Hnd' Hin).
      destruct (a0 || negb (is_undefined d0)); simpl; [now rewrite Hne | reflexivity].
Qed.

Lemma orb_assoc_idem (a b : bool) : a || b || b = a || b.
Proof. destruct a, b; reflexivity. Qed.

Lemma merge_again pairs out (f : string -> bool) (g : string -> value) :
  merge pairs = inl out ->
  (forall k a r, In (k, a, r) pairs ->
     r = OK (g k) /\ f k = a || negb (is_undefined (g k))) ->
  merge (List.map (fun pr => (key_of pr, f (key_of pr), OK (g (key_of pr)))) pairs) = inl out.
Proof.
  revert out. induction pairs as [|[[k a] r] rest IH]; simpl; intros out H Hall; [exact H|].
  destruct (Hall k a r (or_introl eq_refl)) as [-> Hf].
  destruct (merge rest) as [out'|] eqn:E; [|discriminate].
  rewrite (IH out' eq_refl) by (intros; apply Hall; now right).
  unfold key_of at 1 2. simpl. rewrite Hf, orb_assoc_idem. exact H.
Qed.

End DocumentFacts.

Section DocumentRules.
Import JS Zod ElasticIndex ElasticIndexRules.

Lemma object_stable shape :
  List.NoDup ("__proto__" :: List.map fst shape) ->
  (forall k t, In (k, t) shape -> stable t) ->
  stable (object shape).
Proof.
  intros Hnd Hfields p v d H p'.
  unfold object in H. destruct v as [| | | | | |fields]; try discriminate.
  unfold merged in H. destruct (merge _) as [out|errs] eqn:E; [|discriminate].
  injection H as <-.
  assert (Hnd' : List.NoDup ("__proto__" :: List.map key_of
            (List.map (fun '(k, t) => (k, has_key k fields, t (p ++ [Key k]) (get k fields)))
               shape))).
  { rewrite List.map_map. erewrite List.map_ext; [exact Hnd|]. now intros [k t]. }
  assert (Hget : forall k t, In (k, t) shape ->
            t (p ++ [Key k]) (get k fields) = OK (get k out)).
  { intros k t Hin. eapply (merge_get _ _ k (has_key k fields)); [exact E | exact Hnd' |].
    apply in_map_iff. exists (k, t). auto. }
  unfold object, merged.
  replace (List.map (fun '(k, t) => (k, has_key k out, t (p' ++ [Key k]) (get k out))) shape)
    with (List.map (fun pr => (key_of pr, has_key (key_of pr) out, OK (get (key_of pr) out)))
            (List.map (fun '(k, t) => (k, has_key k fields, t (p ++ [Key k]) (get k fields)))
               shape)).
  - rewrite (merge_again _ out (fun k => has_key k out) (fun k => get k out) E); [reflexivity|].
    intros k a r Hin. apply in_map_iff in Hin as [[k' t] [Heq Hin]].
    injection Heq as <- <- <-. rewrite (Hget _ _ Hin). split; [reflexivity|].
    eapply merge_has_key; [exact E | exact Hnd' |].
    apply in_map_iff. exists (k', t). rewrite (Hget _ _ Hin). auto.
  - rewrite List.map_map. apply List.map_ext_in. intros [k t] Hin. unfold key_of. simpl.
    now rewrite (Hfields _ _ Hin _ _ _ (Hget _ _ Hin) (p' ++ [Key k])).
Qed.

Lemma label_union_transparent : transparent (union [string_ []; number_ []; boolean]).
Proof.
  apply union_transparent.
  apply List.Forall_cons; [apply string_transparent|].
  apply List.Forall_cons; [apply number_transparent|].
  apply List.Forall_cons; [apply boolean_transparent | apply List.Forall_nil].
Qed.

Lemma metric_union_transparent : transparent (union [number_ []; string_ []]).
Proof.
  apply union_transparent.
  apply List.Forall_cons; [apply number_transparent|].
  apply List.Forall_cons; [apply string_transparent | apply List.Forall_nil].
Qed.

Lemma Labels_stable : stable (optional LabelsSchema).
Proof. apply optional_stable, record_stable, label_union_transparent. Qed.

Lemma Metrics_stable : stable (optional MetricsSchema).
Proof. apply optional_stable, record_stable, metric_union_transparent. Qed.

Lemma optional_record_output t p v d :
  transparent t -> optional (record t) p v = OK d -> d = without_proto v.
Proof.
  intros Ht. unfold optional. destruct v; try (intros H; now apply (record_output t Ht) in H).
  now intros [= <-].
Qed.

Lemma Service_stable : stable ServiceSchema.
Proof.
  apply object_stable; [repeat constructor; simpl; intuition discriminate|].
  intros k t [[= <- <-]|[]]. apply transparent_stable, string_transparent.
Qed.

Lemma Event_stable : stable EventSchema.
Proof.
  apply object_stable; [repeat constructor; simpl; intuition discriminate|].
  intros k t [[= <- <-]|[]]. apply transparent_stable, enum_transparent.
Qed.

Lemma LogDocument_stable is_datetime : stable (LogDocumentSchema is_datetime).
Proof.
  apply object_stable; [exact LogDocument_keys|].
  intros k t Hin. simpl in Hin.
  destruct Hin as [[= <- <-]|[[= <- <-]|[[= <- <-]|[[= <- <-]|[[= <- <-]|[[= <- <-]|[[= <- <-]|[]]]]]]]].
  - apply transparent_stable, string_transparent.
  - apply Service_stable.
  - apply Event_stable.
  - apply transparent_stable, string_transparent.
  - apply transparent_stable, optional_transparent, string_transparent.
  - apply Labels_stable.
  - apply Metrics_stable.
Qed.

Lemma single_string_object name checks p v d :
  String.eqb name "__proto__" = false ->
  object [(name, string_ checks)] p v = OK d -> d = VObject [(name, prop name v)].
Proof.
  intros Hname.
  unfold object, merged. destruct v as [| | | | | |fields]; try discriminate. simpl.
  rewrite Hname.
  destruct (string_ checks (p ++ [Key name]) (get name fields)) as [x|errs] eqn:E;
    [|discriminate].
  destruct (string_transparent checks _ _ _ E) as [-> _].
  unfold string_ in E. destruct (get name fields); try discriminate.
  simpl. rewrite orb_true_r. now intros [= <-].
Qed.

Lemma single_enum_object name values p v d :
  String.eqb name "__proto__" = false ->
  object [(name, enum values)] p v = OK d -> d = VObject [(name, prop name v)].
Proof.
  intros Hname.
  unfold object, merged. destruct v as [| | | | | |fields]; try discriminate. simpl.
  rewrite Hname.
  destruct (enum values (p ++ [Key name]) (get name fields)) as [x|errs] eqn:E;
    [|discriminate].
  destruct (enum_transparent values _ _ _ E) as [-> _].
  unfold enum in E. destruct (get name fields); try discriminate.
  simpl. rewrite orb_true_r. now intros [= <-].
Qed.

Lemma max_is_ok n p v : is_ok (string_ [max n] p v) = short_string n v.
Proof.
  destruct v; try reflexivity. simpl. unfold max.
  rewrite Nat.ltb_antisym. destruct (Nat.leb (JS.length s) n); reflexivity.
Qed.

Lemma optional_max_is_ok n p v :
  is_ok (optional (string_ [max n]) p v) = absent_or (short_string n) v.
Proof. destruct v; try reflexivity. apply (max_is_ok n p (VString s)). Qed.

Lemma format_is_ok recognise p v :
  is_ok (string_ [format recognise] p v)
  = match v with VString t => recognise t | _ => false end.
Proof.
  destruct v; try reflexivity. simpl. unfold format. destruct (recognise s); reflexivity.
Qed.

Lemma Service_is_ok p v : is_ok (ServiceSchema p v) = short_string 256 (prop "name" v).
Proof.
  destruct v; try reflexivity. unfold ServiceSchema. rewrite object_is_ok.
  cbn [forallb fst snd]. now rewrite max_is_ok, andb_true_r.
Qed.

Lemma Event_is_ok p v :
  is_ok (EventSchema p v)
  = match prop "action" v with VString a => mem a event_actions | _ => false end.
Proof.
  destruct v; try reflexivity. unfold EventSchema. rewrite object_is_ok.
  cbn [forallb fst snd prop]. rewrite andb_true_r.
  unfold EventActionSchema, enum. fold event_actions.
  destruct (get "action" fields); try reflexivity.
  destruct (mem s event_actions); reflexivity.
Qed.

Lemma Labels_is_ok p v :
  is_ok (optional LabelsSchema p v) = absent_or (entries_all label_value) v.
Proof. destruct v; try reflexivity. apply LabelsSchema_is_ok. Qed.

Lemma Metrics_is_ok p v :
  is_ok (optional MetricsSchema p v) = absent_or (entries_all metric_value) v.
Proof. destruct v; try reflexivity. apply MetricsSchema_is_ok. Qed.

(** Acceptance of a document wherever it sits. *)
Lemma LogDocument_is_ok_at is_datetime p raw :
  is_ok (LogDocumentSchema is_datetime p raw) = document_ok is_datetime raw.
Proof.
  destruct raw as [| | | | | |fields]; try reflexivity.
  unfold LogDocumentSchema. rewrite object_is_ok. cbn [forallb fst snd].
  rewrite format_is_ok, Service_is_ok, Event_is_ok, max_is_ok, optional_max_is_ok,
    Labels_is_ok, Metrics_is_ok.
  unfold document_ok. cbn [prop]. rewrite andb_true_r, !andb_assoc. reflexivity.
Qed.

End DocumentRules.

(** X7.  [LogDocumentSchema] accepts exactly the objects with a datetime
    [@timestamp], a [service.name] of length at most 256, an [event.action]
    among the three actions, a [message] of length at most 1024, a
    [trace_id] that is absent or a string of length at most 256 (null is
    not accepted), and [labels] and [metrics] that are absent or objects
    whose entries hold the values their unions allow.  Lengths are those of
    JavaScript, in UTF-16 code units. *)
Theorem LogDocumentSchema_accepts
    (is_datetime : string -> bool) (raw : JS.value) :
  Zod.is_ok (Zod.parse (ElasticIndex.LogDocumentSchema is_datetime) raw)
  = ElasticIndexRules.document_ok is_datetime raw.
Proof. apply LogDocument_is_ok_at. Qed.

(** X8.  Validation of log documents is idempotent: the document that
    [LogDocumentSchema] hands out is accepted again and handed out
    unchanged. *)
Theorem LogDocumentSchema_idempotent
    (is_datetime : string -> bool) (raw doc : JS.value) :
  Zod.parse (ElasticIndex.LogDocumentSchema is_datetime) raw = Zod.OK doc ->
  Zod.parse (ElasticIndex.LogDocumentSchema is_datetime) doc = Zod.OK doc.
Proof. intros H. exact (LogDocument_stable is_datetime _ _ _ H []). Qed.

Lemma LogDocumentSchema_idempotent_witness :
  Zod.parse (ElasticIndex.LogDocumentSchema ElasticIndex.datetime_regex)
    ElasticIndex.sampleLogDocument
  = Zod.OK ElasticIndex.sampleLogDocument.
Proof.
  apply (LogDocumentSchema_idempotent ElasticIndex.datetime_regex
           (ElasticIndex.with_field "host" (JS.VString "node-1") ElasticIndex.sampleLogDocument)).
  reflexivity.
Defined.

(** X9.  An accepted log document comes out with its known fields and
    nothing else: [@timestamp], [message] and [trace_id] are handed through
    as they went in, [labels] and [metrics] as they went in but for an
    entry under [__proto__], which is dropped, [service] and [event] are
    cut down to [name] and [action], and every other top-level key is
    dropped. *)
Theorem LogDocumentSchema_output
    (is_datetime : string -> bool) (raw doc : JS.value) :
  Zod.parse (ElasticIndex.LogDocumentSchema is_datetime) raw = Zod.OK doc ->
  (forall k, In k ElasticIndexRules.plain_keys -> JS.prop k doc = JS.prop k raw)
  /\ (forall k, In k ElasticIndexRules.map_keys ->
      JS.prop k doc = ElasticIndexRules.without_proto (JS.prop k raw))
  /\ JS.prop "service" doc = JS.VObject [("name", JS.prop "name" (JS.prop "service" raw))]
  /\ JS.prop "event" doc = JS.VObject [("action", JS.prop "action" (JS.prop "event" raw))]
  /\ (forall k, ~ In k ElasticIndexRules.document_keys -> JS.prop k doc = JS.VUndefined).
Proof.
  intros H. unfold Zod.parse, ElasticIndex.LogDocumentSchema in H.
  assert (Hfield : forall k t, In (k, t)
            [ ("@timestamp", Zod.string_ [Zod.format is_datetime]);
              ("service", ElasticIndex.ServiceSchema);
              ("event", ElasticIndex.EventSchema);
              ("message", Zod.string_ [Zod.max 1024]);
              ("trace_id", Zod.optional (Zod.string_ [Zod.max 256]));
              ("labels", Zod.optional ElasticIndex.LabelsSchema);
              ("metrics", Zod.optional ElasticIndex.MetricsSchema) ] ->
            t [Zod.Key k] (JS.prop k raw) = Zod.OK (JS.prop k doc)).
  { intros k t Hin. destruct (object_get _ _ _ _ k t H LogDocument_keys Hin)
      as [fields [-> Hp]]. exact Hp. }
  split; [|split; [|split; [|split]]].
  - intros k Hin. simpl in Hin.
    destruct Hin as [<-|[<-|[<-|[]]]].
    + now destruct (string_transparent _ _ _ _
                      (Hfield "@timestamp" (Zod.string_ [Zod.format is_datetime])
                         ltac:(simpl; tauto))).
    + now destruct (string_transparent _ _ _ _
                      (Hfield "message" (Zod.string_ [Zod.max 1024]) ltac:(simpl; tauto))).
    + now destruct (optional_transparent _ (string_transparent _) _ _ _
                      (Hfield "trace_id" (Zod.optional (Zod.string_ [Zod.max 256]))
                         ltac:(simpl; tauto))).
  - intros k Hin. simpl in Hin.
    destruct Hin as [<-|[<-|[]]].
    + exact (optional_record_output _ _ _ _ label_union_transparent
               (Hfield "labels" (Zod.optional ElasticIndex.LabelsSchema)
                  ltac:(simpl; tauto))).
    + exact (optional_record_output _ _ _ _ metric_union_transparent
               (Hfield "metrics" (Zod.optional ElasticIndex.MetricsSchema)
                  ltac:(simpl; tauto))).
  - apply (single_string_object "name" [Zod.max 256] [Zod.Key "service"] _ _ eq_refl).
    apply (Hfield "service" ElasticIndex.ServiceSchema). simpl; tauto.
  - apply (single_enum_object "action" ElasticIndex.event_actions [Zod.Key "event"]
             _ _ eq_refl).
    apply (Hfield "event" ElasticIndex.EventSchema). simpl; tauto.
  - intros k Hk. unfold Zod.object, Zod.merged in H.
    destruct raw as [| | | | | |fields]; try discriminate.
    destruct (Zod.merge _) as [out|errs] eqn:E; [|discriminate].
    injection H as <-. simpl. apply get_absent. intros Hin. apply Hk.
    apply merge_keys in E. rewrite List.map_map in E. apply E in Hin. exact Hin.
Qed.

Lemma LogDocumentSchema_output_witness :
  exists doc,
    Zod.parse (ElasticIndex.LogDocumentSchema ElasticIndex.datetime_regex)
      (ElasticIndex.with_field "labels"
         (JS.VObject [("__proto__", JS.VString "x"); ("team", JS.VString "core")])
         (ElasticIndex.with_field "service"
            (JS.VObject [("name", JS.VString "api"); ("version", JS.VString "1.4")])
            (ElasticIndex.with_field "host" (JS.VString "node-1")
               ElasticIndex.sampleLogDocument)))
    = Zod.OK doc
    /\ JS.prop "host" doc = JS.VUndefined
    /\ JS.prop "service" doc = JS.VObject [("name", JS.VString "api")]
    /\ JS.prop "labels" doc = JS.VObject [("team", JS.VString "core")].
Proof.
  match goal with
  | |- exists doc, ?r = _ /\ _ =>
      destruct r as [doc|errs] eqn:H; [|vm_compute in H; discriminate]
  end.
  exists doc. split; [reflexivity|].
  destruct (LogDocumentSchema_output _ _ _ H) as [_ [Hmaps [Hservice [_ Hother]]]].
  split; [apply Hother; simpl; intuition discriminate|].
  split; [exact Hservice|].
  rewrite (Hmaps "labels") by (simpl; tauto). reflexivity.
Defined.

Section RequestFacts.
Import JS Zod ElasticIndex ElasticIndexRules.

Lemma items_from_is_ok (t : ZodType) (f : value -> bool) p i items :
  (forall q x, is_ok (t q x) = f x) ->
  match items_from t p i items with inl _ => true | inr _ => false end
  = forallb f items.
Proof.
  intros Hf. revert i. induction items as [|x items IH]; intros i; [reflexivity|].
  simpl. rewrite <- (Hf (p ++ [Index i]) x), <- (IH (S i)).
  destruct (t (p ++ [Index i]) x); destruct (items_from t p (S i) items); reflexivity.
Qed.

Lemma array_is_ok (t : ZodType) (f : value -> bool) n p items :
  (forall q x, is_ok (t q x) = f x) ->
  is_ok (array t n p (VArray items))
  = negb (Nat.ltb (List.length items) n) && forallb f items.
Proof.
  intros Hf. unfold array. rewrite <- (items_from_is_ok t f p 0 items Hf).
  destruct (items_from t p 0 items); destruct (Nat.ltb (List.length items) n); reflexivity.
Qed.

Lemma default_string_is_ok d p v :
  is_ok (default (string_ []) (VString d) p v)
  = absent_or (fun v => match v with VString _ => true | _ => false end) v.
Proof. destruct v; reflexivity. Qed.

Lemma default_number_ok checks d p v x :
  default (number_ checks) (num d) p v = OK x ->
  x = setting_or d v /\ is_undefined x = false.
Proof.
  intros H. assert (Hn : exists n, x = VNumber n /\ x = setting_or d v).
  { destruct v as [| | |n| | |]; simpl in H; try discriminate.
    - unfold finish in H. destruct (run_checks _ _ _); [|discriminate].
      injection H as <-. eauto.
    - destruct n; try discriminate; unfold finish in H;
        (destruct (run_checks _ _ _); [|discriminate]); injection H as <-; eauto. }
  destruct Hn as [n [Hx Hs]]. split; [exact Hs | now rewrite Hx].
Qed.

Lemma settings_output p v d :
  object
    [ ("number_of_shards", default (number_ [int; positive]) (num 1));
      ("number_of_replicas", default (number_ [int; nmin 0]) (num 1)) ] p v = OK d ->
  d = VObject
        [ ("number_of_shards", setting_or 1 (prop "number_of_shards" v));
          ("number_of_replicas", setting_or 1 (prop "number_of_replicas" v)) ].
Proof.
  unfold object, merged. destruct v as [| | | | | |fields]; try discriminate.
  simpl List.map. cbn [prop].
  match goal with
  | |- context [merge [(_, _, ?r1); (_, _, ?r2)]] =>
      destruct r1 as [x1|e1] eqn:E1; [|simpl; destruct r2; discriminate];
      destruct r2 as [x2|e2] eqn:E2; [|simpl; discriminate]
  end.
  apply default_number_ok in E1 as [-> D1]. apply default_number_ok in E2 as [-> D2].
  simpl. rewrite D1, D2, !orb_true_r. now intros [= <-].
Qed.

Lemma properties_output p v d :
  object [ ("properties", record any) ] p v = OK d ->
  d = VObject [ ("properties", without_proto (prop "properties" v)) ].
Proof.
  unfold object, merged. destruct v as [| | | | | |fields]; try discriminate. simpl.
  destruct (record any (p ++ [Key "properties"]) (get "properties" fields)) as [x|errs] eqn:E;
    [|discriminate].
  destruct (record_output any any_transparent _ _ _ E) as [-> _].
  unfold record in E. destruct (get "properties" fields); try discriminate.
  simpl. rewrite orb_true_r. now intros [= <-].
Qed.

Lemma mapping_output p v d :
  object
    [ ("settings",
       object
         [ ("number_of_shards", default (number_ [int; positive]) (num 1));
           ("number_of_replicas", default (number_ [int; nmin 0]) (num 1)) ]);
      ("mappings", object [ ("properties", record any) ]) ] p v = OK d ->
  d = stripped_mapping v.
Proof.
  unfold object at 1, merged. destruct v as [| | | | | |fields]; try discriminate.
  simpl List.map.
  match goal with
  | |- context [merge [(_, _, ?r1); (_, _, ?r2)]] =>
      destruct r1 as [x1|e1] eqn:E1; [|simpl; destruct r2; discriminate];
      destruct r2 as [x2|e2] eqn:E2; [|simpl; discriminate]
  end.
  apply settings_output in E1. apply properties_output in E2. subst x1 x2.
  simpl. rewrite !orb_true_r. now intros [= <-].
Qed.

Lemma IndexCreationRequest_mapping raw out :
  Zod.parse ElasticIndex.IndexCreationRequestSchema raw = Zod.OK out ->
  prop "mapping" out = ElasticIndexRules.stripped_mapping (prop "mapping" raw).
Proof.
  intros H. unfold Zod.parse, ElasticIndex.IndexCreationRequestSchema in H.
  match type of H with
  | Zod.object [_; (_, ?t)] _ _ = _ =>
      destruct (object_get _ _ _ _ "mapping" t H) as [fields [-> Hm]];
        [repeat constructor; simpl; intuition discriminate | simpl; tauto |]
  end.
  now apply mapping_output in Hm.
Qed.

Lemma validated_mapping index mapping out :
  Env.parse_or_throw ElasticIndex.IndexCreationRequestSchema
    (VObject [("index", index); ("mapping", mapping)]) = Return out ->
  prop "mapping" out = ElasticIndexRules.stripped_mapping mapping.
Proof.
  intros H. pose proof (parse_or_throw_cases ElasticIndex.IndexCreationRequestSchema
                          (VObject [("index", index); ("mapping", mapping)])) as Hc.
  rewrite H in Hc. now apply IndexCreationRequest_mapping in Hc.
Qed.

End RequestFacts.

(** X10.  [BulkIndexRequestSchema] accepts exactly the objects whose
    [documents] is a non-empty array of documents that [LogDocumentSchema]
    accepts, one bad document failing the whole request, and whose [index]
    is absent or a string. *)
Theorem BulkIndexRequestSchema_accepts
    (is_datetime : string -> bool) (raw : JS.value) :
  Zod.is_ok (Zod.parse (ElasticIndex.BulkIndexRequestSchema is_datetime) raw)
  = ElasticIndexRules.bulk_request_ok is_datetime raw.
Proof.
  destruct raw as [| | | | | |fields]; try reflexivity.
  unfold Zod.parse, ElasticIndex.BulkIndexRequestSchema. rewrite object_is_ok.
  cbn [forallb fst snd]. rewrite default_string_is_ok, andb_true_r.
  unfold ElasticIndexRules.bulk_request_ok. cbn [JS.prop]. f_equal.
  destruct (JS.get "documents" fields) as [| | | | |docs|]; try reflexivity.
  rewrite (array_is_ok _ (ElasticIndexRules.document_ok is_datetime))
    by (intros; apply LogDocument_is_ok_at).
  f_equal. destruct docs; reflexivity.
Qed.

(** X11.  Of a mapping, [IndexCreationRequestSchema] keeps the two settings
    [number_of_shards] and [number_of_replicas], each defaulting to 1, and
    [mappings.properties] with its entries as they are, except an entry
    under [__proto__], which is dropped; every other part of the mapping
    (other settings, other keys of [mappings], other top-level keys) is cut
    off. *)
Theorem IndexCreationRequestSchema_strips (raw out : JS.value) :
  Zod.parse ElasticIndex.IndexCreationRequestSchema raw = Zod.OK out ->
  JS.prop "mapping" out = ElasticIndexRules.stripped_mapping (JS.prop "mapping" raw).
Proof.
  intros H. unfold Zod.parse, ElasticIndex.IndexCreationRequestSchema in H.
  match type of H with
  | Zod.object [_; (_, ?t)] _ _ = _ =>
      destruct (object_get _ _ _ _ "mapping" t H) as [fields [-> Hm]];
        [repeat constructor; simpl; intuition discriminate | simpl; tauto |]
  end.
  now apply mapping_output in Hm.
Qed.

Lemma IndexCreationRequestSchema_strips_witness :
  exists out,
    Zod.parse ElasticIndex.IndexCreationRequestSchema
      (JS.VObject
         [ ("mapping",
            JS.VObject
              [ ("settings", JS.VObject [("number_of_shards", ElasticIndex.num 3);
                                         ("refresh_interval", JS.VString "1s")]);
                ("mappings", JS.VObject [("dynamic", JS.VString "strict");
                                         ("properties",
                                          JS.VObject [("__proto__", JS.VObject []);
                                                      ("message", JS.VNull)])]) ]) ])
    = Zod.OK out
    /\ JS.prop "mapping" out
       = JS.VObject
           [ ("settings", JS.VObject [("number_of_shards", ElasticIndex.num 3);
                                      ("number_of_replicas", ElasticIndex.num 1)]);
             ("mappings", JS.VObject [("properties", JS.VObject [("message", JS.VNull)])]) ].
Proof.
  match goal with
  | |- exists out, ?r = _ /\ _ =>
      destruct r as [out|errs] eqn:H; [|vm_compute in H; discriminate]
  end.
  exists out. split; [reflexivity|].
  rewrite (IndexCreationRequestSchema_strips _ _ H). reflexivity.
Defined.

(** ** Runs of the index initializer and of the index-init command *)
Section ClientRuns.
Import JS ElasticClient ElasticClientRules.

Lemma every_run_mono {A} (p : Prog A) (Q Q' : Completion Exn A -> list Event -> Prop) :
  (forall c t, Q c t -> Q' c t) -> every_run p Q -> every_run p Q'.
Proof.
  revert Q Q'. induction p as [a|e|l s d k IH|R req k IH]; intros Q Q' HQ; simpl; auto.
  - apply IH. intros c t. apply HQ.
  - intros H answer. apply (IH answer _ _ (fun c t => HQ c _)), H.
Qed.

Lemma every_run_bind {A B} (p : Prog A) (f : A -> Prog B) Q :
  every_run p (fun c t =>
                 match c with
                 | Return a => every_run (f a) (fun c' t' => Q c' (t ++ t'))
                 | Throw e => Q (Throw e) t
                 end) ->
  every_run (bind p f) Q.
Proof.
  revert Q. induction p as [a|e|l s d k IH|R req k IH]; intros Q; simpl; auto.
Qed.

Lemma every_run_try_catch {A} (p : Prog A) (handler : Exn -> Prog A) Q :
  every_run p (fun c t =>
                 match c with
                 | Return a => Q (Return a) t
                 | Throw e => every_run (handler e) (fun c' t' => Q c' (t ++ t'))
                 end) ->
  every_run (try_catch p handler) Q.
Proof.
  revert Q. induction p as [a|e|l s d k IH|R req k IH]; intros Q; simpl; auto.
Qed.

Lemma every_run_try_finally {A} (p : Prog A) (f : Prog unit) Q :
  every_run p (fun c t =>
                 every_run f (fun c' t' =>
                                Q (match c' with Return _ => c | Throw e => Throw e end)
                                  (t ++ t'))) ->
  every_run (try_finally p f) Q.
Proof.
  revert Q. induction p as [a|e|l s d k IH|R req k IH]; intros Q; simpl.
  - intros H. apply every_run_bind. revert H. apply every_run_mono. intros [[]|e'] t; simpl; rewrite ?app_nil_r; auto.
  - intros H. apply every_run_bind. revert H. apply every_run_mono. intros [[]|e'] t; simpl; rewrite ?app_nil_r; auto.
  - intros H. apply IH. exact H.
  - intros H answer. apply IH, H.
Qed.

Lemma every_run_sound {A} (p : Prog A) Q :
  every_run p Q ->
  forall (World : Type) (respond : forall R, Request R -> World -> Completion Exn R * World)
         (w : World),
    Q (completion_of (run World respond p w)) (trace_of (run World respond p w)).
Proof.
  intros H World respond. revert Q H.
  induction p as [a|e|l s d k IH|R req k IH]; intros Q H w; simpl in *; auto.
  - specialize (IH _ H w). destruct (run World respond k w) as [[c w'] t]. exact IH.
  - destruct (respond R req w) as [answer w1].
    specialize (IH answer _ (H answer) w1).
    destruct (run World respond (k answer) w1) as [[c w'] t]. exact IH.
Qed.



Section RunFacts.

Variable World : Type.
Variable respond : forall R, Request R -> World -> Completion Exn R * World.

Lemma run_bind {A B} (p : Prog A) (f : A -> Prog B) w :
  run World respond (bind p f) w
  = match run World respond p w with
    | (Return a, w1, t) =>
        let '(c, w2, t') := run World respond (f a) w1 in (c, w2, t ++ t')
    | (Throw e, w1, t) => (Throw e, w1, t)
    end.
Proof.
  revert w. induction p as [a|e|l s d k IH|R req k IH]; intros w; simpl.
  - now destruct (run World respond (f a) w) as [[c w2] t'].
  - reflexivity.
  - rewrite IH. destruct (run World respond k w) as [[[a|e] w1] t]; [|reflexivity].
    now destruct (run World respond (f a) w1) as [[c w2] t'].
  - destruct (respond R req w) as [answer w0]. rewrite IH.
    destruct (run World respond (k answer) w0) as [[[a|e] w1] t]; [|reflexivity].
    now destruct (run World respond (f a) w1) as [[c w2] t'].
Qed.

Lemma run_try_catch {A} (p : Prog A) (handler : Exn -> Prog A) w :
  run World respond (try_catch p handler) w
  = match run World respond p w with
    | (Return a, w1, t) => (Return a, w1, t)
    | (Throw e, w1, t) =>
        let '(c, w2, t') := run World respond (handler e) w1 in (c, w2, t ++ t')
    end.
Proof.
  revert w. induction p as [a|e|l s d k IH|R req k IH]; intros w; simpl.
  - reflexivity.
  - now destruct (run World respond (handler e) w) as [[c w2] t'].
  - rewrite IH. destruct (run World respond k w) as [[[a|e] w1] t]; [reflexivity|].
    now destruct (run World respond (handler e) w1) as [[c w2] t'].
  - destruct (respond R req w) as [answer w0]. rewrite IH.
    destruct (run World respond (k answer) w0) as [[[a|e] w1] t]; [reflexivity|].
    now destruct (run World respond (handler e) w1) as [[c w2] t'].
Qed.


Lemma run_replay {A} (lines : list Startup.Line) (k : Prog A) w :
  run World respond (Ingestor.replay lines k) w
  = let '(c, w1, t) := run World respond k w in (c, w1, IngestorRules.printed lines ++ t).
Proof.
  induction lines as [|[level line] lines IH]; simpl.
  - now destruct (run World respond k w) as [[c w1] t].
  - rewrite IH. now destruct (run World respond k w) as [[c w1] t].
Qed.

End RunFacts.

Lemma every_run_any {A} (p : Prog A) (Q : Completion Exn A -> list Event -> Prop) :
  (forall c t, Q c t) -> every_run p Q.
Proof.
  revert Q. induction p as [a|e|l s d k IH|R req k IH]; intros Q HQ; simpl; auto.
Qed.

Lemma every_run_replay {A} (lines : list Startup.Line) (k : Prog A) Q :
  every_run k (fun c t => Q c (IngestorRules.printed lines ++ t)) ->
  every_run (Ingestor.replay lines k) Q.
Proof.
  revert Q. induction lines as [|[level line] lines IH]; intros Q; simpl; auto.
Qed.

End ClientRuns.

Section MethodRuns.
Import JS ElasticClient ElasticClientRules.

Variable JSON_parse : string -> Completion Exn value.
Variable render : Exn -> string.
Variable default_mapping_path : string.
Variable this : ElasticIndexInitializer.

Ltac unfold_methods :=
  unfold initializeIndex, checkIndexExists, deleteIndex, loadIndexMapping, createIndex,
    testIndexWrite, close, console_log, console_error, await.

Ltac reduce :=
  cbn [every_run every_exchange bind try_catch try_finally mbind Prog_bind mret Prog_ret
         lift andb].

Ltac run_step :=
  first
    [ progress reduce
    | match goal with
      | |- forall _ : Completion _ _, _ => intros [?|?]
      | |- context [lift ?c] => destruct c eqn:?
      | |- context [if ?b then _ else _] => destruct b eqn:?
      end ].

Ltac leaf :=
  repeat match goal with
         | H : _ && true = true |- _ => rewrite andb_true_r in H; subst
         | H : _ && true = false |- _ => rewrite andb_true_r in H; subst
         | H : _ && false = true |- _ => rewrite andb_false_r in H; discriminate H
         | H : Env.parse_or_throw _ _ = Return _ |- _ =>
             apply validated_mapping in H; rewrite H
         end;
  cbn [forallb concerns is_index_delete negb app];
  rewrite ?String.eqb_refl.

Lemma initializeIndex_runs options :
  let idx := target_index this options in
  let path := target_mapping default_mapping_path options in
  every_run (initializeIndex JSON_parse render default_mapping_path this options)
    (fun c t =>
       forallb (concerns idx path) t = true
       /\ (recreate options <> Some true ->
           forallb (fun e => negb (is_index_delete e)) t = true)
       /\ match c with
          | Throw e =>
              last t = Some (Printed error ("Index initialization failed for " ++ idx ++ ":")
                               (Some e))
          | Return _ =>
              last t = Some (Printed log ("Index " ++ idx
                                          ++ " already exists, skipping creation") None)
              \/ last t
                 = Some (Printed log ("Index initialization completed successfully for "
                                      ++ idx) None)
          end).
Proof.
  intros idx path. subst idx path. unfold_methods.
  fold (target_index this options). fold (target_mapping default_mapping_path options).
  set (idx := target_index this options).
  set (path := target_mapping default_mapping_path options).
  destruct (recreate options) as [[|]|].
  all: repeat run_step.
  all: leaf.
  all: split; [reflexivity|].
  all: split; [try (intros _; reflexivity); try (intros H; now elim H)|].
  all: try reflexivity.
  all: first [left; reflexivity | right; reflexivity].
Qed.



End MethodRuns.



(** X13.  [loadIndexMapping] does nothing but read the mapping file.  What
    it returns is what validation leaves of the JSON in the file: the two
    settings with their defaults and [mappings.properties] without an entry
    under [__proto__].  Whatever goes wrong is thrown as one Error whose
    message names the path of the file and renders the error at hand: that
    of the read, else that of [JSON.parse], else the ZodError of the
    validation. *)
Theorem loadIndexMapping_reads_and_wraps
    (JSON_parse : string -> JS.Completion ElasticClient.Exn JS.value)
    (render : ElasticClient.Exn -> string)
    (this : ElasticClient.ElasticIndexInitializer)
    (World : Type)
    (respond : forall R, ElasticClient.Request R -> World
                         -> JS.Completion ElasticClient.Exn R * World)
    (mappingPath : string) (w : World) :
  let r := ElasticClient.run World respond
             (ElasticClient.loadIndexMapping JSON_parse render this mappingPath) w in
  let failed (cause : ElasticClient.Exn) : JS.Completion ElasticClient.Exn JS.value :=
    JS.Throw (JS.Error ("Failed to load index mapping from " ++ mappingPath ++ ": "
                        ++ render cause)) in
  ElasticClientRules.trace_of r
  = [ElasticClient.Requested (ElasticClient.readFileSync mappingPath)]
  /\ ElasticClientRules.world_of r
     = snd (respond string (ElasticClient.readFileSync mappingPath) w)
  /\ ElasticClientRules.completion_of r
     = match fst (respond string (ElasticClient.readFileSync mappingPath) w) with
       | JS.Throw e => failed e
       | JS.Return content =>
           match JSON_parse content with
           | JS.Throw e => failed e
           | JS.Return json =>
               match Zod.parse ElasticIndex.IndexCreationRequestSchema
                       (JS.VObject [ ("index", JS.VString (ElasticClient.env_index this));
                                     ("mapping", json) ]) with
               | Zod.OK _ => JS.Return (ElasticIndexRules.stripped_mapping json)
               | Zod.INVALID issues => failed (JS.ZodError issues)
               end
           end
       end.
Proof.
  unfold ElasticClient.loadIndexMapping, ElasticClient.await. simpl.
  destruct (respond string (ElasticClient.readFileSync mappingPath) w) as [[content|e] w1];
    simpl; [|repeat split].
  destruct (JSON_parse content) as [json|e] eqn:Hj; simpl; [|repeat split].
  pose proof (validated_mapping (JS.VString (ElasticClient.env_index this)) json) as Hm.
  unfold Env.parse_or_throw in *.
  destruct (Zod.parse _ _) as [out|issues]; simpl; [|repeat split].
  repeat split. unfold ElasticClientRules.completion_of. simpl.
  now rewrite (Hm out eq_refl).
Qed.

(** X14.  [createIndex] sends the one creation request, with the mapping as
    its body, and returns normally exactly when the store answers it with
    an acknowledgement; an answer that does not acknowledge is thrown as an
    Error of its own, and an error of the store is thrown on as it is. *)
Theorem createIndex_needs_acknowledgement
    (World : Type)
    (respond : forall R, ElasticClient.Request R -> World
                         -> JS.Completion ElasticClient.Exn R * World)
    (indexName : string) (mapping : JS.value) (w : World) :
  let r := ElasticClient.run World respond (ElasticClient.createIndex indexName mapping) w in
  ElasticClient.requests (ElasticClientRules.trace_of r)
  = [ElasticClient.Requested (ElasticClient.indices_create indexName mapping)]
  /\ ElasticClientRules.completion_of r
     = match fst (respond _ (ElasticClient.indices_create indexName mapping) w) with
       | JS.Return response =>
           if ElasticClient.acknowledged response then JS.Return tt
           else JS.Throw (JS.Error ("Index creation not acknowledged for " ++ indexName))
       | JS.Throw e => JS.Throw e
       end.
Proof.
  unfold ElasticClient.createIndex, ElasticClient.await. simpl.
  destruct (respond _ (ElasticClient.indices_create indexName mapping) w)
    as [[[[|]]|e] w1]; simpl; split; reflexivity.
Qed.


(** X16.  Unless [recreate] is true, [initializeIndex] never asks the store
    to delete an index, whatever the store answers and however the call
    ends. *)
Theorem initializeIndex_deletes_only_on_recreate
    (JSON_parse : string -> JS.Completion ElasticClient.Exn JS.value)
    (render : ElasticClient.Exn -> string) (default_mapping_path : string)
    (this : ElasticClient.ElasticIndexInitializer)
    (World : Type)
    (respond : forall R, ElasticClient.Request R -> World
                         -> JS.Completion ElasticClient.Exn R * World)
    (options : ElasticClient.IndexInitOptions) (w : World) :
  ElasticClient.recreate options <> Some true ->
  forallb (fun e => negb (ElasticClientRules.is_index_delete e))
    (ElasticClientRules.trace_of
       (ElasticClient.run World respond
          (ElasticClient.initializeIndex JSON_parse render default_mapping_path this options)
          w)) = true.
Proof.
  intros H.
  pose proof (every_run_sound _ _
                (initializeIndex_runs JSON_parse render default_mapping_path this options)
                World respond w) as [_ [Hd _]].
  now apply Hd.
Qed.

Lemma initializeIndex_deletes_only_on_recreate_witness :
  forallb (fun e => negb (ElasticClientRules.is_index_delete e))
    (ElasticClientRules.trace_of
       (ElasticClient.run nat ElasticClient.unreachable
          (ElasticClient.initializeIndex (fun _ => JS.Throw (JS.Error "no JSON")) (fun _ => "")
             "elastic_index_mapping.json" ElasticClient.sample_initializer
             {| ElasticClient.indexName := Some "logs-a";
                ElasticClient.mappingPath := None;
                ElasticClient.recreate := Some false |}) 0)) = true.
Proof.
  apply (initializeIndex_deletes_only_on_recreate
           (fun _ => JS.Throw (JS.Error "no JSON")) (fun _ => "")
           "elastic_index_mapping.json" ElasticClient.sample_initializer
           nat ElasticClient.unreachable
           {| ElasticClient.indexName := Some "logs-a";
              ElasticClient.mappingPath := None;
              ElasticClient.recreate := Some false |} 0).
  discriminate.
Defined.


(** X18.  The last line [initializeIndex] prints tells how it ended: when
    it throws, the line is the failure of the initialization with the very
    error thrown; when it returns, the line says that the index exists
    already or that the initialization is complete. *)
Theorem initializeIndex_last_line
    (JSON_parse : string -> JS.Completion ElasticClient.Exn JS.value)
    (render : ElasticClient.Exn -> string) (default_mapping_path : string)
    (this : ElasticClient.ElasticIndexInitializer)
    (World : Type)
    (respond : forall R, ElasticClient.Request R -> World
                         -> JS.Completion ElasticClient.Exn R * World)
    (options : ElasticClient.IndexInitOptions) (w : World) :
  let indexName := ElasticClient.target_index this options in
  let r := ElasticClient.run World respond
             (ElasticClient.initializeIndex JSON_parse render default_mapping_path this
                options) w in
  match ElasticClientRules.completion_of r with
  | JS.Throw e =>
      last (ElasticClientRules.trace_of r)
      = Some (ElasticClient.Printed ElasticClient.error
                ("Index initialization failed for " ++ indexName ++ ":") (Some e))
  | JS.Return _ =>
      last (ElasticClientRules.trace_of r)
      = Some (ElasticClient.Printed ElasticClient.log
                ("Index " ++ indexName ++ " already exists, skipping creation") None)
      \/ last (ElasticClientRules.trace_of r)
         = Some (ElasticClient.Printed ElasticClient.log
                   ("Index initialization completed successfully for " ++ indexName) None)
  end.
Proof.
  intros indexName r.
  pose proof (every_run_sound _ _
                (initializeIndex_runs JSON_parse render default_mapping_path this options)
                World respond w) as [_ [_ H]].
  fold r in H. destruct (ElasticClientRules.completion_of r) as [[]|e]; exact H.
Qed.



Section CloseFacts.
Import JS ElasticClient ElasticClientRules.


End CloseFacts.


Section CommandLineFacts.
Import JS Startup Ingestor IngestorRules.

Lemma parse_from_outcome n : forall args acc,
  List.length args <= n ->
  match parse_from args acc with
  | (lines, Returns a) =>
      lines = []
      /\ (recreate a = recreate acc \/ recreate a = Some true)
      /\ (help a = help acc \/ help a = Some true)
  | (lines, Throws _) => False
  | (lines, Exits code) =>
      code = 1%Z
      /\ exists x, In x args /\ known_flag x = false
                   /\ lines = [(ElasticClient.error, ("Unknown argument: " ++ x)%string)]
  end.
Proof.
  induction n as [|n IH]; intros args acc Hn.
  - destruct args; [|simpl in Hn; lia]. simpl. auto.
  - destruct args as [|arg rest]; [simpl; auto|].
    simpl in Hn. cbn [parse_from].
    assert (Hstep : forall acc',
               (recreate acc' = recreate acc \/ recreate acc' = Some true) ->
               (help acc' = help acc \/ help acc' = Some true) ->
               forall rest', List.length rest' <= n -> (forall x, In x rest' -> In x (arg :: rest)) ->
               match parse_from rest' acc' with
               | (lines, Returns a) =>
                   lines = []
                   /\ (recreate a = recreate acc \/ recreate a = Some true)
                   /\ (help a = help acc \/ help a = Some true)
               | (lines, Throws _) => False
               | (lines, Exits code) =>
                   code = 1%Z
                   /\ exists x, In x (arg :: rest) /\ known_flag x = false
                                /\ lines = [(ElasticClient.error, ("Unknown argument: " ++ x)%string)]
               end).
    { intros acc' Hr Hh rest' Hlen Hin. specialize (IH rest' acc' Hlen).
      destruct (parse_from rest' acc') as [lines [a|e|code]]; [|exact IH|].
      - destruct IH as (-> & Ha & Hb). split; [reflexivity|].
        split; [destruct Ha as [->| ->]; auto | destruct Hb as [->| ->]; auto].
      - destruct IH as (-> & x & Hx & Hk & ->). split; [reflexivity|]. eauto 6. }
    destruct (String.eqb arg "--recreate") eqn:E1.
    { apply Hstep; simpl in *; auto; lia. }
    destruct (String.eqb arg "--index") eqn:E2.
    { destruct rest as [|v rest']; [simpl; auto|].
      apply Hstep; simpl in *; auto; lia. }
    destruct (String.eqb arg "--mapping") eqn:E3.
    { destruct rest as [|v rest']; [simpl; auto|].
      apply Hstep; simpl in *; auto; lia. }
    destruct (String.eqb arg "--help" || String.eqb arg "-h") eqn:E4.
    { apply Hstep; simpl in *; auto; lia. }
    split; [reflexivity|]. exists arg. split; [now left|]. split; [|reflexivity].
    unfold known_flag. rewrite E1, E2, E3. simpl.
    apply orb_false_iff in E4 as [-> ->]. reflexivity.
Qed.

Lemma parse_from_command_line b rest acc :
  flags_only b ->
  parse_from (command_line b ++ rest) acc = parse_from rest (override acc b).
Proof.
  intros [Hr Hh]. destruct acc as [r0 i0 m0 h0].
  destruct b as [[[|]|] [i|] [m|] [[|]|]]; try (now elim Hr); try (now elim Hh);
    reflexivity.
Qed.

Lemma override_no_args a : flags_only a -> override no_args a = a.
Proof.
  intros [Hr Hh].
  destruct a as [[[|]|] [i|] [m|] [[|]|]]; try (now elim Hr); try (now elim Hh);
    reflexivity.
Qed.

End CommandLineFacts.

(** X21.  [parseCliArgs] either returns the options, having printed
    nothing, or prints one line naming an argument it does not know and
    exits with status 1; it never throws.  In the options returned a flag
    is true or absent. *)
Theorem parseCliArgs_outcomes (args : list string) :
  match Ingestor.parseCliArgs args with
  | (lines, Startup.Returns a) => lines = [] /\ Ingestor.flags_only a
  | (lines, Startup.Throws _) => False
  | (lines, Startup.Exits code) =>
      code = 1%Z
      /\ exists x, In x args /\ Ingestor.known_flag x = false
                   /\ lines = [(ElasticClient.error, ("Unknown argument: " ++ x)%string)]
  end.
Proof.
  pose proof (parse_from_outcome (List.length args) args Ingestor.no_args (le_n _)) as H.
  unfold Ingestor.parseCliArgs.
  destruct (Ingestor.parse_from args Ingestor.no_args) as [lines [a|e|code]]; try exact H.
  destruct H as (-> & Hr & Hh). split; [reflexivity|].
  split; [destruct Hr as [->| ->]|destruct Hh as [->| ->]]; discriminate.
Qed.

(** X22.  A command line that spells out given options, each one once, is
    parsed back into these options. *)
Theorem parseCliArgs_round_trip (a : Ingestor.CliArgs) :
  Ingestor.flags_only a ->
  Ingestor.parseCliArgs (Ingestor.command_line a) = ([], Startup.Returns a).
Proof.
  intros H. unfold Ingestor.parseCliArgs.
  rewrite <- (app_nil_r (Ingestor.command_line a)), parse_from_command_line by exact H.
  simpl. now rewrite override_no_args.
Qed.

Lemma parseCliArgs_round_trip_witness :
  Ingestor.parseCliArgs ["--recreate"; "--index"; "logs-a"]
  = ([], Startup.Returns {| Ingestor.recreate := Some true; Ingestor.index := Some "logs-a";
                            Ingestor.mapping := None; Ingestor.help := None |}).
Proof.
  apply (parseCliArgs_round_trip
           {| Ingestor.recreate := Some true; Ingestor.index := Some "logs-a";
              Ingestor.mapping := None; Ingestor.help := None |}).
  split; discriminate.
Defined.



Section MainFacts.
Import JS Startup ElasticClient ElasticClientRules IngestorRules.

Variable zod_message : list Zod.ZodIssue -> string.
Variable message : Zod.ZodIssue -> string.
Variable JSON_parse : string -> Completion Exn value.
Variable render : Exn -> string.
Variable default_mapping_path : string.
Variable is_url : string -> bool.

Lemma requests_app t t' : requests (t ++ t') = requests t ++ requests t'.
Proof. unfold requests. apply List.filter_app. Qed.

Lemma requests_cons_printed level line detail t :
  requests (Printed level line detail :: t) = requests t.
Proof. reflexivity. Qed.

Lemma requests_printed lines : requests (printed lines) = [].
Proof. induction lines as [|[level line] lines IH]; [reflexivity|exact IH]. Qed.

Lemma run_report World respond (e : Exn) (w : World) :
  exists t, run World respond (Ingestor.report zod_message e) w = (Return 1%Z, w, t)
            /\ requests t = [].
Proof.
  unfold Ingestor.report.
  destruct (Ingestor.includes "ECONNREFUSED" _);
    [|destruct (Ingestor.includes "authentication" _);
      [|destruct (Ingestor.includes "environment" _)]];
    eexists; split; reflexivity.
Qed.

Lemma validator_cases process_env :
  match createEnvironmentValidator message
          (fun _ => Env.validateAgentEnvironment is_url process_env) "Ingestor" tt with
  | (lines, Returns env) => Env.validateAgentEnvironment is_url process_env = Return env
  | (lines, Throws e) => Env.validateAgentEnvironment is_url process_env = Throw e
  | (lines, Exits code) =>
      code = 1%Z /\ exists e, Env.validateAgentEnvironment is_url process_env = Throw e
  end.
Proof.
  unfold createEnvironmentValidator.
  destruct (Env.validateAgentEnvironment is_url process_env) as [env|[m|issues]]; eauto.
Qed.

Lemma report_runs (e : Exn) (Q : Completion Exn Z -> list Event -> Prop) :
  (forall t, requests t = [] -> Q (Return 1%Z) t) ->
  every_run (Ingestor.report zod_message e) Q.
Proof.
  intros H. unfold Ingestor.report.
  destruct (Ingestor.includes "ECONNREFUSED" _);
    [|destruct (Ingestor.includes "authentication" _);
      [|destruct (Ingestor.includes "environment" _)]];
    cbn [every_run]; now apply H.
Qed.

Lemma main_runs args process_env :
  every_run
    (Ingestor.main zod_message message JSON_parse render default_mapping_path is_url args
       process_env)
    (fun c t =>
       (c = Return 0%Z \/ c = Return 1%Z)
       /\ ((exists e, Env.validateAgentEnvironment is_url process_env = Throw e) ->
           requests t = []
           /\ match Ingestor.parseCliArgs args with
              | (_, Returns a) =>
                  c = Return (match Ingestor.help a with Some true => 0%Z | _ => 1%Z end)
              | _ => c = Return 1%Z
              end)).
Proof.
  unfold Ingestor.main. apply every_run_try_catch.
  pose proof (parse_from_outcome (List.length args) args Ingestor.no_args (le_n _)) as Hp.
  fold (Ingestor.parseCliArgs args) in Hp.
  destruct (Ingestor.parseCliArgs args) as [lines [a|e|code]]; [|elim Hp|].
  - destruct Hp as [-> _]. cbn [Ingestor.replay].
    assert (Hv : every_run
                   match createEnvironmentValidator message
                           (fun _ => Env.validateAgentEnvironment is_url process_env)
                           "Ingestor" tt with
                   | (lines, Returns _) =>
                       Ingestor.replay lines
                         (Ingestor.and_then
                            (console_log ("🔧 Initializing Elasticsearch index..." ++ newline))
                            (Ingestor.and_then
                               (initializeElasticIndex JSON_parse render default_mapping_path
                                  is_url process_env
                                  {| recreate := Ingestor.recreate a;
                                     indexName := Ingestor.index a;
                                     mappingPath := Ingestor.mapping a |})
                               (Ingestor.and_then
                                  (console_log "✅ Index initialization completed successfully!")
                                  (Ret 0%Z))))
                   | (lines, Throws e) => Ingestor.replay lines (Raise e)
                   | (lines, Exits code) => Ingestor.replay lines (Ret code)
                   end
                   (fun c t =>
                      match c with
                      | Return z =>
                          (c = Return 0%Z \/ c = Return 1%Z)
                          /\ ((exists e, Env.validateAgentEnvironment is_url process_env
                                         = Throw e) ->
                              requests t = [] /\ c = Return 1%Z)
                      | Throw e =>
                          every_run (Ingestor.report zod_message e)
                            (fun c' t' =>
                               (c' = Return 0%Z \/ c' = Return 1%Z)
                               /\ ((exists e, Env.validateAgentEnvironment is_url process_env
                                              = Throw e) ->
                                   requests (t ++ t') = [] /\ c' = Return 1%Z))
                      end)).
    { pose proof (validator_cases process_env) as Hc.
      destruct (createEnvironmentValidator _ _ _ _) as [lines [r|e|code]];
        apply every_run_replay.
      - unfold Ingestor.and_then, console_log. cbn [bind every_run].
        apply every_run_bind, every_run_any. intros [[]|e] t.
        + cbn [every_run]. split; [now left|]. intros [e He]. congruence.
        + apply report_runs. intros t' _. split; [now right|]. intros [e' He]. congruence.
      - cbn [every_run]. apply report_runs. intros t' Ht'. split; [now right|].
        intros _. now rewrite !requests_app, requests_printed, Ht'.
      - destruct Hc as [-> _]. cbn [every_run]. split; [now right|].
        intros _. now rewrite requests_app, requests_printed. }
    destruct (Ingestor.help a) as [[|]|].
    + cbn. split; [now left|]. now intros _.
    + revert Hv. apply every_run_mono. intros [z|e] t; [cbn; tauto|].
      apply every_run_mono. intros c' t'. cbn. tauto.
    + revert Hv. apply every_run_mono. intros [z|e] t; [cbn; tauto|].
      apply every_run_mono. intros c' t'. cbn. tauto.
  - destruct Hp as [-> [x [_ [_ ->]]]]. cbn. split; [now right|]. now intros _.
Qed.

End MainFacts.

(** X24.  [main] never throws: it always ends in [process.exit], with the
    status 0 or 1, whatever the command line, the environment and the
    answers of the store. *)
Theorem main_always_exits
    (zod_message : list Zod.ZodIssue -> string) (message : Zod.ZodIssue -> string)
    (JSON_parse : string -> JS.Completion ElasticClient.Exn JS.value)
    (render : ElasticClient.Exn -> string) (default_mapping_path : string)
    (is_url : string -> bool)
    (World : Type)
    (respond : forall R, ElasticClient.Request R -> World
                         -> JS.Completion ElasticClient.Exn R * World)
    (args : list string) (process_env : gmap string string) (w : World) :
  let r := ElasticClient.run World respond
             (Ingestor.main zod_message message JSON_parse render default_mapping_path is_url
                args process_env) w in
  ElasticClientRules.completion_of r = JS.Return 0%Z
  \/ ElasticClientRules.completion_of r = JS.Return 1%Z.
Proof.
  intros r.
  now pose proof (every_run_sound _ _
                    (main_runs zod_message message JSON_parse render default_mapping_path
                       is_url args process_env) World respond w) as [H _].
Qed.



(** X26.  When [parseCliArgs] returns, no unknown argument having made it
    exit, and the options it returns have [help] set, [main] prints the help
    text and exits with status 0: the environment is not looked at and no
    request is sent. *)
Theorem main_help
    (zod_message : list Zod.ZodIssue -> string) (message : Zod.ZodIssue -> string)
    (JSON_parse : string -> JS.Completion ElasticClient.Exn JS.value)
    (render : ElasticClient.Exn -> string) (default_mapping_path : string)
    (is_url : string -> bool)
    (World : Type)
    (respond : forall R, ElasticClient.Request R -> World
                         -> JS.Completion ElasticClient.Exn R * World)
    (args : list string) (process_env : gmap string string) (w : World)
    (lines : list Startup.Line) (a : Ingestor.CliArgs) :
  Ingestor.parseCliArgs args = (lines, Startup.Returns a) ->
  Ingestor.help a = Some true ->
  ElasticClient.run World respond
    (Ingestor.main zod_message message JSON_parse render default_mapping_path is_url args
       process_env) w
  = (JS.Return 0%Z, w,
     [ElasticClient.Printed ElasticClient.log Ingestor.help_text None]).
Proof.
  intros Hp Hh.
  pose proof (parse_from_outcome (List.length args) args Ingestor.no_args (le_n _)) as Ho.
  fold (Ingestor.parseCliArgs args) in Ho. rewrite Hp in Ho. destruct Ho as [-> _].
  unfold Ingestor.main. rewrite Hp, Hh. reflexivity.
Qed.

Lemma main_help_witness :
  ElasticClient.run nat ElasticClient.unreachable
    (Ingestor.main (fun _ => "invalid") (fun _ => "Required")
       (fun _ => JS.Throw (JS.Error "no JSON")) (fun _ => "")
       "elastic_index_mapping.json" (fun _ => true)
       ["--index"; "logs-a"; "-h"] ∅) 0
  = (JS.Return 0%Z, 0,
     [ElasticClient.Printed ElasticClient.log Ingestor.help_text None]).
Proof.
  apply (main_help (fun _ => "invalid") (fun _ => "Required")
           (fun _ => JS.Throw (JS.Error "no JSON")) (fun _ => "")
           "elastic_index_mapping.json" (fun _ => true)
           nat ElasticClient.unreachable
           ["--index"; "logs-a"; "-h"] ∅ 0 []
           {| Ingestor.recreate := None; Ingestor.index := Some "logs-a";
              Ingestor.mapping := None; Ingestor.help := Some true |});
    reflexivity.
Defined.

(** X27.  With options parsed, no help asked for and a valid environment,
    [main] is [initializeElasticIndex] with these options: it sends the same
    requests, leaves the store as that call leaves it, and exits with
    status 0 when the call returns and with status 1 when it throws. *)
Theorem main_exit_code
    (zod_message : list Zod.ZodIssue -> string) (message : Zod.ZodIssue -> string)
    (JSON_parse : string -> JS.Completion ElasticClient.Exn JS.value)
    (render : ElasticClient.Exn -> string) (default_mapping_path : string)
    (is_url : string -> bool)
    (World : Type)
    (respond : forall R, ElasticClient.Request R -> World
                         -> JS.Completion ElasticClient.Exn R * World)
    (args : list string) (process_env : gmap string string) (w : World)
    (lines : list Startup.Line) (a : Ingestor.CliArgs) (env : JS.value) :
  Ingestor.parseCliArgs args = (lines, Startup.Returns a) ->
  Ingestor.help a <> Some true ->
  Env.validateAgentEnvironment is_url process_env = JS.Return env ->
  let r := ElasticClient.run World respond
             (Ingestor.main zod_message message JSON_parse render default_mapping_path is_url
                args process_env) w in
  let ri := ElasticClient.run World respond
              (ElasticClient.initializeElasticIndex JSON_parse render default_mapping_path
                 is_url process_env (IngestorRules.options_of a)) w in
  ElasticClientRules.completion_of r
  = JS.Return match ElasticClientRules.completion_of ri with
              | JS.Return _ => 0%Z
              | JS.Throw _ => 1%Z
              end
  /\ ElasticClientRules.world_of r = ElasticClientRules.world_of ri
  /\ ElasticClient.requests (ElasticClientRules.trace_of r)
     = ElasticClient.requests (ElasticClientRules.trace_of ri).
Proof.
  intros Hp Hh Hv r ri. subst r.
  unfold Ingestor.main. rewrite Hp, run_try_catch, run_replay.
  assert (Hbody :
            match Ingestor.help a with
            | Some true => Ingestor.and_then Ingestor.printHelp (ElasticClient.Ret 0%Z)
            | _ =>
                match Startup.createEnvironmentValidator message
                        (fun _ => Env.validateAgentEnvironment is_url process_env)
                        "Ingestor" tt with
                | (lines, Startup.Exits code) => Ingestor.replay lines (ElasticClient.Ret code)
                | (lines, Startup.Throws e) => Ingestor.replay lines (ElasticClient.Raise e)
                | (lines, Startup.Returns _) =>
                    Ingestor.replay lines
                      (Ingestor.and_then
                         (ElasticClient.console_log
                            ("🔧 Initializing Elasticsearch index..." ++ Startup.newline))
                         (Ingestor.and_then
                            (ElasticClient.initializeElasticIndex JSON_parse render
                               default_mapping_path is_url process_env
                               {| ElasticClient.recreate := Ingestor.recreate a;
                                  ElasticClient.indexName := Ingestor.index a;
                                  ElasticClient.mappingPath := Ingestor.mapping a |})
                            (Ingestor.and_then
                               (ElasticClient.console_log
                                  "✅ Index initialization completed successfully!")
                               (ElasticClient.Ret 0%Z))))
                end
            end
            = Ingestor.replay
                [(ElasticClient.log, "🔧 Validating Ingestor environment...");
                 (ElasticClient.log, "✅ Ingestor environment validation passed")]%string
                (Ingestor.and_then
                   (ElasticClient.console_log
                      ("🔧 Initializing Elasticsearch index..." ++ Startup.newline))
                   (Ingestor.and_then
                      (ElasticClient.initializeElasticIndex JSON_parse render
                         default_mapping_path is_url process_env (IngestorRules.options_of a))
                      (Ingestor.and_then
                         (ElasticClient.console_log
                            "✅ Index initialization completed successfully!")
                         (ElasticClient.Ret 0%Z))))).
  { unfold Startup.createEnvironmentValidator. rewrite Hv.
    destruct (Ingestor.help a) as [[|]|]; [now elim Hh|reflexivity|reflexivity]. }
  rewrite Hbody, run_replay.
  unfold Ingestor.and_then. rewrite run_bind. cbn [ElasticClient.run ElasticClient.console_log].
  rewrite run_bind. fold ri.
  destruct ri as [[[[]|e] w1] t];
    cbn -[ElasticClient.requests IngestorRules.printed Ingestor.report].
  - repeat split.
    repeat (rewrite requests_app || rewrite requests_printed
            || rewrite requests_cons_printed).
    cbn. now rewrite app_nil_r.
  - destruct (run_report zod_message World respond e w1) as [t' [-> Ht']].
    cbn -[ElasticClient.requests IngestorRules.printed].
    repeat split.
    repeat (rewrite requests_app || rewrite requests_printed
            || rewrite requests_cons_printed || rewrite Ht').
    cbn. now rewrite app_nil_r.
Qed.

Lemma main_exit_code_witness :
  let env : gmap string string :=
    {[ "GCP_PROJECT_ID" := "demo-project";
       "ELASTIC_CLOUD_ID" := "deployment:abc";
       "ELASTIC_API_KEY" := "secret" ]} in
  let r := ElasticClient.run nat ElasticClient.unreachable
             (Ingestor.main (fun _ => "invalid") (fun _ => "Required")
                (fun _ => JS.Throw (JS.Error "no JSON")) (fun _ => "")
                "elastic_index_mapping.json" (fun _ => true) ["--recreate"] env) 0 in
  ElasticClientRules.completion_of r = JS.Return 1%Z.
Proof.
  intros env.
  destruct (Env.validateAgentEnvironment (fun _ => true) env) as [v|e] eqn:Hv;
    [|vm_compute in Hv; discriminate].
  destruct (main_exit_code (fun _ => "invalid") (fun _ => "Required")
              (fun _ => JS.Throw (JS.Error "no JSON")) (fun _ => "")
              "elastic_index_mapping.json" (fun _ => true)
              nat ElasticClient.unreachable ["--recreate"] env 0 []
              {| Ingestor.recreate := Some true; Ingestor.index := None;
                 Ingestor.mapping := None; Ingestor.help := None |} v
              eq_refl ltac:(discriminate) Hv) as [H _].
  cbv zeta. etransitivity; [exact H|]. vm_compute. reflexivity.
Defined.

(** X28.  An existence check that fails counts as an index that is absent:
    [checkIndexExists] prints the error and answers false, and
    [initializeIndex] goes straight on to read the mapping file for the
    creation; even with [recreate] nothing is deleted in between. *)
Theorem initializeIndex_failed_check_counts_as_absent
    (JSON_parse : string -> JS.Completion ElasticClient.Exn JS.value)
    (render : ElasticClient.Exn -> string) (default_mapping_path : string)
    (this : ElasticClient.ElasticIndexInitializer)
    (World : Type)
    (respond : forall R, ElasticClient.Request R -> World
                         -> JS.Completion ElasticClient.Exn R * World)
    (options : ElasticClient.IndexInitOptions) (w : World) (e : ElasticClient.Exn) :
  let indexName := ElasticClient.target_index this options in
  let mappingPath := ElasticClientRules.target_mapping default_mapping_path options in
  fst (respond bool (ElasticClient.indices_exists indexName) w) = JS.Throw e ->
  exists t,
    ElasticClientRules.trace_of
      (ElasticClient.run World respond
         (ElasticClient.initializeIndex JSON_parse render default_mapping_path this options) w)
    = [ ElasticClient.Printed ElasticClient.log
          ("Initializing Elasticsearch index: " ++ indexName) None;
        ElasticClient.Printed ElasticClient.log ("Using mapping from: " ++ mappingPath) None;
        ElasticClient.Requested (ElasticClient.indices_exists indexName);
        ElasticClient.Printed ElasticClient.error
          ("Error checking if index " ++ indexName ++ " exists:") (Some e);
        ElasticClient.Requested (ElasticClient.readFileSync mappingPath) ] ++ t.
Proof.
  intros indexName mappingPath He.
  unfold ElasticClient.initializeIndex, ElasticClient.checkIndexExists,
    ElasticClient.loadIndexMapping, ElasticClient.console_log, ElasticClient.console_error,
    ElasticClient.await.
  fold (ElasticClientRules.target_mapping default_mapping_path options).
  fold indexName mappingPath.
  cbn [ElasticClient.run ElasticClient.bind ElasticClient.try_catch mbind
         ElasticClient.Prog_bind].
  destruct (respond bool (ElasticClient.indices_exists indexName) w) as [c w1].
  simpl in He. subst c.
  cbn [ElasticClient.run ElasticClient.bind ElasticClient.try_catch mbind
         ElasticClient.Prog_bind andb].
  destruct (respond string (ElasticClient.readFileSync mappingPath) w1) as [content w2].
  match goal with
  | |- context [ElasticClient.run World respond ?p w2] =>
      destruct (ElasticClient.run World respond p w2) as [[c w3] t]
  end.
  exists t. reflexivity.
Qed.

Lemma initializeIndex_failed_check_counts_as_absent_witness :
  exists t,
    ElasticClientRules.trace_of
      (ElasticClient.run nat ElasticClient.unreachable
         (ElasticClient.initializeIndex (fun _ => JS.Throw (JS.Error "no JSON")) (fun _ => "")
            "elastic_index_mapping.json" ElasticClient.sample_initializer
            {| ElasticClient.indexName := None;
               ElasticClient.mappingPath := None;
               ElasticClient.recreate := Some true |}) 0)
    = [ ElasticClient.Printed ElasticClient.log
          "Initializing Elasticsearch index: causalops-logs" None;
        ElasticClient.Printed ElasticClient.log
          "Using mapping from: elastic_index_mapping.json" None;
        ElasticClient.Requested (ElasticClient.indices_exists "causalops-logs");
        ElasticClient.Printed ElasticClient.error
          "Error checking if index causalops-logs exists:"
          (Some (JS.Error "connect ECONNREFUSED"));
        ElasticClient.Requested (ElasticClient.readFileSync "elastic_index_mapping.json") ]
      ++ t.
Proof.
  apply (initializeIndex_failed_check_counts_as_absent
           (fun _ => JS.Throw (JS.Error "no JSON")) (fun _ => "")
           "elastic_index_mapping.json" ElasticClient.sample_initializer
           nat ElasticClient.unreachable
           {| ElasticClient.indexName := None;
              ElasticClient.mappingPath := None;
              ElasticClient.recreate := Some true |} 0 (JS.Error "connect ECONNREFUSED")).
  reflexivity.
Defined.
